(** * matrix-appservice-discord: the Matrix -> Discord message path

    A shallow embedding of
    - [MatrixMessageProcessor] (escaping, pills, tree walk),
    - [MatrixEventProcessor] (embeds, replies, attachments),
    - [DiscordBot] (echo suppression, redaction, per-channel queue),
    and the properties of the specification that concern them. *)

From Stdlib Require Import NArith ZArith Ascii String Lia.
From stdpp Require Import base option list gmap.

Set Warnings "-register-all".

Set Default Proof Using "Type".
Local Open Scope N_scope.
Local Open Scope list_scope.

(* ===================================================================== *)
(** * JavaScript strings and the string primitives the bridge uses       *)
(* ===================================================================== *)

Module Js.

(** A JavaScript string is a sequence of UTF-16 code units. *)
Abbreviation jsstring := (list N).

(** ASCII literals. *)
Definition js (s : string) : jsstring := N_of_ascii <$> list_ascii_of_string s.

Definition eqb (a b : jsstring) : bool := bool_decide (a = b).

(** [s.startsWith(p)] *)
Fixpoint startsWith (s p : jsstring) {struct p} : bool :=
  match p with
  | [] => true
  | a :: p' =>
      match s with
      | [] => false
      | b :: s' => (a =? b) && startsWith s' p'
      end
  end.

(** [s.includes(p)] *)
Fixpoint includes (s p : jsstring) {struct s} : bool :=
  startsWith s p ||
  match s with
  | [] => false
  | _ :: s' => includes s' p
  end.

(** [s.endsWith(p)] *)
Definition endsWith (s p : jsstring) : bool :=
  startsWith (rev s) (rev p).

(** [s.replace(/p/g, r)] for a regular expression whose source is a
    non-empty literal [p] and a replacement [r] without [$] patterns:
    the matches are found left to right and do not overlap.  [skip]
    counts the code units of the current match still to be consumed. *)
Fixpoint replace_g_skip (skip : nat) (s p r : jsstring) {struct s} : jsstring :=
  match s with
  | [] => []
  | c :: s' =>
      match skip with
      | S k => replace_g_skip k s' p r
      | O =>
          if startsWith s p
          then r ++ replace_g_skip (length p - 1) s' p r
          else c :: replace_g_skip O s' p r
      end
  end.

Definition replace_g (s p r : jsstring) : jsstring := replace_g_skip O s p r.

(** [s.replace(p, r)] with a string pattern: only the first occurrence. *)
Fixpoint replace_first (s p r : jsstring) {struct s} : jsstring :=
  if startsWith s p then r ++ drop (length p) s
  else match s with
       | [] => []
       | c :: s' => c :: replace_first s' p r
       end.

(** Character classes of the regular expressions in the source. *)
Definition isDigit (c : N) : bool := (48 <=? c) && (c <=? 57).
Definition isUpper (c : N) : bool := (65 <=? c) && (c <=? 90).
Definition isLower (c : N) : bool := (97 <=? c) && (c <=? 122).
(** [\w] *)
Definition isWord (c : N) : bool := isDigit c || isUpper c || isLower c || (c =? 95).

(** Canonicalisation of the [i] flag; no code unit above 127 is
    identified with an ASCII one. *)
Definition toLowerAscii (c : N) : N := if isUpper c then c + 32 else c.

Fixpoint startsWith_i (s p : jsstring) {struct p} : bool :=
  match p with
  | [] => true
  | a :: p' =>
      match s with
      | [] => false
      | b :: s' => (toLowerAscii a =? toLowerAscii b) && startsWith_i s' p'
      end
  end.

Fixpoint takeWhile (f : N -> bool) (s : jsstring) : jsstring :=
  match s with
  | [] => []
  | c :: s' => if f c then c :: takeWhile f s' else []
  end.

(** A string is truthy when it is present and not empty. *)
Definition truthy (o : option jsstring) : bool :=
  match o with
  | Some (_ :: _) => true
  | _ => false
  end.

(** [a || b] on possibly undefined strings. *)
Definition orElse (a b : option jsstring) : option jsstring :=
  if truthy a then a else b.

End Js.

Import Js.

(* ===================================================================== *)
(** * matrixmessageprocessor.ts                                          *)
(* ===================================================================== *)

Module MatrixMessageProcessor.

Definition MIN_NAME_LENGTH : nat := 2.
Definition MAX_NAME_LENGTH : nat := 32.
Definition MATRIX_TO_LINK : jsstring := js "https://matrix.to/#/".

(** [MatrixMessageProcessorOpts]: both options default to [true]. *)
Record MatrixMessageProcessorOpts := {
  disableEveryone : bool;
  disableHere : bool
}.

Definition defaultOpts : MatrixMessageProcessorOpts :=
  {| disableEveryone := true; disableHere := true |}.

Record IMatrixMessage := {
  body : jsstring;
  formatted_body : option jsstring;
  msgtype : jsstring
}.

(** The third argument of [FormatMessage]; only [displayname] is read. *)
Record Profile := { displayname : option jsstring }.

(** The part of a [Discord.Guild] the processor consults. *)
Record GuildMember := { member_id : jsstring }.
Record GuildChannel := { channel_id : jsstring }.
Record Emoji := { emoji_id : jsstring; emoji_name : jsstring; animated : bool }.
Record Guild := {
  members : gmap jsstring GuildMember;
  channels : gmap jsstring GuildChannel;
  emojis : list Emoji
}.

(** [DbEmoji] as returned by [bot.GetEmojiByMxc]. *)
Record DbEmoji := { EmojiId : jsstring }.

(** Nodes of node-html-parser. *)
Inductive Node :=
| TextNode (text : jsstring)
| HTMLElement (tagName : jsstring) (attributes : list (jsstring * jsstring))
    (childNodes : list Node)
| OtherNode.

(** [attrs.name]: [undefined] when the attribute is absent. *)
Fixpoint attr (attrs : list (jsstring * jsstring)) (name : jsstring) : option jsstring :=
  match attrs with
  | [] => None
  | (k, v) :: rest => if eqb k name then Some v else attr rest name
  end.

(** The code unit the source inserts after [@]: U+200A (the bytes E2 80
    8A of the source file). *)
Definition SEPARATOR : N := 8202.

Definition escapeChars : list jsstring :=
  [js "\"; js "*"; js "_"; js "~"; js "`"].

(** [new RegExp("\\" + char, "g")]: the escaped character, literally. *)
Definition escapedLiteral (char : jsstring) : jsstring := char.

Definition escapeDiscord (opts : MatrixMessageProcessorOpts) (msg : jsstring) : jsstring :=
  let msg :=
    if disableEveryone opts
    then replace_g msg (js "@everyone") (js "@" ++ [SEPARATOR] ++ js "everyone")
    else msg in
  let msg :=
    if disableHere opts
    then replace_g msg (js "@here") (js "@" ++ [SEPARATOR] ++ js "here")
    else msg in
  let msg := replace_g msg (js "@room") (js "@here") in
  fold_left
    (fun msg char => replace_g msg (escapedLiteral char) (js "\" ++ char))
    escapeChars msg.

(** [text[0] !== "\n"] then prefix a newline. *)
Definition ensureLeadingNewline (text : jsstring) : jsstring :=
  match text with
  | 10 :: _ => text
  | _ => 10 :: text
  end.

(** [text.match] of the pattern: start of input, the letters <code in
    any case, a group of code units other than >, then >.  Returns the
    whole match and the group. *)
Definition matchCodeOpen (text : jsstring) : option (jsstring * jsstring) :=
  if startsWith_i text (js "<code") then
    let rest := drop 5 text in
    let group := takeWhile (fun c => negb (c =? 62)) rest in
    match drop (length group) rest with
    | 62 :: _ => Some (take (5 + length group + 1) text, group)
    | _ => None
    end
  else None.

(** [text.replace(/<\/code>$/i, "")] *)
Definition stripCodeClose (text : jsstring) : jsstring :=
  if startsWith_i (rev text) (rev (js "</code>"))
  then take (length text - 7) text
  else text.

(** [s.match] of language- (any case) followed by a group of word
    characters: the group of the leftmost match. *)
Fixpoint matchLanguage (s : jsstring) : option jsstring :=
  if startsWith_i s (js "language-") then Some (takeWhile isWord (drop 9 s))
  else match s with
       | [] => None
       | _ :: s' => matchLanguage s'
       end.

Definition parsePreContent (text : jsstring) : jsstring :=
  match matchCodeOpen text with
  | None => ensureLeadingNewline text
  | Some (whole, group) =>
      let text := drop (length whole) text in
      let text := stripCodeClose text in
      let text := ensureLeadingNewline text in
      match matchLanguage group with
      | Some language => language ++ text
      | None => text
      end
  end.

(** [id.match(USER_REGEX)]: start of input, the literal @_discord_, then
    a group of digits (possibly none).  Returns the group. *)
Definition matchUser (id : jsstring) : option jsstring :=
  if startsWith id (js "@_discord_")
  then Some (takeWhile isDigit (drop 10 id))
  else None.

Definition parseUser (guild : Guild) (id : jsstring) : jsstring :=
  match matchUser id with
  | None => []
  | Some m1 =>
      match members guild !! m1 with
      | None => []
      | Some _ => js "<@" ++ m1 ++ js ">"
      end
  end.

(** [id.match(CHANNEL_REGEX)]: start of input, the literal #_discord_,
    digits, an underscore, then a group of digits.  Returns the group. *)
Definition matchChannel (id : jsstring) : option jsstring :=
  if startsWith id (js "#_discord_") then
    let rest := drop 10 id in
    match drop (length (takeWhile isDigit rest)) rest with
    | 95 :: rest' => Some (takeWhile isDigit rest')
    | _ => None
    end
  else None.

Definition parseChannel (guild : Guild) (id : jsstring) : jsstring :=
  match matchChannel id with
  | None => MATRIX_TO_LINK ++ id
  | Some m1 =>
      match channels guild !! m1 with
      | None => MATRIX_TO_LINK ++ id
      | Some _ => js "<#" ++ m1 ++ js ">"
      end
  end.

(** [name.match(EMOTE_NAME_REGEX)]: an optional colon, a non-empty group
    of word characters, an optional colon.  Returns the group. *)
Definition matchEmoteName (name : jsstring) : option jsstring :=
  let rest := match name with 58 :: r => r | _ => name end in
  match takeWhile isWord rest with
  | [] => None
  | w => Some w
  end.

(** [guild.emojis.find(pred)] *)
Definition findEmoji (guild : Guild) (pred : Emoji -> bool) : option Emoji :=
  List.find pred (emojis guild).

Section Processor.

(** [bot.GetEmojiByMxc]; [None] when the promise rejects. *)
Variable GetEmojiByMxc : jsstring -> option DbEmoji.
(** [Parser.parse] of node-html-parser, and the [text] getter of an
    element. *)
Variable parse : jsstring -> Node.
Variable elementText : Node -> jsstring.

Variable opts : MatrixMessageProcessorOpts.

Definition walkChildNodesWith (walkNode : Node -> jsstring) (children : list Node)
  : jsstring :=
  fold_left (fun reply child => reply ++ walkNode child) children [].

Definition parsePillContent (guild : Guild) (walkChildNodes : jsstring)
    (attrs : list (jsstring * jsstring)) : jsstring :=
  match attr attrs (js "href") with
  | Some href =>
      if truthy (Some href) && startsWith href MATRIX_TO_LINK then
        let id := replace_first href MATRIX_TO_LINK [] in
        let reply :=
          match id with
          | 64 :: _ => parseUser guild id
          | 35 :: _ => parseChannel guild id
          | _ => []
          end in
        match reply with
        | [] => walkChildNodes
        | _ => reply
        end
      else walkChildNodes
  | None => walkChildNodes
  end.

Definition parseImageContent (guild : Guild) (attrs : list (jsstring * jsstring))
  : jsstring :=
  let name :=
    match orElse (orElse (attr attrs (js "alt")) (attr attrs (js "title"))) (Some []) with
    | Some n => n
    | None => []
    end in
  let emoji :=
    match attr attrs (js "src") with
    | Some src =>
        if truthy (Some src) then
          match GetEmojiByMxc src with
          | Some emojiDb => findEmoji guild (fun e => eqb (emoji_id e) (EmojiId emojiDb))
          | None => None
          end
        else None
    | None => None
    end in
  let emoji :=
    match emoji with
    | Some e => Some e
    | None =>
        match matchEmoteName name with
        | Some emojiName => findEmoji guild (fun e => eqb (emoji_name e) emojiName)
        | None => None
        end
    end in
  match emoji with
  | None => escapeDiscord opts name
  | Some e =>
      js "<" ++ (if animated e then js "a" else []) ++ js ":" ++ emoji_name e
        ++ js ":" ++ emoji_id e ++ js ">"
  end.

Fixpoint walkNode (guild : Guild) (node : Node) {struct node} : jsstring :=
  match node with
  | TextNode text => escapeDiscord opts text
  | HTMLElement tagName attrs children =>
      let walkChildNodes :=
        (fix walk (l : list Node) (reply : jsstring) {struct l} : jsstring :=
           match l with
           | [] => reply
           | child :: l' => walk l' (reply ++ walkNode guild child)
           end) children [] in
      if eqb tagName (js "em") || eqb tagName (js "i") then
        js "*" ++ walkChildNodes ++ js "*"
      else if eqb tagName (js "strong") || eqb tagName (js "b") then
        js "**" ++ walkChildNodes ++ js "**"
      else if eqb tagName (js "u") then
        js "__" ++ walkChildNodes ++ js "__"
      else if eqb tagName (js "del") then
        js "~~" ++ walkChildNodes ++ js "~~"
      else if eqb tagName (js "code") then
        js "`" ++ elementText node ++ js "`"
      else if eqb tagName (js "pre") then
        js "```" ++ parsePreContent (elementText node) ++ js "```"
      else if eqb tagName (js "a") then
        parsePillContent guild walkChildNodes attrs
      else if eqb tagName (js "img") then
        parseImageContent guild attrs
      else if eqb tagName (js "br") then
        [10]
      else walkChildNodes
  | OtherNode => []
  end.

Definition walkChildNodes (guild : Guild) (node : Node) : jsstring :=
  match node with
  | HTMLElement _ _ children =>
      fold_left (fun reply child => reply ++ walkNode guild child) children []
  | _ => []
  end.

Definition FormatMessage (msg : IMatrixMessage) (guild : Guild)
    (profile : option Profile) : jsstring :=
  let reply :=
    if truthy (formatted_body msg) then
      match formatted_body msg with
      | Some fb => walkNode guild (parse (js "<div>" ++ fb ++ js "</div>"))
      | None => []
      end
    else escapeDiscord opts (body msg) in
  if eqb (msgtype msg) (js "m.emote") then
    match profile with
    | Some p =>
        match displayname p with
        | Some name =>
            if truthy (Some name)
               && bool_decide (MIN_NAME_LENGTH <= length name)%nat
               && bool_decide (length name <= MAX_NAME_LENGTH)%nat
            then js "_" ++ name ++ js " " ++ reply ++ js "_"
            else js "_" ++ reply ++ js "_"
        | None => js "_" ++ reply ++ js "_"
        end
    | None => js "_" ++ reply ++ js "_"
    end
  else reply.

End Processor.

End MatrixMessageProcessor.

Import MatrixMessageProcessor.

(** ** Removal of the destination markup *)

(** The characters that the destination markup reserves: the backslash,
    the star, the underscore, the tilde and the backtick. *)
Definition isEscapeChar (c : N) : bool :=
  (c =? 92) || (c =? 42) || (c =? 95) || (c =? 126) || (c =? 96).

(** Escaping exactly the reserved characters, each one once. *)
Definition escapeChar (c : N) : jsstring :=
  if isEscapeChar c then [92; c] else [c].

Definition escapeMarkdown (s : jsstring) : jsstring := flat_map escapeChar s.

(** Removing the escapes: a backslash in front of a reserved character
    is dropped and the character kept. *)
Fixpoint unescapeMarkdown (s : jsstring) : jsstring :=
  match s with
  | [] => []
  | b :: s' =>
      match s' with
      | c :: rest =>
          if (b =? 92) && isEscapeChar c
          then c :: unescapeMarkdown rest
          else b :: unescapeMarkdown s'
      | [] => [b]
      end
  end.

(** How many reserved characters a string holds. *)
Definition countEscapeChars (s : jsstring) : nat :=
  length (filter (fun c => isEscapeChar c = true) s).

(** The three mention passes of [escapeDiscord], named. *)
Definition defuseEveryone (opts : MatrixMessageProcessorOpts) (s : jsstring) : jsstring :=
  if disableEveryone opts
  then replace_g s (js "@everyone") (js "@" ++ [SEPARATOR] ++ js "everyone")
  else s.

Definition defuseHere (opts : MatrixMessageProcessorOpts) (s : jsstring) : jsstring :=
  if disableHere opts
  then replace_g s (js "@here") (js "@" ++ [SEPARATOR] ++ js "here")
  else s.

Definition roomToHere (s : jsstring) : jsstring :=
  replace_g s (js "@room") (js "@here").

(** A plain-text message: a body and no (or an empty) formatted body. *)
Definition isPlain (msg : IMatrixMessage) : Prop :=
  truthy (formatted_body msg) = false.

(** No code unit of [w] is the at sign. *)
Definition noAt (w : jsstring) : bool := forallb (fun c => negb (c =? 64)) w.

(** No code unit of [w] is reserved by the markup. *)
Definition noEscapeChar (w : jsstring) : bool :=
  forallb (fun c => negb (isEscapeChar c)) w.


(* ===================================================================== *)
(** * Asynchronous programs                                              *)
(* ===================================================================== *)

(** An [async] function is a tree of the calls it awaits.  [Await] hands
    the settled promise (fulfilled or rejected) to the continuation;
    [Fork] starts a promise chain that the enclosing function neither
    returns nor awaits; [Get] and [Put] read and write the fields of
    [this] between two awaits; [Diverge] stands for a recursion that
    did not return within its budget. *)

Module Async.

Definition Error := jsstring.

Inductive result (X : Type) : Type :=
| Ok (x : X)
| Err (e : Error).
Arguments Ok {X} x.
Arguments Err {X} e.

Section Programs.

Context {E : Type -> Type} {S : Type}.

Inductive Prog (A : Type) : Type :=
| Ret (a : A)
| Throw (e : Error)
| Diverge
| Await {X : Type} (call : E X) (k : result X -> Prog A)
| Get (k : S -> Prog A)
| Put (s : S) (k : Prog A)
| Fork (child : Prog unit) (k : Prog A).

Arguments Ret {A} a.
Arguments Throw {A} e.
Arguments Diverge {A}.
Arguments Await {A X} call k.
Arguments Get {A} k.
Arguments Put {A} s k.
Arguments Fork {A} child k.

Fixpoint bind {A B : Type} (p : Prog A) (f : A -> Prog B) : Prog B :=
  match p with
  | Ret a => f a
  | Throw e => Throw e
  | Diverge => Diverge
  | Await call k => Await call (fun r => bind (k r) f)
  | Get k => Get (fun s => bind (k s) f)
  | Put s k => Put s (bind k f)
  | Fork child k => Fork child (bind k f)
  end.

(** [await call]: a rejected promise is rethrown. *)
Definition await {X : Type} (call : E X) : Prog X :=
  Await call (fun r => match r with Ok x => Ret x | Err e => Throw e end).

(** [try { p } catch (ex) { handler(ex) }] *)
Fixpoint try_catch {A : Type} (p : Prog A) (handler : Error -> Prog A) : Prog A :=
  match p with
  | Ret a => Ret a
  | Throw e => handler e
  | Diverge => Diverge
  | Await call k => Await call (fun r => try_catch (k r) handler)
  | Get k => Get (fun s => try_catch (k s) handler)
  | Put s k => Put s (try_catch k handler)
  | Fork child k => Fork child (try_catch k handler)
  end.

(** ** Running one function against an environment *)

(** What a call of an [async] function comes to. *)
Inductive outcome (A : Type) : Type :=
| Returned (a : A)
| Raised (e : Error)
| NoReturn.
Arguments Returned {A} a.
Arguments Raised {A} e.
Arguments NoReturn {A}.

(** One awaited call, as the environment sees it. *)
Inductive Called : Type :=
| called {X : Type} (call : E X).

Record Run (A W : Type) : Type := {
  run_outcome : outcome A;
  run_this : S;
  run_world : W;
  run_calls : list Called;
  run_forked : list (Prog unit)
}.
Arguments run_outcome {A W} r.
Arguments run_this {A W} r.
Arguments run_world {A W} r.
Arguments run_calls {A W} r.
Arguments run_forked {A W} r.

(** The environment answers every call, possibly changing its own
    state [W]. *)
Definition Env (W : Type) : Type := forall X : Type, E X -> W -> result X * W.

Fixpoint exec {A W : Type} (env : Env W) (p : Prog A) (this : S) (w : W)
    (calls : list Called) (forked : list (Prog unit)) : Run A W :=
  match p with
  | Ret a => Build_Run A W (Returned a) this w calls forked
  | Throw e => Build_Run A W (Raised e) this w calls forked
  | Diverge => Build_Run A W NoReturn this w calls forked
  | Await call k =>
      let '(r, w') := env _ call w in
      exec env (k r) this w' (calls ++ [called call]) forked
  | Get k => exec env (k this) this w calls forked
  | Put s k => exec env k s w calls forked
  | Fork child k => exec env k this w calls (forked ++ [child])
  end.

Definition run {A W : Type} (env : Env W) (p : Prog A) (this : S) (w : W) : Run A W :=
  exec env p this w [] [].

(** ** What a function may do, read off its tree *)

(** Every leaf is a return or a throw: the function settles whatever
    the environment answers. *)
Fixpoint settles {A : Type} (p : Prog A) : Prop :=
  match p with
  | Ret _ => True
  | Throw _ => True
  | Diverge => False
  | Await _ k => forall r, settles (k r)
  | Get k => forall s, settles (k s)
  | Put _ k => settles k
  | Fork child k => settles child /\ settles k
  end.

(** Along every path, at most [n] of the calls satisfy [P], and those
    that do satisfy [Q]. *)
Fixpoint callsAtMost {A : Type} (P : Called -> bool) (Q : Called -> Prop) (n : nat)
    (p : Prog A) : Prop :=
  match p with
  | Ret _ => True
  | Throw _ => True
  | Diverge => True
  | Await call k =>
      if P (called call)
      then Q (called call)
           /\ match n with
              | O => False
              | Datatypes.S n' => forall r, callsAtMost P Q n' (k r)
              end
      else forall r, callsAtMost P Q n (k r)
  | Get k => forall s, callsAtMost P Q n (k s)
  | Put _ k => callsAtMost P Q n k
  | Fork child k => callsAtMost P Q O child /\ callsAtMost P Q n k
  end.

End Programs.

Arguments Prog E S A : clear implicits.
Arguments Called E : clear implicits.
Arguments Env E W : clear implicits.
Arguments Ret {E S A} a.
Arguments Throw {E S A} e.
Arguments Diverge {E S A}.
Arguments Await {E S A X} call k.
Arguments Get {E S A} k.
Arguments Put {E S A} s k.
Arguments Fork {E S A} child k.
Arguments Returned {A} a.
Arguments Raised {A} e.
Arguments NoReturn {A}.
Arguments called {E X} call.
Arguments Build_Run {E S A W} _ _ _ _ _.
Arguments run_outcome {E S A W} r.
Arguments run_this {E S A W} r.
Arguments run_world {E S A W} r.
Arguments run_calls {E S A W} r.
Arguments run_forked {E S A W} r.

Declare Scope prog_scope.
Delimit Scope prog_scope with prog.
Notation "'let*' x ':=' p 'in' q" := (bind p (fun x => q))
  (at level 10, x name, p at level 100, q at level 200) : prog_scope.

End Async.

Import Async.
Local Open Scope prog_scope.

(* ===================================================================== *)
(** * matrixeventprocessor.ts                                            *)
(* ===================================================================== *)

Module MatrixEventProcessor.

Definition MaxFileSize : Z := 8000000.
Definition MIN_NAME_LENGTH : nat := 2.
Definition MAX_NAME_LENGTH : nat := 32.
Definition DISCORD_AVATAR_WIDTH : Z := 128.
Definition DISCORD_AVATAR_HEIGHT : Z := 128.

Record Info := { size : option Z; mimetype : option jsstring }.

Record InReplyTo := { reply_event_id : jsstring }.
Record RelatesTo := { m_in_reply_to : option InReplyTo }.

Record IMatrixEventContent := {
  c_body : option jsstring;
  c_msgtype : option jsstring;
  c_url : option jsstring;
  c_info : option Info;
  m_relates_to : option RelatesTo
}.

(** [{}] *)
Definition emptyContent : IMatrixEventContent :=
  {| c_body := None; c_msgtype := None; c_url := None; c_info := None;
     m_relates_to := None |}.

(** [event.content.info = {size: 0}] for a content without [info]. *)
Definition withInfo (content : IMatrixEventContent) : IMatrixEventContent :=
  {| c_body := c_body content; c_msgtype := c_msgtype content;
     c_url := c_url content;
     c_info := Some (default {| size := Some 0%Z; mimetype := None |} (c_info content));
     m_relates_to := m_relates_to content |}.

(** [content.info.size || 0] *)
Definition declaredSize (content : IMatrixEventContent) : Z :=
  match c_info content with
  | Some i => default 0%Z (size i)
  | None => 0%Z
  end.

Record IMatrixEvent := {
  event_id : jsstring;
  room_id : jsstring;
  sender : jsstring;
  type : jsstring;
  content : option IMatrixEventContent;
  origin_server_ts : Z
}.

(** [event.content], or [{}] where the source installs it. *)
Definition contentOf (event : IMatrixEvent) : IMatrixEventContent :=
  default emptyContent (content event).

(** The event that the reply relation of [event] names, if any. *)
Definition replyTarget (event : IMatrixEvent) : option jsstring :=
  match m_relates_to (contentOf event) with
  | Some {| m_in_reply_to := Some {| reply_event_id := eventId |} |} => Some eventId
  | _ => None
  end.

Record ProfileInfo := {
  p_displayname : option jsstring;
  p_avatar_url : option jsstring
}.

Record IMatrixMessageProcessorParams := {
  roomId : jsstring;
  userId : jsstring;
  params_displayname : option jsstring
}.

Record TextChannel := { channelId : jsstring; guild : Guild }.

Record Author := {
  name : jsstring;
  icon_url : option jsstring;
  author_url : option jsstring
}.

(** [Discord.RichEmbed], as the data its setters store. *)
Record RichEmbed := {
  description : option jsstring;
  author : option Author;
  fields : list (jsstring * jsstring);
  timestamp : option Z;
  image : option jsstring
}.

(** [new Discord.RichEmbed()] *)
Definition newRichEmbed : RichEmbed :=
  {| description := None; author := None; fields := []; timestamp := None;
     image := None |}.

Definition setDescription (e : RichEmbed) (d : jsstring) : RichEmbed :=
  {| description := Some d; author := author e; fields := fields e;
     timestamp := timestamp e; image := image e |}.
Definition setAuthor (e : RichEmbed) (n : jsstring) (icon url : option jsstring)
  : RichEmbed :=
  {| description := description e;
     author := Some {| name := n; icon_url := icon; author_url := url |};
     fields := fields e; timestamp := timestamp e; image := image e |}.
Definition addField (e : RichEmbed) (n v : jsstring) : RichEmbed :=
  {| description := description e; author := author e;
     fields := fields e ++ [(n, v)]; timestamp := timestamp e; image := image e |}.
Definition setFields (e : RichEmbed) (fs : list (jsstring * jsstring)) : RichEmbed :=
  {| description := description e; author := author e; fields := fs;
     timestamp := timestamp e; image := image e |}.
Definition setTimestamp (e : RichEmbed) (t : Z) : RichEmbed :=
  {| description := description e; author := author e; fields := fields e;
     timestamp := Some t; image := image e |}.
Definition setImage (e : RichEmbed) (u : jsstring) : RichEmbed :=
  {| description := description e; author := author e; fields := fields e;
     timestamp := timestamp e; image := Some u |}.

(** [embed.description += s] *)
Definition appendDescription (e : RichEmbed) (s : jsstring) : RichEmbed :=
  setDescription e
    (match description e with Some d => d | None => js "undefined" end ++ s).

Record IMatrixEventProcessorResult := {
  messageEmbed : RichEmbed;
  replyEmbed : option RichEmbed
}.

(** [Buffer]: only [byteLength] is read. *)
Record Buffer := { byteLength : Z; bytes_of : jsstring }.

(** [string | Discord.FileOptions] *)
Inductive Attachment :=
| Text (s : jsstring)
| FileOptions (attachment : Buffer) (file_name : jsstring).

Inductive UserOrMember :=
| User (username : jsstring) (avatarURL : option jsstring)
| GuildMemberOf (displayName : jsstring) (user_avatarURL : option jsstring)
| NeitherUserNorMember.

(** The calls the event processor awaits, or makes on objects whose code
    is outside this file. *)
Inductive Call : Type -> Type :=
| intent_getEvent (roomId eventId : jsstring) : Call IMatrixEvent
| mxClient_getStateEvent (roomId type stateKey : jsstring) : Call (option ProfileInfo)
| intent_getProfileInfo (userId : jsstring) : Call (option ProfileInfo)
| mxUserProfileCache_get (key : jsstring) : Call (option ProfileInfo)
| mxUserProfileCache_set (key : jsstring) (v : ProfileInfo) : Call unit
| discord_GetDiscordUserOrMember (id : jsstring) : Call UserOrMember
| matrixMsgProcessor_FormatMessage (msg : option IMatrixEventContent) (g : Guild)
    (params : IMatrixMessageProcessorParams) : Call jsstring
| Util_DownloadFile (url : jsstring) : Call Buffer.

Abbreviation Async := (Prog Call unit).



Section Processor.

(** Synchronous functions of the libraries. *)
Variable isRemoteUser : jsstring -> bool.
(** [new MatrixUser(id).localpart] *)
Variable localpart : jsstring -> jsstring.
Variable mxcUrlToHttp : option jsstring -> jsstring.
Variable mxcUrlToHttpSized : option jsstring -> Z -> Z -> jsstring.
Variable path_extname : jsstring -> jsstring.
Variable path_basename : jsstring -> jsstring.
(** [mime.extension(t)], as it prints in a template. *)
Variable mime_extension : option jsstring -> jsstring.

Definition TypeError : Error := js "TypeError".

Definition GetUserProfileForRoom (roomId userId : jsstring) : Async (option ProfileInfo) :=
  try_catch
    (let* profile := await (mxUserProfileCache_get (roomId ++ js ":" ++ userId)) in
     match profile with
     | Some pr => Ret (Some pr)
     | None =>
         let* profile := await (mxClient_getStateEvent roomId (js "m.room.member") userId) in
         match profile with
         | Some pr =>
             let* _ := await (mxUserProfileCache_set (roomId ++ js ":" ++ userId) pr) in
             Ret (Some pr)
         | None =>
             let* profile := await (mxUserProfileCache_get userId) in
             match profile with
             | Some pr => Ret (Some pr)
             | None =>
                 let* profile := await (intent_getProfileInfo userId) in
                 match profile with
                 | Some pr =>
                     let* _ := await (mxUserProfileCache_set userId pr) in
                     Ret (Some pr)
                 | None => Ret None
                 end
             end
         end
     end)
    (fun _ => Ret None).

Definition HasAttachment (event : IMatrixEvent) : bool :=
  let content := contentOf event in
  match c_msgtype content with
  | Some t =>
      eqb t (js "m.image") || eqb t (js "m.audio") || eqb t (js "m.video")
      || eqb t (js "m.file") || eqb t (js "m.sticker")
  | None => false
  end
  || eqb (type event) (js "m.sticker").

Definition SetEmbedAuthor (embed : RichEmbed) (sender : jsstring)
    (profile : option ProfileInfo) : Async RichEmbed :=
  let finish :=
    let displayName :=
      match profile with
      | Some pr =>
          match p_displayname pr with
          | Some n =>
              if truthy (Some n)
                 && bool_decide (MIN_NAME_LENGTH <= length n)%nat
                 && bool_decide (length n <= MAX_NAME_LENGTH)%nat
              then n else sender
          | None => sender
          end
      | None => sender
      end in
    let avatarUrl :=
      match profile with
      | Some pr =>
          if truthy (p_avatar_url pr)
          then Some (mxcUrlToHttpSized (p_avatar_url pr)
                       DISCORD_AVATAR_WIDTH DISCORD_AVATAR_HEIGHT)
          else None
      | None => None
      end in
    Ret (setAuthor embed (take MAX_NAME_LENGTH displayName) avatarUrl
           (Some (js "https://matrix.to/#/" ++ sender))) in
  if isRemoteUser sender then
    let lp := localpart (replace_first sender (js "@") []) in
    let* userOrMember :=
      await (discord_GetDiscordUserOrMember (drop (length (js "_discord")) lp)) in
    match userOrMember with
    | User username avatarURL => Ret (setAuthor embed username avatarURL None)
    | GuildMemberOf displayName avatarURL =>
        Ret (setAuthor embed displayName avatarURL None)
    | NeitherUserNorMember => finish
    end
  else finish.

(** Throws where the source reads [content.info.mimetype] of a content
    without [info]. *)
Definition GetFilenameForMediaEvent (content : IMatrixEventContent) : Async jsstring :=
  let ext :=
    match c_info content with
    | Some i => Ret (mime_extension (mimetype i))
    | None => Throw TypeError
    end in
  match c_body content with
  | Some (c :: b) =>
      let body := c :: b in
      if negb (eqb (path_extname body) [])
      then Ret body
      else let* e := ext in Ret (path_basename body ++ js "." ++ e)
  | _ => let* e := ext in Ret (js "matrix-media." ++ e)
  end.

Definition HandleAttachment (event : IMatrixEvent) : Async Attachment :=
  if negb (HasAttachment event) then Ret (Text [])
  else
    let content := withInfo (contentOf event) in
    if negb (truthy (c_url content)) then Ret (Text [])
    else
      let size := declaredSize content in
      let url := mxcUrlToHttp (c_url content) in
      let* name := GetFilenameForMediaEvent content in
      let link := Ret (Text (js "[" ++ name ++ js "](" ++ url ++ js ")")) in
      if (size <? MaxFileSize)%Z then
        let* attachment := await (Util_DownloadFile url) in
        let size := byteLength attachment in
        if (size <? MaxFileSize)%Z
        then Ret (FileOptions attachment name)
        else link
      else link.

(** The loop of [EventToEmbed] over [replyEmbed.fields]: the first field
    named ping is moved into the description of the message. *)
Fixpoint movePing (fs : list (jsstring * jsstring))
  : option (jsstring * list (jsstring * jsstring)) :=
  match fs with
  | [] => None
  | (n, v) :: rest =>
      if eqb n (js "ping") then Some (v, rest)
      else match movePing rest with
           | Some (v', rest') => Some (v', (n, v) :: rest')
           | None => None
           end
  end.

Definition fallbackEmbed : RichEmbed :=
  setAuthor (setDescription newRichEmbed (js "Reply with unknown content"))
    (js "Unknown") None None.

(** [EventToEmbed] and [GetEmbedForReply] call each other; [depth] bounds
    the nesting of these calls. *)
Fixpoint EventToEmbed (depth : nat) (event : IMatrixEvent) (channel : TextChannel)
    (getReply : bool) {struct depth} : Async IMatrixEventProcessorResult :=
  match depth with
  | O => Diverge
  | Datatypes.S depth' =>
      let* profile := GetUserProfileForRoom (room_id event) (sender event) in
      let params :=
        {| roomId := room_id event; userId := sender event;
           params_displayname :=
             match profile with Some pr => p_displayname pr | None => None end |} in
      let* body :=
        if negb (eqb (type event) (js "m.sticker"))
        then await (matrixMsgProcessor_FormatMessage (content event) (guild channel) params)
        else Ret [] in
      let messageEmbed := setDescription newRichEmbed body in
      let* messageEmbed := SetEmbedAuthor messageEmbed (sender event) profile in
      let* replyEmbed :=
        if getReply then GetEmbedForReply depth' event channel else Ret None in
      match replyEmbed with
      | Some re =>
          match movePing (fields re) with
          | Some (value, rest) =>
              Ret {| messageEmbed :=
                       appendDescription messageEmbed
                         ([10] ++ js "(" ++ value ++ js ")");
                     replyEmbed := Some (setFields re rest) |}
          | None => Ret {| messageEmbed := messageEmbed; replyEmbed := Some re |}
          end
      | None => Ret {| messageEmbed := messageEmbed; replyEmbed := None |}
      end
  end

with GetEmbedForReply (depth : nat) (event : IMatrixEvent) (channel : TextChannel)
    {struct depth} : Async (option RichEmbed) :=
  match depth with
  | O => Diverge
  | Datatypes.S depth' =>
      let content := contentOf event in
      match m_relates_to content with
      | Some {| m_in_reply_to := Some {| reply_event_id := eventId |} |} =>
          try_catch
            (let* sourceEvent := await (intent_getEvent (room_id event) eventId) in
             match MatrixEventProcessor.content sourceEvent with
             | None => Throw TypeError
             | Some scontent =>
                 let scontent :=
                   {| c_body :=
                        if truthy (c_body scontent) then c_body scontent
                        else Some (js "Reply with unknown content");
                      c_msgtype := c_msgtype scontent; c_url := c_url scontent;
                      c_info := c_info scontent;
                      m_relates_to := m_relates_to scontent |} in
                 let sourceEvent :=
                   {| event_id := event_id sourceEvent; room_id := room_id sourceEvent;
                      sender := sender sourceEvent; type := type sourceEvent;
                      content := Some scontent;
                      origin_server_ts := origin_server_ts sourceEvent |} in
                 let* res := EventToEmbed depth' sourceEvent channel false in
                 let replyEmbed := messageEmbed res in
                 let replyEmbed :=
                   if isRemoteUser (sender sourceEvent) then
                     let uid :=
                       drop (length (js "_discord"))
                         (localpart (replace_first (sender sourceEvent) (js "@") [])) in
                     addField replyEmbed (js "ping") (js "<@" ++ uid ++ js ">")
                   else replyEmbed in
                 let replyEmbed := setTimestamp replyEmbed (origin_server_ts sourceEvent) in
                 if HasAttachment sourceEvent then
                   let url := mxcUrlToHttp (c_url scontent) in
                   if match c_msgtype scontent with
                      | Some t => eqb t (js "m.image") || eqb t (js "m.sticker")
                      | None => false
                      end
                      || eqb (type sourceEvent) (js "m.sticker")
                   then Ret (Some (setImage replyEmbed url))
                   else
                     let* name := GetFilenameForMediaEvent scontent in
                     Ret (Some (setDescription replyEmbed
                                  (js "[" ++ name ++ js "](" ++ url ++ js ")")))
                 else Ret (Some replyEmbed)
             end)
            (fun _ => Ret (Some fallbackEmbed))
      | _ => Ret None
      end
  end.

End Processor.

End MatrixEventProcessor.

(* ===================================================================== *)
(** * bot.ts                                                             *)
(* ===================================================================== *)

Module DiscordBot.

Record DiscordBridgeConfig := {
  disableDeletionForwarding : bool;
  discordSendDelay : Z
}.

Record DbEvent := {
  MatrixId : jsstring;
  DiscordId : jsstring;
  GuildId : jsstring;
  ChannelId : jsstring
}.

Record MessageAttachment := {
  att_url : jsstring;
  att_filename : jsstring;
  att_filesize : Z;
  att_width : option Z;
  att_height : option Z
}.

(** [Discord.Message] *)
Record Message := {
  msg_id : jsstring;
  msg_author_id : jsstring;
  msg_channel_id : jsstring;
  msg_guild_id : jsstring;
  msg_webhookID : option jsstring;
  msg_content : option jsstring;
  msg_attachments : list MessageAttachment
}.

Record Webhook := { hook_id : jsstring; hook_name : jsstring }.

Record MatrixContent := {
  mc_body : jsstring;
  mc_msgtype : jsstring;
  mc_formatted_body : option jsstring;
  mc_url : option jsstring;
  mc_external_url : option jsstring
}.

Record MessageProcessorMatrixResult := {
  res_body : jsstring;
  res_formattedBody : jsstring
}.

(** A redaction event of the Matrix side. *)
Record RedactEvent := {
  redacts : jsstring;
  redact_room_id : jsstring;
  redact_sender : jsstring
}.

(** The calls of [DiscordBot] on its collaborators. *)
Inductive Call : Type -> Type :=
| store_Get_DbEvent (matrix_id : jsstring) : Call (list DbEvent)
| store_Insert (evt : DbEvent) : Call unit
| LookupRoom (server room : jsstring) (sender : option jsstring) : Call jsstring
| chan_fetchMessage (chan id : jsstring) : Call jsstring
| msg_delete (id : jsstring) : Call unit
| chan_fetchWebhooks (chan : jsstring) : Call (list Webhook)
| provisioner_MarkApproved (chan member : jsstring) (isApproved : bool) : Call bool
| channel_sendMessage (chan text : jsstring) : Call unit
| roomHandler_HandleDiscordCommand (msg : Message) : Call unit
| userSync_OnUpdateUser (author : jsstring) : Call unit
| userSync_EnsureJoin (member room : jsstring) : Call unit
| channelSync_GetRoomIdsFromChannel (chan : jsstring) : Call (list jsstring)
| Util_UploadContentFromUrl (url author filename : jsstring) : Call jsstring
| msgProcessor_FormatDiscordMessage (msg : Message) : Call MessageProcessorMatrixResult
| intent_sendMessage (author room : jsstring) (content : MatrixContent) : Call jsstring.

(** The fields of [this] that the modelled methods read or write.
    [sentMessages] is an array with holes: [delete a[i]] leaves the
    length and empties slot [i]. *)
Record Bot := {
  sentMessages : list (option jsstring);
  discordMessageQueue : gmap jsstring nat
}.

Abbreviation Async := (Prog Call Bot).

(** [a.indexOf(x)]; [None] is [-1].  A hole is never equal to [x]. *)
Fixpoint indexOf (a : list (option jsstring)) (x : jsstring) : option nat :=
  match a with
  | [] => None
  | y :: a' =>
      if bool_decide (y = Some x) then Some O
      else S <$> indexOf a' x
  end.

(** [l.forEach(f)] where [f] starts a promise chain and returns. *)
Definition forEachFork {X : Type} (l : list X) (f : X -> Async unit)
    (k : Async unit) : Async unit :=
  fold_right (fun x rest => Fork (f x) rest) k l.

Section Bot.

Variable config : DiscordBridgeConfig.
(** [this.bot.user.id] *)
Variable botUserId : jsstring.
(** [this.provisioner.HasPendingRequest], a synchronous look-up. *)
Variable HasPendingRequest : jsstring -> bool.

(** The loop that ends [ProcessMatrixMsgEvent]: every message that the
    send returned is recorded and stored. *)
Fixpoint recordSent (event_id room_id guildId channelId : jsstring)
    (msgs : list jsstring) : Async unit :=
  match msgs with
  | [] => Ret tt
  | m :: rest =>
      Get (fun this =>
      Put {| sentMessages := sentMessages this ++ [Some m];
             discordMessageQueue := discordMessageQueue this |}
        (Fork
           (let* _ :=
              await (store_Insert
                       {| MatrixId := event_id ++ js ";" ++ room_id; DiscordId := m;
                          GuildId := guildId; ChannelId := channelId |}) in
            Ret tt)
           (recordSent event_id room_id guildId channelId rest)))
  end.

(** The body of the [while (storeEvent.Next())] loop, once per row. *)
Fixpoint deleteEach (sender : jsstring) (rows : list DbEvent) : Async unit :=
  match rows with
  | [] => Ret tt
  | storeEvent :: rest =>
      let* chan :=
        await (LookupRoom (GuildId storeEvent) (ChannelId storeEvent) (Some sender)) in
      let* msg := await (chan_fetchMessage chan (DiscordId storeEvent)) in
      let* _ := try_catch (await (msg_delete msg)) (fun _ => Ret tt) in
      deleteEach sender rest
  end.

Definition ProcessMatrixRedact (event : RedactEvent) : Async unit :=
  if disableDeletionForwarding config then Ret tt
  else
    let* storeEvent :=
      await (store_Get_DbEvent (redacts event ++ js ";" ++ redact_room_id event)) in
    match storeEvent with
    | [] => Ret tt
    | _ => deleteEach (redact_sender event) storeEvent
    end.

Definition dbEventFor (res room : jsstring) (msg : Message) : DbEvent :=
  {| MatrixId := res ++ js ";" ++ room; DiscordId := msg_id msg;
     ChannelId := msg_channel_id msg; GuildId := msg_guild_id msg |}.

(** [intent.sendMessage(room, c).then(res => store.Insert(evt))] *)
Definition sendAndStore (msg : Message) (room : jsstring) (c : MatrixContent)
  : Async unit :=
  let* res := await (intent_sendMessage (msg_author_id msg) room c) in
  await (store_Insert (dbEventFor res room msg)).

Definition attachmentContent (attachment : MessageAttachment) (mxcUrl : jsstring)
  : MatrixContent :=
  {| mc_body := att_filename attachment;
     mc_msgtype :=
       match att_height attachment with
       | Some h => if (h =? 0)%Z then js "m.file" else js "m.image"
       | None => js "m.file"
       end;
     mc_formatted_body := None;
     mc_url := Some mxcUrl;
     mc_external_url := Some (att_url attachment) |}.

Definition textContent (result : MessageProcessorMatrixResult) : MatrixContent :=
  {| mc_body := res_body result;
     mc_msgtype := js "m.text";
     mc_formatted_body := Some (res_formattedBody result);
     mc_url := None;
     mc_external_url := None |}.

(** The callback of [.then((rooms) => ...)] in [OnMessage]: the uploads
    and the sends are started and not returned. *)
Definition relayToRooms (msg : Message) (rooms : list jsstring) : Async unit :=
  forEachFork (msg_attachments msg)
    (fun attachment =>
       let* content :=
         await (Util_UploadContentFromUrl (att_url attachment) (msg_author_id msg)
                  (att_filename attachment)) in
       forEachFork rooms
         (fun room => sendAndStore msg room (attachmentContent attachment content))
         (Ret tt))
    (match msg_content msg with
     | Some (c :: cs) =>
         Fork
           (let* result := await (msgProcessor_FormatDiscordMessage msg) in
            forEachFork rooms
              (fun room =>
                 try_catch (sendAndStore msg room (textContent result))
                   (fun e =>
                      if negb (eqb e (js "M_FORBIDDEN")) then Ret tt
                      else
                        let* _ := await (userSync_EnsureJoin (msg_author_id msg) room) in
                        sendAndStore msg room (textContent result)))
              (Ret tt))
           (Ret tt)
     | _ => Ret tt
     end).

Definition approvalReply (msg : Message) : Async unit :=
  try_catch
    (let isApproved :=
       bool_decide (msg_content msg = Some (js "!approve")) in
     let* successfullyBridged :=
       await (provisioner_MarkApproved (msg_channel_id msg) (msg_author_id msg)
                isApproved) in
     let say text :=
       Fork (let* _ := await (channel_sendMessage (msg_channel_id msg) text) in Ret tt)
         (Ret tt) in
     if successfullyBridged && isApproved then
       say (js "Thanks for your response! The matrix bridge has been approved")
     else if successfullyBridged && negb isApproved then
       say (js "Thanks for your response! The matrix bridge has been declined")
     else
       say (js "Thanks for your response, however the time for responses has expired - sorry!"))
    (fun err =>
       if eqb err (js "You do not have permission to manage webhooks in this channel")
       then Fork (let* _ := await (channel_sendMessage (msg_channel_id msg) err) in Ret tt)
              (Ret tt)
       else Ret tt).

Definition OnMessage (msg : Message) : Async unit :=
  Get (fun this =>
  let indexOfMsg := indexOf (sentMessages this) (msg_id msg) in
  let chan := msg_channel_id msg in
  match indexOfMsg with
  | Some i =>
      (* Got repeated message, ignoring. *)
      Put {| sentMessages := <[i := None]> (sentMessages this);
             discordMessageQueue := discordMessageQueue this |}
        (Ret tt)
  | None =>
      if eqb (msg_author_id msg) botUserId then Ret tt
      else
        let* ours :=
          match msg_webhookID msg with
          | Some webhookID =>
              let* hooks := await (chan_fetchWebhooks chan) in
              match last (filter (fun h => hook_name h = js "_matrix") hooks) with
              | Some webhook => Ret (eqb webhookID (hook_id webhook))
              | None => Ret false
              end
          | None => Ret false
          end in
        if ours then Ret tt
        else
          if (bool_decide (msg_content msg = Some (js "!approve"))
              || bool_decide (msg_content msg = Some (js "!deny")))
             && HasPendingRequest chan
          then approvalReply msg
          else
            match msg_content msg with
            | None => Throw (js "TypeError")
            | Some content =>
                if startsWith content (js "!matrix") then
                  await (roomHandler_HandleDiscordCommand msg)
                else
                  try_catch
                    (let* _ := await (userSync_OnUpdateUser (msg_author_id msg)) in
                     let* rooms :=
                       try_catch
                         (let* r := await (channelSync_GetRoomIdsFromChannel chan) in
                          Ret (Some r))
                         (fun _ => Ret None) in
                     match rooms with
                     | None => Ret tt
                     | Some rooms => relayToRooms msg rooms
                     end)
                    (fun _ => Ret tt)
            end
  end).

(** The task that the [message] handler chains onto the queue of the
    channel: it first awaits the promise found in the queue, if any. *)
Record QueuedTask := {
  task_awaits : option nat;
  task_body : Async unit
}.

Definition messageTask (this : Bot) (msg : Message) : QueuedTask :=
  {| task_awaits := discordMessageQueue this !! msg_channel_id msg;
     task_body := try_catch (OnMessage msg) (fun _ => Ret tt) |}.

End Bot.

(** ** The event loop around the queue

    The handlers of the bot run one at a time, each until it awaits;
    what happens next is the choice of the environment: a further
    message passes the delay of its handler, a task finds the promise it
    awaits settled, or one of the calls in flight completes. *)

(** A call in flight, the continuation that awaits it, and the queued
    task whose [OnMessage] this continuation belongs to ([None] for a
    promise chain that was started and not awaited). *)
Inductive Pending : Type :=
| pending {X : Type} (owner : option nat) (call : Call X) (k : result X -> Async unit).

Inductive Status :=
| Waiting (body : Async unit)
| Started
| Settled.

Record Task := {
  awaits : option nat;
  status : Status
}.

Record System (W : Type) := {
  sys_this : Bot;
  sys_world : W;
  sys_tasks : list Task;
  sys_pending : list Pending;
  sys_issued : list (Called Call)
}.
Arguments sys_this {W} s.
Arguments sys_world {W} s.
Arguments sys_tasks {W} s.
Arguments sys_pending {W} s.
Arguments sys_issued {W} s.
Arguments Build_System {W} _ _ _ _ _.

Definition isSettled (tasks : list Task) (n : nat) : bool :=
  match tasks !! n with
  | Some {| status := Settled |} => true
  | _ => false
  end.

Definition markSettled (t : Task) : Task :=
  {| awaits := awaits t; status := Settled |}.

Definition markStarted (t : Task) : Task :=
  {| awaits := awaits t; status := Started |}.

Section EventLoop.

Context {W : Type}.
Variable env : Env Call W.
Variable botUserId : jsstring.
Variable HasPendingRequest : jsstring -> bool.

(** The promise of the task settles when its [async] function ends. *)
Definition settle (owner : option nat) (sys : System W) : System W :=
  match owner with
  | Some n =>
      Build_System (sys_this sys) (sys_world sys)
        (alter markSettled n (sys_tasks sys)) (sys_pending sys) (sys_issued sys)
  | None => sys
  end.

(** A function runs until it awaits: the call is made and recorded, and
    its continuation is parked.  A forked chain runs first, up to its
    own first await. *)
Fixpoint advance (owner : option nat) (p : Async unit) (sys : System W)
    {struct p} : System W :=
  match p with
  | Ret _ => settle owner sys
  | Throw _ => settle owner sys
  | Diverge => sys
  | Await call k =>
      Build_System (sys_this sys) (sys_world sys) (sys_tasks sys)
        (sys_pending sys ++ [pending owner call k])
        (sys_issued sys ++ [called call])
  | Get k => advance owner (k (sys_this sys)) sys
  | Put this k =>
      advance owner k
        (Build_System this (sys_world sys) (sys_tasks sys) (sys_pending sys)
           (sys_issued sys))
  | Fork child k => advance owner k (advance None child sys)
  end.

Inductive Choice :=
| Arrive (msg : Message)
| Resume (n : nat)
| Complete (i : nat).

Definition step (c : Choice) (sys : System W) : option (System W) :=
  match c with
  | Arrive msg =>
      (* this.discordMessageQueue[msg.channel.id] = (async () => ...)() *)
      let task := messageTask botUserId HasPendingRequest (sys_this sys) msg in
      let n := length (sys_tasks sys) in
      Some
        (Build_System
           {| sentMessages := sentMessages (sys_this sys);
              discordMessageQueue :=
                <[msg_channel_id msg := n]> (discordMessageQueue (sys_this sys)) |}
           (sys_world sys)
           (sys_tasks sys
              ++ [{| awaits := task_awaits task; status := Waiting (task_body task) |}])
           (sys_pending sys) (sys_issued sys))
  | Resume n =>
      (* await (this.discordMessageQueue[msg.channel.id] || Promise.resolve()) *)
      match sys_tasks sys !! n with
      | Some {| awaits := prev; status := Waiting body |} =>
          if match prev with
             | Some m => isSettled (sys_tasks sys) m
             | None => true
             end
          then
            Some
              (advance (Some n) body
                 (Build_System (sys_this sys) (sys_world sys)
                    (alter markStarted n (sys_tasks sys))
                    (sys_pending sys) (sys_issued sys)))
          else None
      | _ => None
      end
  | Complete i =>
      match sys_pending sys !! i with
      | Some (pending owner call k) =>
          let '(r, w') := env _ call (sys_world sys) in
          Some
            (advance owner (k r)
               (Build_System (sys_this sys) w' (sys_tasks sys)
                  (delete i (sys_pending sys)) (sys_issued sys)))
      | None => None
      end
  end.

Fixpoint schedule (cs : list Choice) (sys : System W) : option (System W) :=
  match cs with
  | [] => Some sys
  | c :: cs' =>
      match step c sys with
      | Some sys' => schedule cs' sys'
      | None => None
      end
  end.

End EventLoop.



(** The bot before any message. *)
Definition boot {W : Type} (w : W) : System W :=
  Build_System {| sentMessages := []; discordMessageQueue := ∅ |} w [] [] [].

(** The rooms and the texts of the [intent.sendMessage] calls, in the
    order in which the calls were made. *)
Definition sendsOf (issued : list (Called Call)) : list (jsstring * jsstring) :=
  omap (fun c =>
          match c with
          | called (intent_sendMessage _ room content) => Some (room, mc_body content)
          | called _ => None
          end) issued.

End DiscordBot.

(* ===================================================================== *)
(** * Escaped text                                                       *)
(* ===================================================================== *)

(** A string in which no reserved character stands unescaped: read from
    the left, every backslash is followed by a reserved character that
    it escapes, and every other code unit is not reserved. *)
Fixpoint wellEscaped (s : jsstring) : bool :=
  match s with
  | [] => true
  | b :: s' =>
      if b =? 92 then
        match s' with
        | c :: rest => isEscapeChar c && wellEscaped rest
        | [] => false
        end
      else negb (isEscapeChar b) && wellEscaped s'
  end.

(** The string does not begin with a code unit of the class [f]. *)
Definition stopsAt (f : N -> bool) (s : jsstring) : bool :=
  match s with
  | [] => true
  | c :: _ => negb (f c)
  end.

(* ===================================================================== *)
(** * What a function returns                                            *)
(* ===================================================================== *)

(** Every value that the function can return satisfies [P], whatever
    the environment answers. *)
Fixpoint returnsOnly {E : Type -> Type} {S A : Type} (P : A -> Prop)
    (p : Prog E S A) : Prop :=
  match p with
  | Ret a => P a
  | Throw _ => True
  | Diverge => True
  | Await _ k => forall r, returnsOnly P (k r)
  | Get k => forall s, returnsOnly P (k s)
  | Put _ k => returnsOnly P k
  | Fork _ k => returnsOnly P k
  end.

(** The function starts no promise chain that it does not await. *)
Fixpoint forksNothing {E : Type -> Type} {S A : Type} (p : Prog E S A) : Prop :=
  match p with
  | Ret _ => True
  | Throw _ => True
  | Diverge => True
  | Await _ k => forall r, forksNothing (k r)
  | Get k => forall s, forksNothing (k s)
  | Put _ k => forksNothing k
  | Fork _ _ => False
  end.

(** The calls of [matrixMsgProcessor.FormatMessage]. *)
Definition isFormatMessage (c : Called MatrixEventProcessor.Call) : bool :=
  match c with
  | called (MatrixEventProcessor.matrixMsgProcessor_FormatMessage _ _ _) => true
  | called _ => false
  end.

(* ===================================================================== *)
(** * Reading the calls of the bot                                       *)
(* ===================================================================== *)

(** The guild, the channel and the sender of the [LookupRoom] calls,
    and the messages of the [msg.delete] calls, in the order in which
    the calls were made. *)
Definition lookupsOf (calls : list (Called DiscordBot.Call))
  : list (jsstring * jsstring * option jsstring) :=
  omap (fun c =>
          match c with
          | called (DiscordBot.LookupRoom server room sender) =>
              Some (server, room, sender)
          | called _ => None
          end) calls.

Definition deletesOf (calls : list (Called DiscordBot.Call)) : list jsstring :=
  omap (fun c =>
          match c with
          | called (DiscordBot.msg_delete id) => Some id
          | called _ => None
          end) calls.

(* ===================================================================== *)
(** * bot.ts: look-ups                                                   *)
(* ===================================================================== *)

Module BotLookups.

Import DiscordBot.

(** [s.split(sep)] for a separator of one code unit. *)
Fixpoint split (s : jsstring) (sep : N) : list jsstring :=
  match s with
  | [] => [[]]
  | c :: s' =>
      if c =? sep then [] :: split s' sep
      else match split s' sep with
           | piece :: rest => (c :: piece) :: rest
           | [] => [[c]]
           end
  end.

(** [id.match(/^\d+$/)] *)
Definition isNumeric (id : jsstring) : bool :=
  match id with
  | [] => false
  | _ => forallb isDigit id
  end.

(** A row of [DbEmoji]; a [Get] without [Result] is [None]. *)
Record DbEmojiRow := {
  EmojiId : jsstring;
  Name : jsstring;
  Animated : bool;
  MxcUrl : jsstring
}.

Record Channel := { chan_id : jsstring; chan_name : jsstring }.

(** A [Discord.Collection]: the entries in insertion order. *)
Definition Collection (V : Type) : Type := list (jsstring * V).

Definition collection_get {V : Type} (c : Collection V) (key : jsstring) : option V :=
  snd <$> List.find (fun kv => eqb (fst kv) key) c.

Record DiscordGuild := {
  guild_id : jsstring;
  guild_channels : Collection Channel
}.

(** A [Discord.Client]. *)
Record Client := {
  client_user_id : jsstring;
  client_guilds : Collection DiscordGuild
}.

Record ChannelLookupResult := {
  lookup_channel : Channel;
  lookup_botUser : bool
}.

(** The optional [sender] of [LookupRoom]: a user id, [undefined] or
    [null]. *)
Inductive Sender :=
| senderId (userId : jsstring)
| senderUndefined
| senderNull.

Inductive Call : Type -> Type :=
| store_Get_DbEmoji (emoji_id : jsstring) : Call (option DbEmojiRow)
| store_Insert_DbEmoji (row : DbEmojiRow) : Call unit
| Util_UploadContentFromUrl (url name : jsstring) : Call jsstring
| clientFactory_getClient (sender : Sender) : Call Client
| store_Get_DbEvent_by_discord_id (discord_id : jsstring) : Call (list DbEvent)
| client_redactEvent (author : jsstring) (roomId eventId : option jsstring) : Call unit.

Abbreviation Async := (Prog Call unit).

Record ThirdpartyResult := {
  alias : jsstring;
  protocol : jsstring;
  fields_guild_id : jsstring;
  fields_channel_name : jsstring;
  fields_channel_id : jsstring
}.

Section Bot.

(** [this.bot] and [this.config.bridge.domain]. *)
Variable bot : Client.
Variable domain : jsstring.
(** [String.prototype.toLowerCase] *)
Variable toLowerCase : jsstring -> jsstring.

Definition ThirdpartySearchForChannels (guildId channelName : jsstring)
  : list ThirdpartyResult :=
  let channelName :=
    if startsWith channelName (js "#") then drop 1 channelName else channelName in
  match collection_get (client_guilds bot) guildId with
  | Some guild =>
      (fun kv : jsstring * Channel =>
         let channel := snd kv in
         {| alias := js "#_discord_" ++ guild_id guild ++ js "_" ++ chan_id channel
                       ++ js ":" ++ domain;
            protocol := js "discord";
            fields_guild_id := guild_id guild;
            fields_channel_name := chan_name channel;
            fields_channel_id := chan_id channel |})
      <$> List.filter
            (fun kv => eqb (toLowerCase (chan_name (snd kv))) (toLowerCase channelName))
            (guild_channels guild)
  | None => []
  end.

(** [LookupRoom] calls itself from its [catch]; [fuel] bounds the
    nesting. *)
Fixpoint LookupRoom (fuel : nat) (server room : jsstring) (sender : Sender)
  : Async ChannelLookupResult :=
  match fuel with
  | O => Diverge
  | S fuel' =>
      let hasSender :=
        match sender with senderNull => false | _ => true end in
      try_catch
        (let* client := await (clientFactory_getClient sender) in
         match collection_get (client_guilds client) server with
         | None => Throw (js "Guild " ++ [34] ++ server ++ [34] ++ js " not found")
         | Some guild =>
             match collection_get (guild_channels guild) room with
             | Some channel =>
                 Ret {| lookup_channel := channel;
                        lookup_botUser :=
                          eqb (client_user_id bot) (client_user_id client) |}
             | None =>
                 Throw (js "Channel " ++ [34] ++ room ++ [34] ++ js " not found")
             end
         end)
        (fun err =>
           if hasSender then LookupRoom fuel' server room senderNull
           else Throw err)
  end.

Definition GetEmoji (name : jsstring) (animated : bool) (id : jsstring)
  : Async jsstring :=
  if negb (isNumeric id) then Throw (js "Non-numerical ID")
  else
    let* dbEmoji := await (store_Get_DbEmoji id) in
    match dbEmoji with
    | Some row => Ret (MxcUrl row)
    | None =>
        let url :=
          js "https://cdn.discordapp.com/emojis/" ++ id
            ++ (if animated then js ".gif" else js ".png") in
        let* mxcUrl := await (Util_UploadContentFromUrl url name) in
        let* _ :=
          await (store_Insert_DbEmoji
                   {| EmojiId := id; Name := name; Animated := animated;
                      MxcUrl := mxcUrl |}) in
        Ret mxcUrl
    end.

(** The body of the [while (storeEvent.Next())] loop of
    [DeleteDiscordMessage], once per row. *)
Fixpoint redactEach (author : jsstring) (rows : list DbEvent) : Async unit :=
  match rows with
  | [] => Ret tt
  | storeEvent :: rest =>
      let matrixIds := split (MatrixId storeEvent) 59 in
      let* _ :=
        await (client_redactEvent author (matrixIds !! 1%nat) (matrixIds !! 0%nat)) in
      redactEach author rest
  end.

Definition DeleteDiscordMessage (msg : Message) : Async unit :=
  let* storeEvent := await (store_Get_DbEvent_by_discord_id (msg_id msg)) in
  match storeEvent with
  | [] => Ret tt
  | _ => redactEach (msg_author_id msg) storeEvent
  end.

End Bot.

(** The pairs of room and event of the [redactEvent] calls, in the
    order of the calls. *)
Definition redactionsOf (calls : list (Called Call))
  : list (option jsstring * option jsstring) :=
  omap (fun c =>
          match c with
          | called (client_redactEvent _ roomId eventId) => Some (roomId, eventId)
          | called _ => None
          end) calls.


Definition isUpload (c : Called Call) : bool :=
  match c with
  | called (Util_UploadContentFromUrl _ _) => true
  | called _ => false
  end.

End BotLookups.

(* ===================================================================== *)
(** * matrixeventprocessor.ts: the events of a room                      *)
(* ===================================================================== *)

Module EventRouting.

Import MatrixEventProcessor.

Definition ROOM_NAME_PARTS : nat := 2.
Definition AGE_LIMIT : Z := 900000.

(** The fields of an event that only [OnEvent] reads, next to those of
    [IMatrixEvent]: [membership] and [reason] are fields of
    [event.content]. *)
Record RoomEvent := {
  base : IMatrixEvent;
  unsigned_age : option Z;
  state_key : jsstring;
  replaces_state : option jsstring;
  membership : option jsstring;
  reason : option jsstring
}.

(** [context.rooms.remote] *)
Record RemoteRoom := { remote_roomId : jsstring }.
Record BridgeContext := { rooms_remote : option RemoteRoom }.

Record ChannelLookupResult := {
  lookup_channel : TextChannel;
  lookup_botUser : bool
}.

(** [Discord.MessageOptions]: only [file] is set. *)
Record MessageOptions := { opts_file : option Attachment }.

Record Notice := {
  notice_body : jsstring;
  notice_msgtype : jsstring;
  notice_status : jsstring
}.

Inductive Call : Type -> Type :=
| processor {X : Type} (call : MatrixEventProcessor.Call X) : Call X
| MetricPeg_requestOutcome (eventId : jsstring) (isRemote : bool) (outcome : jsstring)
  : Call unit
| mxCommandHandler_HandleInvite (event : RoomEvent) : Call unit
| intent_getEvent_state (roomId : jsstring) (eventId : option jsstring) : Call RoomEvent
| discord_HandleMatrixKickBan (roomId stateKey sender membership : jsstring)
    (prevMembership : option jsstring) (reason : option jsstring) : Call unit
| discord_ProcessMatrixRedact (event : RoomEvent) : Call unit
| mxCommandHandler_Process (event : RoomEvent) (context : BridgeContext) : Call unit
| discord_LookupRoom (guildId channelId : option jsstring) (sender : jsstring)
  : Call ChannelLookupResult
| discord_send (embedSet : IMatrixEventProcessorResult) (opts : MessageOptions)
    (roomLookup : ChannelLookupResult) (event : IMatrixEvent) : Call unit
| intent_sendReadReceipt (roomId eventId : jsstring) : Call unit
| intent_sendMessage (roomId : jsstring) (content : Notice) : Call unit
| discord_GetChannelFromRoomId (roomId : jsstring) : Call TextChannel
| channel_send (channel : TextChannel) (text : jsstring) : Call unit
| intent_leave (roomId : jsstring) : Call unit
| roomStore_removeEntriesByMatrixRoomId (roomId : jsstring) : Call unit.

Abbreviation Async := (Prog Call unit).

(** A method of the event processor, run from [OnEvent]: its calls are
    calls of the router. *)
Fixpoint lift {A : Type} (p : MatrixEventProcessor.Async A) : Async A :=
  match p with
  | Ret a => Ret a
  | Throw e => Throw e
  | Diverge => Diverge
  | Await call k => Await (processor call) (fun r => lift (k r))
  | Get k => Get (fun s => lift (k s))
  | Put s k => Put s (lift k)
  | Fork child k => Fork (lift child) (lift k)
  end.

Section Processor.

Variable disableReadReceipts : bool.
(** [this.bridge.getClientFactory()._botUserId] *)
Variable botUserId : jsstring.
Variable isRemoteUser : jsstring -> bool.
Variable localpart : jsstring -> jsstring.
Variable mxcUrlToHttp : option jsstring -> jsstring.
Variable mxcUrlToHttpSized : option jsstring -> Z -> Z -> jsstring.
Variable path_extname : jsstring -> jsstring.
Variable path_basename : jsstring -> jsstring.
Variable mime_extension : option jsstring -> jsstring.

Definition encryptionNotice : Notice :=
  {| notice_body :=
       js "You have turned on encryption in this room, so the service will not bridge any new messages.";
     notice_msgtype := js "m.notice";
     notice_status := js "critical" |}.

(** [sendPromise] is started first and awaited after the notice on the
    Discord side. *)
Definition HandleEncryptionWarning (roomId : jsstring) : Async unit :=
  Await (intent_sendMessage roomId encryptionNotice) (fun sendPromise =>
  let* channel := await (discord_GetChannelFromRoomId roomId) in
  let* _ :=
    await (channel_send channel
             (js "Someone on Matrix has turned on encryption in this room, so the service will not bridge any new messages")) in
  let* _ := match sendPromise with Ok _ => Ret tt | Err e => Throw e end in
  let* _ := await (intent_leave roomId) in
  await (roomStore_removeEntriesByMatrixRoomId roomId)).

Definition sendReadReceipt (event : IMatrixEvent) : Async unit :=
  if negb disableReadReceipts then
    try_catch (await (intent_sendReadReceipt (room_id event) (event_id event)))
      (fun _ => Ret tt)
  else Ret tt.

(** The event as [HandleAttachment] leaves it: [content] is in place,
    and so is [content.info] for an attachment. *)
Definition handled (event : IMatrixEvent) : IMatrixEvent :=
  {| event_id := event_id event; room_id := room_id event; sender := sender event;
     type := type event;
     content :=
       Some (if HasAttachment event then withInfo (contentOf event)
             else contentOf event);
     origin_server_ts := origin_server_ts event |}.

(** [depth] is the budget of [EventToEmbed]. *)
Definition ProcessMsgEvent (depth : nat) (event : IMatrixEvent)
    (guildId channelId : option jsstring) : Async unit :=
  let* roomLookup := await (discord_LookupRoom guildId channelId (sender event)) in
  let chan := lookup_channel roomLookup in
  let* embedSet :=
    lift (EventToEmbed isRemoteUser localpart mxcUrlToHttp mxcUrlToHttpSized
            path_extname path_basename mime_extension depth event chan true) in
  let* file :=
    lift (HandleAttachment mxcUrlToHttp path_extname path_basename mime_extension
            event) in
  let embedSet :=
    match file with
    | Text s =>
        {| messageEmbed := appendDescription (messageEmbed embedSet) (js " " ++ s);
           replyEmbed := replyEmbed embedSet |}
    | FileOptions _ _ => embedSet
    end in
  let opts :=
    match file with
    | Text _ => {| opts_file := None |}
    | FileOptions _ _ => {| opts_file := Some file |}
    end in
  let* _ := await (discord_send embedSet opts roomLookup (handled event)) in
  Fork (try_catch (sendReadReceipt event) (fun _ => Ret tt)) (Ret tt).

Definition ProcessStateEvent (event : RoomEvent) : Async unit := Ret tt.

(** [event.content!.membership]: a [TypeError] without [content]. *)
Definition membershipOf (event : RoomEvent) : Async (option jsstring) :=
  match content (base event) with
  | Some _ => Ret (membership event)
  | None => Throw TypeError
  end.

Definition dropped (event : RoomEvent) : Async unit :=
  await (MetricPeg_requestOutcome (event_id (base event)) false (js "dropped")).

Definition OnEvent (depth : nat) (event : RoomEvent) (context : BridgeContext)
  : Async unit :=
  let type := type (base event) in
  let remote := rooms_remote context in
  if match unsigned_age event with
     | Some age => (AGE_LIMIT <? age)%Z
     | None => false
     end
  then dropped event
  else
    let* isInvite :=
      if eqb type (js "m.room.member") then
        let* m := membershipOf event in
        Ret (bool_decide (m = Some (js "invite")) && eqb (state_key event) botUserId)
      else Ret false in
    if isInvite then await (mxCommandHandler_HandleInvite event)
    else if eqb type (js "m.room.member") && isRemoteUser (state_key event) then
      let* m := membershipOf event in
      match m with
      | Some m =>
          if (eqb m (js "leave") || eqb m (js "ban"))
             && negb (eqb (sender (base event)) (state_key event))
          then
            let* prevMembership :=
              if eqb m (js "leave") then
                let* previous :=
                  await (intent_getEvent_state (room_id (base event))
                           (replaces_state event)) in
                membershipOf previous
              else Ret (Some []) in
            await (discord_HandleMatrixKickBan (room_id (base event)) (state_key event)
                     (sender (base event)) m prevMembership (reason event))
          else Ret tt
      | None => Ret tt
      end
    else if eqb type (js "m.room.member") || eqb type (js "m.room.name")
            || eqb type (js "m.room.topic")
    then ProcessStateEvent event
    else if eqb type (js "m.room.redaction") && bool_decide (remote <> None)
    then await (discord_ProcessMatrixRedact event)
    else if eqb type (js "m.room.message") || eqb type (js "m.sticker") then
      let* isBotCommand :=
        if eqb type (js "m.room.message") then
          match content (base event) with
          | Some c =>
              Ret (truthy (c_body c) && startsWith (default [] (c_body c)) (js "!discord"))
          | None => Throw TypeError
          end
        else Ret false in
      if isBotCommand then await (mxCommandHandler_Process event context)
      else
        match remote with
        | Some remoteRoom =>
            let srvChanPair :=
              take ROOM_NAME_PARTS
                (BotLookups.split (drop (length (js "_discord")) (remote_roomId remoteRoom))
                   95) in
            try_catch
              (ProcessMsgEvent depth (base event) (srvChanPair !! 0%nat)
                 (srvChanPair !! 1%nat))
              (fun _ => Ret tt)
        | None => Ret tt
        end
    else if eqb type (js "m.room.encryption") && bool_decide (remote <> None) then
      try_catch (HandleEncryptionWarning (room_id (base event)))
        (fun err => Throw (js "Failed to handle encrypted room, " ++ err))
    else dropped event.

End Processor.

(** The events that [OnEvent] relays to Discord: a sticker, or a
    message whose body does not begin with [!discord]. *)
Definition relayed (event : RoomEvent) : Prop :=
  type (base event) = js "m.sticker"
  \/ (type (base event) = js "m.room.message"
      /\ exists c, content (base event) = Some c
                   /\ truthy (c_body c) && startsWith (default [] (c_body c)) (js "!discord")
                      = false).

(** The events that are not dropped for their age. *)
Definition recent (event : RoomEvent) : Prop :=
  forall age, unsigned_age event = Some age -> (age <= AGE_LIMIT)%Z.

(** The calls that leave the room or forget its bridge. *)
Definition isLeave (c : Called Call) : bool :=
  match c with
  | called (intent_leave _) => true
  | called (roomStore_removeEntriesByMatrixRoomId _) => true
  | called _ => false
  end.

Definition isReceipt (c : Called Call) : bool :=
  match c with
  | called (intent_sendReadReceipt _ _) => true
  | called _ => false
  end.

End EventRouting.

(* ===================================================================== *)
(** * Sample data                                                        *)
(* ===================================================================== *)

Module Samples.

(** A guild whose directory holds the single member 12345. *)
Definition guild1234 : Guild :=
  {| members := {[ js "12345" := {| member_id := js "12345" |} ]};
     channels := ∅;
     emojis := [] |}.

(** An emoji store that knows no emoji, and a parser and a text getter
    that are never consulted for a plain-text message. *)
Definition noEmoji (mxc : jsstring) : option DbEmoji := None.
Definition noParser (html : jsstring) : Node := OtherNode.
Definition noText (n : Node) : jsstring := [].

Definition plainMessage (text : string) : IMatrixMessage :=
  {| body := js text; formatted_body := None; msgtype := js "m.text" |}.

Definition emoteMessage (text : string) : IMatrixMessage :=
  {| body := js text; formatted_body := None; msgtype := js "m.emote" |}.

(** The anchor of a user pill for the Discord user 789. *)
Definition pill789 : Node :=
  HTMLElement (js "a")
    [(js "href", js "https://matrix.to/#/@_discord_789:localhost")]
    [TextNode (js "TestUsername")].

(** The formatted body of that pill, and a parser that knows this one
    document: the synthetic root, the wrapping [div], the anchor. *)
Definition pillHtml : jsstring :=
  js "<a href=" ++ [34] ++ js "https://matrix.to/#/@_discord_789:localhost" ++ [34]
    ++ js ">TestUsername</a>".

Definition pillParser (html : jsstring) : Node :=
  if eqb html (js "<div>" ++ pillHtml ++ js "</div>")
  then HTMLElement [] [] [HTMLElement (js "div") [] [pill789]]
  else OtherNode.

Definition pillMessage : IMatrixMessage :=
  {| body := js "TestUsername"; formatted_body := Some pillHtml;
     msgtype := js "m.text" |}.

(** Stand-ins for the synchronous library functions. *)
Definition isRemoteUser (userId : jsstring) : bool := startsWith userId (js "@_discord_").
Definition localpart (userId : jsstring) : jsstring :=
  takeWhile (fun c => negb (c =? 58)) userId.
Definition mxcUrlToHttp (mxc : option jsstring) : jsstring :=
  js "https://hs/media/" ++ default [] mxc.
Definition mxcUrlToHttpSized (mxc : option jsstring) (width height : Z) : jsstring :=
  js "https://hs/thumbnail/" ++ default [] mxc.
Definition path_extname (p : jsstring) : jsstring :=
  if includes p (js ".") then js ".ext" else [].
Definition path_basename (p : jsstring) : jsstring := p.
Definition mime_extension (t : option jsstring) : jsstring := js "bin".

Definition room : jsstring := js "!room:hs".
Definition channel : MatrixEventProcessor.TextChannel :=
  {| MatrixEventProcessor.channelId := js "456";
     MatrixEventProcessor.guild := guild1234 |}.

Definition textContentOf (text : string) (inReplyTo : option jsstring)
  : MatrixEventProcessor.IMatrixEventContent :=
  {| MatrixEventProcessor.c_body := Some (js text);
     MatrixEventProcessor.c_msgtype := Some (js "m.text");
     MatrixEventProcessor.c_url := None;
     MatrixEventProcessor.c_info := None;
     MatrixEventProcessor.m_relates_to :=
       match inReplyTo with
       | Some eventId =>
           Some {| MatrixEventProcessor.m_in_reply_to :=
                     Some {| MatrixEventProcessor.reply_event_id := eventId |} |}
       | None => None
       end |}.

(** A message of alice that replies to the event [$1]. *)
Definition replyEvent : MatrixEventProcessor.IMatrixEvent :=
  {| MatrixEventProcessor.event_id := js "$2";
     MatrixEventProcessor.room_id := room;
     MatrixEventProcessor.sender := js "@alice:hs";
     MatrixEventProcessor.type := js "m.room.message";
     MatrixEventProcessor.content := Some (textContentOf "second" (Some (js "$1")));
     MatrixEventProcessor.origin_server_ts := 2000 |}.


Definition smallBuffer : MatrixEventProcessor.Buffer :=
  {| MatrixEventProcessor.byteLength := 100; MatrixEventProcessor.bytes_of := [] |}.

(** An environment in which every event replies to an earlier one (the
    event [e] to the event [e'], and so on without end) when
    [reachable], and in which no event can be fetched otherwise.  The
    message processor is the one of this development. *)
Definition homeserver (reachable : bool) : Env MatrixEventProcessor.Call unit :=
  fun X call w =>
    match call in MatrixEventProcessor.Call X return result X * unit with
    | MatrixEventProcessor.intent_getEvent roomId eventId =>
        (if reachable
         then Ok {| MatrixEventProcessor.event_id := eventId;
                    MatrixEventProcessor.room_id := roomId;
                    MatrixEventProcessor.sender := js "@bob:hs";
                    MatrixEventProcessor.type := js "m.room.message";
                    MatrixEventProcessor.content :=
                      Some (textContentOf "earlier" (Some (eventId ++ js "'")));
                    MatrixEventProcessor.origin_server_ts := 1000 |}
         else Err (js "M_NOT_FOUND"), tt)
    | MatrixEventProcessor.mxClient_getStateEvent _ _ _ => (Ok None, tt)
    | MatrixEventProcessor.intent_getProfileInfo _ => (Ok None, tt)
    | MatrixEventProcessor.mxUserProfileCache_get _ => (Ok None, tt)
    | MatrixEventProcessor.mxUserProfileCache_set _ _ => (Ok tt, tt)
    | MatrixEventProcessor.discord_GetDiscordUserOrMember _ =>
        (Ok MatrixEventProcessor.NeitherUserNorMember, tt)
    | MatrixEventProcessor.matrixMsgProcessor_FormatMessage msg g params =>
        (Ok (escapeDiscord defaultOpts
               (default []
                  (MatrixEventProcessor.c_body
                     (default MatrixEventProcessor.emptyContent msg)))), tt)
    | MatrixEventProcessor.Util_DownloadFile url => (Ok smallBuffer, tt)
    end.

(** The bot of the samples, two messages of one user in one channel,
    and a Discord and a homeserver that answer every call. *)
Definition botUserId : jsstring := js "999".
Definition noPendingRequest (chan : jsstring) : bool := false.

Definition config (disableDeletion : bool) : DiscordBot.DiscordBridgeConfig :=
  {| DiscordBot.disableDeletionForwarding := disableDeletion;
     DiscordBot.discordSendDelay := 750 |}.

Definition message (id text : string) : DiscordBot.Message :=
  {| DiscordBot.msg_id := js id;
     DiscordBot.msg_author_id := js "111";
     DiscordBot.msg_channel_id := js "456";
     DiscordBot.msg_guild_id := js "1234";
     DiscordBot.msg_webhookID := None;
     DiscordBot.msg_content := Some (js text);
     DiscordBot.msg_attachments := [] |}.

Definition redaction : DiscordBot.RedactEvent :=
  {| DiscordBot.redacts := js "$2";
     DiscordBot.redact_room_id := room;
     DiscordBot.redact_sender := js "@alice:hs" |}.

Definition discord : Env DiscordBot.Call unit :=
  fun X call w =>
    match call in DiscordBot.Call X return result X * unit with
    | DiscordBot.store_Get_DbEvent _ => (Ok [], tt)
    | DiscordBot.store_Insert _ => (Ok tt, tt)
    | DiscordBot.LookupRoom _ r _ => (Ok r, tt)
    | DiscordBot.chan_fetchMessage _ id => (Ok id, tt)
    | DiscordBot.msg_delete _ => (Ok tt, tt)
    | DiscordBot.chan_fetchWebhooks _ => (Ok [], tt)
    | DiscordBot.provisioner_MarkApproved _ _ _ => (Ok false, tt)
    | DiscordBot.channel_sendMessage _ _ => (Ok tt, tt)
    | DiscordBot.roomHandler_HandleDiscordCommand _ => (Ok tt, tt)
    | DiscordBot.userSync_OnUpdateUser _ => (Ok tt, tt)
    | DiscordBot.userSync_EnsureJoin _ _ => (Ok tt, tt)
    | DiscordBot.channelSync_GetRoomIdsFromChannel _ => (Ok [room], tt)
    | DiscordBot.Util_UploadContentFromUrl _ _ _ => (Ok (js "mxc://hs/up"), tt)
    | DiscordBot.msgProcessor_FormatDiscordMessage msg =>
        (Ok {| DiscordBot.res_body := default [] (DiscordBot.msg_content msg);
               DiscordBot.res_formattedBody := default [] (DiscordBot.msg_content msg) |},
         tt)
    | DiscordBot.intent_sendMessage _ _ _ => (Ok (js "$sent"), tt)
    end.

End Samples.

(** ** Further sample data *)

Module MoreSamples.

(** A guild with the channel 3333 and the emoji supercake. *)
Definition guildWithChannel : Guild :=
  {| members := ∅;
     channels := {[ js "3333" := {| channel_id := js "3333" |} ]};
     emojis := [ {| emoji_id := js "3333333"; emoji_name := js "supercake";
                    animated := false |} ] |}.

Definition anchor (href : string) (text : string) : Node :=
  HTMLElement (js "a") [(js "href", js href)] [TextNode (js text)].

End MoreSamples.

(** ** Further sample data for the event processor *)

Module ProcessorSamples.

Import MatrixEventProcessor.

Definition aliceProfile : ProfileInfo :=
  {| p_displayname := Some (js "Alice"); p_avatar_url := None |}.

(** A file that a Discord user sent, without [info] and with a body
    that has no extension. *)
Definition fileEvent : IMatrixEvent :=
  {| event_id := js "$1"; room_id := Samples.room; sender := js "@_discord_42:hs";
     type := js "m.room.message";
     content :=
       Some {| c_body := Some (js "notes"); c_msgtype := Some (js "m.file");
               c_url := Some (js "mxc://hs/notes"); c_info := None;
               m_relates_to := None |};
     origin_server_ts := 1000 |}.

(** A text message that a Discord user sent. *)
Definition remoteEvent : IMatrixEvent :=
  {| event_id := js "$1"; room_id := Samples.room; sender := js "@_discord_42:hs";
     type := js "m.room.message";
     content := Some (Samples.textContentOf "earlier" None);
     origin_server_ts := 1000 |}.

Definition stickerEvent : IMatrixEvent :=
  {| event_id := js "$4"; room_id := Samples.room; sender := js "@alice:hs";
     type := js "m.sticker";
     content :=
       Some {| c_body := Some (js "wave"); c_msgtype := None;
               c_url := Some (js "mxc://hs/wave"); c_info := None;
               m_relates_to := None |};
     origin_server_ts := 4000 |}.

(** [new MatrixUser(id).localpart] of matrix-appservice-bridge: the
    part before the colon, without its first character. *)
Definition localpart (userId : jsstring) : jsstring :=
  drop 1 (takeWhile (fun c => negb (c =? 58)) userId).

(** A homeserver that answers every request for an event with [source],
    and whose profile cache holds [cached] under every key. *)
Definition serving (source : IMatrixEvent) (cached : option ProfileInfo)
  : Env Call unit :=
  fun X call w =>
    match call in Call X return result X * unit with
    | intent_getEvent roomId eventId => (Ok source, tt)
    | mxClient_getStateEvent _ _ _ => (Ok None, tt)
    | intent_getProfileInfo _ => (Ok None, tt)
    | mxUserProfileCache_get _ => (Ok cached, tt)
    | mxUserProfileCache_set _ _ => (Ok tt, tt)
    | discord_GetDiscordUserOrMember _ => (Ok NeitherUserNorMember, tt)
    | matrixMsgProcessor_FormatMessage msg g params =>
        (Ok (escapeDiscord defaultOpts
               (default [] (c_body (default emptyContent msg)))), tt)
    | Util_DownloadFile url => (Ok Samples.smallBuffer, tt)
    end.

End ProcessorSamples.

(** ** Further sample data for the bot *)

Module BotSamples.

Import DiscordBot.

Definition row (discordId : string) : DbEvent :=
  {| MatrixId := js "$2;!room:hs"; DiscordId := js discordId;
     GuildId := js "1234"; ChannelId := js "456" |}.

(** A Discord whose store holds two rows for every event, on which
    messages can be looked up ([reachable]) but not deleted. *)
Definition readOnlyDiscord (reachable : bool) : Env Call unit :=
  fun X call w =>
    match call in Call X return result X * unit with
    | store_Get_DbEvent _ => (Ok [row "901"; row "902"], tt)
    | LookupRoom _ r _ => (if reachable then Ok r else Err (js "Channel not found"), tt)
    | msg_delete _ => (Err (js "Missing Permissions"), tt)
    | call => Samples.discord _ call w
    end.

End BotSamples.

(** ** Further sample data for the look-ups *)

Module LookupSamples.

Import DiscordBot BotLookups.

Definition general : Channel := {| chan_id := js "456"; chan_name := js "General" |}.

Definition guild : DiscordGuild :=
  {| guild_id := js "1234"; guild_channels := [(js "456", general)] |}.

(** The client of the bot, which sees the guild 1234, and the client of
    a puppeted user, which sees no guild. *)
Definition botClient : Client :=
  {| client_user_id := js "999"; client_guilds := [(js "1234", guild)] |}.

Definition puppet : Client :=
  {| client_user_id := js "111"; client_guilds := [] |}.

(** [toLowerCase] on ASCII text. *)
Definition toLowerCase (s : jsstring) : jsstring := toLowerAscii <$> s.

(** A store of emoji rows and a Discord that hands out the two clients;
    an upload gives the URL back with [mxc:] in front. *)
Definition services : Env Call (gmap jsstring DbEmojiRow) :=
  fun X call store =>
    match call in Call X return result X * gmap jsstring DbEmojiRow with
    | store_Get_DbEmoji id => (Ok (store !! id), store)
    | store_Insert_DbEmoji row => (Ok tt, <[EmojiId row := row]> store)
    | Util_UploadContentFromUrl url name => (Ok (js "mxc:" ++ url), store)
    | clientFactory_getClient sender =>
        (Ok match sender with senderNull => botClient | _ => puppet end, store)
    | store_Get_DbEvent_by_discord_id id =>
        (Ok [dbEventFor (js "$sent") (js "!room:hs") (Samples.message "101" "one")],
         store)
    | client_redactEvent _ _ _ => (Ok tt, store)
    end.

End LookupSamples.

(** ** Further sample data for the events of a room *)

Module RoutingSamples.

Import MatrixEventProcessor EventRouting.

Definition roomEvent (e : IMatrixEvent) : RoomEvent :=
  {| base := e; unsigned_age := Some 1000%Z; state_key := [];
     replaces_state := None; membership := None; reason := None |}.

Definition encryptionEvent : RoomEvent :=
  roomEvent
    {| event_id := js "$5"; room_id := Samples.room; sender := js "@alice:hs";
       type := js "m.room.encryption"; content := None; origin_server_ts := 5000 |}.

Definition bridged : BridgeContext :=
  {| rooms_remote := Some {| remote_roomId := js "discord_1234_456" |} |}.

(** A bridge on which everything succeeds, except that the Discord
    side cannot be written to when [writable] is unset. *)
Definition bridge (writable : bool) : Env Call unit :=
  fun X call w =>
    match call in Call X return result X * unit with
    | processor call => ProcessorSamples.serving ProcessorSamples.remoteEvent None _ call w
    | MetricPeg_requestOutcome _ _ _ => (Ok tt, tt)
    | mxCommandHandler_HandleInvite _ => (Ok tt, tt)
    | intent_getEvent_state _ _ => (Ok encryptionEvent, tt)
    | discord_HandleMatrixKickBan _ _ _ _ _ _ => (Ok tt, tt)
    | discord_ProcessMatrixRedact _ => (Ok tt, tt)
    | mxCommandHandler_Process _ _ => (Ok tt, tt)
    | discord_LookupRoom _ _ _ =>
        (Ok {| lookup_channel := Samples.channel; lookup_botUser := true |}, tt)
    | discord_send _ _ _ _ =>
        (if writable then Ok tt else Err (js "Missing Permissions"), tt)
    | intent_sendReadReceipt _ _ => (Ok tt, tt)
    | intent_sendMessage _ _ => (Ok tt, tt)
    | discord_GetChannelFromRoomId _ => (Ok Samples.channel, tt)
    | channel_send _ _ =>
        (if writable then Ok tt else Err (js "Missing Permissions"), tt)
    | intent_leave _ => (Ok tt, tt)
    | roomStore_removeEntriesByMatrixRoomId _ => (Ok tt, tt)
    end.

End RoutingSamples.

(* ===================================================================== *)
(** * Properties                                                         *)
(* ===================================================================== *)

(** ** Strings *)

Section StringFacts.

Implicit Types (s p q r w x y : jsstring) (c : N).

Lemma startsWith_nil_r s : startsWith s [] = true.
Proof. by destruct s. Qed.

Lemma startsWith_cons s c p c' :
  startsWith (c' :: s) (c :: p) = (c =? c') && startsWith s p.
Proof. reflexivity. Qed.

Lemma startsWith_app p x : startsWith (p ++ x) p = true.
Proof.
  induction p as [|c p IH]; [apply startsWith_nil_r|].
  cbn. by rewrite N.eqb_refl.
Qed.

Lemma startsWith_length s p : startsWith s p = true -> (length p <= length s)%nat.
Proof.
  revert s. induction p as [|c p IH]; intros [|c' s] H; cbn in *; try lia; try done.
  apply andb_true_iff in H as [_ H]. apply IH in H. lia.
Qed.

Lemma includes_nil_l p : p <> [] -> includes [] p = false.
Proof. by destruct p. Qed.

Lemma includes_cons c s p :
  includes (c :: s) p = startsWith (c :: s) p || includes s p.
Proof. reflexivity. Qed.

Lemma includes_false_cons c s p :
  includes (c :: s) p = false ->
  startsWith (c :: s) p = false /\ includes s p = false.
Proof. rewrite includes_cons. apply orb_false_iff. Qed.

Lemma includes_false_drop k s p :
  p <> [] -> includes s p = false -> includes (drop k s) p = false.
Proof.
  intros Hp. revert s. induction k as [|k IH]; intros [|c s] H; cbn [drop]; try done.
  apply includes_false_cons in H as [_ H]. by apply IH.
Qed.

Lemma replace_g_skip_drop k s p r :
  replace_g_skip k s p r = replace_g (drop k s) p r.
Proof.
  revert k. induction s as [|c s IH]; intros [|k]; try reflexivity.
  cbn [replace_g_skip drop]. apply IH.
Qed.

Lemma replace_g_nil p r : replace_g [] p r = [].
Proof. reflexivity. Qed.

Lemma replace_g_cons c s p r :
  replace_g (c :: s) p r =
  if startsWith (c :: s) p
  then r ++ replace_g (drop (length p - 1) s) p r
  else c :: replace_g s p r.
Proof.
  unfold replace_g at 1. cbn [replace_g_skip].
  by rewrite replace_g_skip_drop.
Qed.

(** Where the pattern does not occur nothing is replaced. *)
Lemma replace_g_id s p r : includes s p = false -> replace_g s p r = s.
Proof.
  induction s as [|c s IH]; intros H; [reflexivity|].
  apply includes_false_cons in H as [H1 H2].
  rewrite replace_g_cons, H1. by rewrite IH.
Qed.

(** A one-character pattern: the replacement is a map over the string. *)
Lemma replace_g_char s c r :
  replace_g s [c] r = flat_map (fun d => if c =? d then r else [d]) s.
Proof.
  induction s as [|d s IH]; [reflexivity|].
  rewrite replace_g_cons. cbn [length Nat.sub drop flat_map].
  rewrite startsWith_cons, startsWith_nil_r, andb_true_r.
  rewrite drop_0, IH. by destruct (c =? d).
Qed.

End StringFacts.

(** ** Patterns that begin with the at sign *)

Section AtSign.

Implicit Types (s p q r w x y : jsstring) (c : N).

Lemma noAt_cons c w : noAt (c :: w) = true -> c <> 64 /\ noAt w = true.
Proof.
  cbn. intros [H1 H2]%andb_true_iff. split; [|done].
  intros ->. discriminate.
Qed.

(** A replacement of an at-pattern by an at-text keeps every prefix
    that holds no at sign. *)
Lemma startsWith_replace_g s q r w :
  noAt w = true ->
  startsWith (replace_g s (64 :: q) (64 :: r)) w = startsWith s w.
Proof.
  revert s. induction w as [|d w IH]; intros s Hw.
  { by rewrite !startsWith_nil_r. }
  apply noAt_cons in Hw as [Hd Hw].
  destruct s as [|c s]; [reflexivity|].
  rewrite replace_g_cons.
  destruct (startsWith (c :: s) (64 :: q)) eqn:Hm.
  - rewrite startsWith_cons in Hm. apply andb_true_iff in Hm as [Hc _].
    apply N.eqb_eq in Hc. subst c. cbn [app].
    rewrite !startsWith_cons.
    destruct (N.eqb_spec d 64); [done|reflexivity].
  - rewrite !startsWith_cons. by rewrite IH.
Qed.

Lemma startsWith_cut x y q :
  noAt q = true -> startsWith (x ++ 64 :: y) q = startsWith x q.
Proof.
  revert x. induction q as [|d q IH]; intros x Hq; [by rewrite !startsWith_nil_r|].
  apply noAt_cons in Hq as [Hd Hq].
  destruct x as [|c x]; cbn [app].
  - rewrite startsWith_cons. cbn. destruct (N.eqb_spec d 64); [done|reflexivity].
  - rewrite !startsWith_cons. by rewrite IH.
Qed.

(** Every at sign is a cut point of the replacement. *)
Lemma replace_g_cut x y q r :
  noAt q = true ->
  replace_g (x ++ 64 :: y) (64 :: q) r
  = replace_g x (64 :: q) r ++ replace_g (64 :: y) (64 :: q) r.
Proof.
  intros Hq. remember (length x) as n eqn:Hn.
  revert x Hn. induction n as [n IH] using lt_wf_ind. intros x Hn.
  destruct x as [|c x]; [reflexivity|].
  cbn [app]. rewrite (replace_g_cons c (x ++ _)), (replace_g_cons c x).
  rewrite !startsWith_cons, startsWith_cut by done.
  destruct ((64 =? c) && startsWith x q) eqn:Hm.
  - apply andb_true_iff in Hm as [_ Hm]. apply startsWith_length in Hm.
    cbn [length]. rewrite Nat.sub_succ, Nat.sub_0_r.
    rewrite drop_app_le by done.
    rewrite (IH (length (drop (length q) x))); [|rewrite length_drop; cbn in Hn; lia|done].
    by rewrite app_assoc.
  - cbn in Hn. by rewrite (IH (length x)); [|lia|].
Qed.

(** After the replacement the pattern occurs nowhere, when the text put
    in its place brings no occurrence of its own. *)
Lemma includes_replace_same s q r :
  noAt q = true ->
  (forall x, includes ((64 :: r) ++ x) (64 :: q) = includes x (64 :: q)) ->
  includes (replace_g s (64 :: q) (64 :: r)) (64 :: q) = false.
Proof.
  intros Hq Hr. remember (length s) as n eqn:Hn.
  revert s Hn. induction n as [n IH] using lt_wf_ind. intros s Hn.
  destruct s as [|c s]; [reflexivity|]. cbn in Hn.
  rewrite replace_g_cons.
  destruct (startsWith (c :: s) (64 :: q)) eqn:Hm.
  - rewrite Hr. eapply IH; [|reflexivity]. rewrite length_drop. lia.
  - rewrite includes_cons. rewrite (IH (length s)); [|lia|done].
    rewrite orb_false_r. rewrite startsWith_cons in *.
    by rewrite startsWith_replace_g.
Qed.

(** The replacement creates no occurrence of another at-token. *)
Lemma includes_replace_other s q r w :
  noAt w = true ->
  (forall x, includes ((64 :: r) ++ x) (64 :: w) = includes x (64 :: w)) ->
  includes s (64 :: w) = false ->
  includes (replace_g s (64 :: q) (64 :: r)) (64 :: w) = false.
Proof.
  intros Hw Hr. remember (length s) as n eqn:Hn.
  revert s Hn. induction n as [n IH] using lt_wf_ind. intros s Hn Hs.
  destruct s as [|c s]; [reflexivity|]. cbn in Hn.
  pose proof Hs as [Hs1 Hs2]%includes_false_cons.
  rewrite replace_g_cons.
  destruct (startsWith (c :: s) (64 :: q)) eqn:Hm.
  - rewrite Hr. eapply IH; [|reflexivity|].
    + rewrite length_drop. lia.
    + by apply includes_false_drop.
  - rewrite includes_cons. rewrite (IH (length s)); [|lia|done|done].
    rewrite orb_false_r. rewrite startsWith_cons in *.
    by rewrite startsWith_replace_g.
Qed.

End AtSign.

(** ** The escaping pass *)

Section Escaping.

Implicit Types (s t x y : jsstring) (c : N).

Lemma escapeMarkdown_app x y :
  escapeMarkdown (x ++ y) = escapeMarkdown x ++ escapeMarkdown y.
Proof. apply flat_map_app. Qed.

Lemma escapeMarkdown_cons c s :
  escapeMarkdown (c :: s) = escapeChar c ++ escapeMarkdown s.
Proof. reflexivity. Qed.

Lemma flat_map_flat_map (f g : N -> jsstring) s :
  flat_map g (flat_map f s) = flat_map (fun c => flat_map g (f c)) s.
Proof.
  induction s as [|c s IH]; [reflexivity|].
  cbn [flat_map]. by rewrite flat_map_app, IH.
Qed.

(** The five replacements of the source, one after the other, escape
    each reserved character exactly once. *)
Lemma escape_passes s :
  fold_left
    (fun msg char => replace_g msg (escapedLiteral char) (js "\" ++ char))
    escapeChars s
  = escapeMarkdown s.
Proof.
  unfold escapeChars, escapedLiteral. cbn [fold_left].
  change (js "\") with [92]. change (js "*") with [42]. change (js "_") with [95].
  change (js "~") with [126]. change (js "`") with [96].
  rewrite !replace_g_char, !flat_map_flat_map.
  apply flat_map_ext. intros c. unfold escapeChar, isEscapeChar.
  destruct (N.eqb_spec c 92) as [->|H1]; [reflexivity|].
  destruct (N.eqb_spec c 42) as [->|H2]; [reflexivity|].
  destruct (N.eqb_spec c 95) as [->|H3]; [reflexivity|].
  destruct (N.eqb_spec c 126) as [->|H4]; [reflexivity|].
  destruct (N.eqb_spec c 96) as [->|H5]; [reflexivity|].
  assert (forall a, c <> a -> (a =? c) = false) as E
    by (intros a Ha; apply N.eqb_neq; congruence).
  cbn [flat_map app]. rewrite (E 92 H1).
  cbn [flat_map app]. rewrite (E 42 H2).
  cbn [flat_map app]. rewrite (E 95 H3).
  cbn [flat_map app]. rewrite (E 126 H4).
  cbn [flat_map app]. rewrite (E 96 H5).
  reflexivity.
Qed.

Lemma noEscapeChar_cons c t :
  noEscapeChar (c :: t) = true -> isEscapeChar c = false /\ noEscapeChar t = true.
Proof.
  cbn. intros [H1 H2]%andb_true_iff. split; [|done].
  by apply negb_true_iff.
Qed.

Lemma isEscapeChar_92 : isEscapeChar 92 = true.
Proof. reflexivity. Qed.

Lemma startsWith_escapeMarkdown s t :
  noEscapeChar t = true ->
  startsWith (escapeMarkdown s) t = startsWith s t.
Proof.
  revert s. induction t as [|d t IH]; intros s Ht; [by rewrite !startsWith_nil_r|].
  apply noEscapeChar_cons in Ht as [Hd Ht].
  destruct s as [|c s]; [reflexivity|].
  rewrite escapeMarkdown_cons. unfold escapeChar.
  destruct (isEscapeChar c) eqn:Hc; cbn [app]; rewrite !startsWith_cons.
  - destruct (N.eqb_spec d 92) as [->|_]; [by rewrite isEscapeChar_92 in Hd|].
    destruct (N.eqb_spec d c) as [->|_]; [congruence|]. reflexivity.
  - by rewrite IH.
Qed.

(** A token without reserved characters occurs in the escaped string
    exactly when it occurs in the string. *)
Lemma includes_escapeMarkdown s t :
  noEscapeChar t = true ->
  includes (escapeMarkdown s) t = includes s t.
Proof.
  intros Ht. destruct t as [|d t].
  { destruct s, (escapeMarkdown _); reflexivity. }
  induction s as [|c s IH]; [reflexivity|].
  rewrite includes_cons, <- IH, <- (startsWith_escapeMarkdown (c :: s)) by done.
  rewrite escapeMarkdown_cons. unfold escapeChar.
  destruct (isEscapeChar c) eqn:Hc; cbn [app]; [|reflexivity].
  apply noEscapeChar_cons in Ht as [Hd Ht].
  rewrite (includes_cons 92), (includes_cons c), !startsWith_cons.
  destruct (N.eqb_spec d 92) as [->|_]; [by rewrite isEscapeChar_92 in Hd|].
  destruct (N.eqb_spec d c) as [->|_]; [congruence|]. reflexivity.
Qed.

Lemma unescape_escapeChar c s :
  unescapeMarkdown (escapeChar c ++ escapeMarkdown s)
  = c :: unescapeMarkdown (escapeMarkdown s).
Proof.
  unfold escapeChar. destruct (isEscapeChar c) eqn:Hc; cbn [app].
  - cbn [unescapeMarkdown]. by rewrite N.eqb_refl, Hc.
  - assert (c <> 92) as Hn by (intros ->; by rewrite isEscapeChar_92 in Hc).
    cbn [unescapeMarkdown].
    destruct (escapeMarkdown s) as [|d rest]; [reflexivity|].
    destruct (N.eqb_spec c 92); [done|reflexivity].
Qed.

(** Removing the escapes undoes the escaping. *)
Lemma unescape_escape s : unescapeMarkdown (escapeMarkdown s) = s.
Proof.
  induction s as [|c s IH]; [reflexivity|].
  by rewrite escapeMarkdown_cons, unescape_escapeChar, IH.
Qed.

Lemma length_escapeMarkdown s :
  length (escapeMarkdown s) = (length s + countEscapeChars s)%nat.
Proof.
  unfold countEscapeChars.
  induction s as [|c s IH]; [reflexivity|].
  rewrite escapeMarkdown_cons, length_app, IH. unfold escapeChar.
  rewrite filter_cons. destruct (decide (isEscapeChar c = true)) as [H|H].
  - rewrite H. cbn. lia.
  - apply not_true_is_false in H. rewrite H. cbn. lia.
Qed.

End Escaping.

(** ** The passes of [escapeDiscord] *)

Section EscapeDiscord.

Implicit Types (s a b x y : jsstring) (opts : MatrixMessageProcessorOpts).

Lemma escapeDiscord_passes opts s :
  escapeDiscord opts s
  = escapeMarkdown (roomToHere (defuseHere opts (defuseEveryone opts s))).
Proof. unfold escapeDiscord. by rewrite escape_passes. Qed.

(** An at-pass maps a string that begins with the at sign to one that
    does. *)
Lemma replace_g_at_head y q r :
  exists y', replace_g (64 :: y) (64 :: q) (64 :: r) = 64 :: y'.
Proof.
  rewrite replace_g_cons. destruct (startsWith _ _); cbn [app]; eauto.
Qed.

Lemma defuseEveryone_cut opts x y :
  defuseEveryone opts (x ++ 64 :: y)
  = defuseEveryone opts x ++ defuseEveryone opts (64 :: y).
Proof.
  unfold defuseEveryone. destruct (disableEveryone opts); [|reflexivity].
  by apply (replace_g_cut x y (js "everyone")).
Qed.

Lemma defuseHere_cut opts x y :
  defuseHere opts (x ++ 64 :: y) = defuseHere opts x ++ defuseHere opts (64 :: y).
Proof.
  unfold defuseHere. destruct (disableHere opts); [|reflexivity].
  by apply (replace_g_cut x y (js "here")).
Qed.

Lemma roomToHere_cut x y :
  roomToHere (x ++ 64 :: y) = roomToHere x ++ roomToHere (64 :: y).
Proof. by apply (replace_g_cut x y (js "room")). Qed.

Lemma defuseEveryone_at_head opts y :
  exists y', defuseEveryone opts (64 :: y) = 64 :: y'.
Proof.
  unfold defuseEveryone. destruct (disableEveryone opts); [|eauto].
  apply (replace_g_at_head y (js "everyone") ([SEPARATOR] ++ js "everyone")).
Qed.

Lemma defuseHere_at_head opts y :
  exists y', defuseHere opts (64 :: y) = 64 :: y'.
Proof.
  unfold defuseHere. destruct (disableHere opts); [|eauto].
  apply (replace_g_at_head y (js "here") ([SEPARATOR] ++ js "here")).
Qed.

(** [escapeDiscord] can be computed piecewise: every at sign of the
    input is a cut point. *)
Lemma escapeDiscord_cut opts x y :
  escapeDiscord opts (x ++ 64 :: y)
  = escapeDiscord opts x ++ escapeDiscord opts (64 :: y).
Proof.
  rewrite !escapeDiscord_passes.
  rewrite defuseEveryone_cut.
  destruct (defuseEveryone_at_head opts y) as [y1 ->].
  rewrite defuseHere_cut.
  destruct (defuseHere_at_head opts y1) as [y2 ->].
  by rewrite roomToHere_cut, escapeMarkdown_app.
Qed.

(** What the passes do with the three tokens at the head of a string. *)
Lemma escapeDiscord_room opts b :
  escapeDiscord opts (js "@room" ++ b) = js "@here" ++ escapeDiscord opts b.
Proof.
  rewrite !escapeDiscord_passes. unfold defuseEveryone, defuseHere.
  destruct (disableEveryone opts), (disableHere opts); reflexivity.
Qed.

Lemma escapeDiscord_everyone opts b :
  escapeDiscord opts (js "@everyone" ++ b)
  = (if disableEveryone opts
     then js "@" ++ [SEPARATOR] ++ js "everyone"
     else js "@everyone") ++ escapeDiscord opts b.
Proof.
  rewrite !escapeDiscord_passes. unfold defuseEveryone, defuseHere.
  destruct (disableEveryone opts), (disableHere opts); reflexivity.
Qed.

Lemma escapeDiscord_here opts b :
  escapeDiscord opts (js "@here" ++ b)
  = (if disableHere opts
     then js "@" ++ [SEPARATOR] ++ js "here"
     else js "@here") ++ escapeDiscord opts b.
Proof.
  rewrite !escapeDiscord_passes. unfold defuseEveryone, defuseHere.
  destruct (disableEveryone opts), (disableHere opts); reflexivity.
Qed.

(** Occurrences of the tokens after each pass. *)
Lemma defuseEveryone_none opts s :
  disableEveryone opts = true ->
  includes (defuseEveryone opts s) (js "@everyone") = false.
Proof.
  intros H. unfold defuseEveryone. rewrite H.
  apply (includes_replace_same s (js "everyone") ([SEPARATOR] ++ js "everyone"));
    [reflexivity|]. intros x. reflexivity.
Qed.

Lemma defuseEveryone_keeps opts s w :
  noAt w = true ->
  (forall x, includes ((64 :: [SEPARATOR] ++ js "everyone") ++ x) (64 :: w)
             = includes x (64 :: w)) ->
  includes s (64 :: w) = false ->
  includes (defuseEveryone opts s) (64 :: w) = false.
Proof.
  intros Hw Hr Hs. unfold defuseEveryone. destruct (disableEveryone opts); [|done].
  by apply (includes_replace_other s (js "everyone") ([SEPARATOR] ++ js "everyone") w).
Qed.

Lemma defuseHere_none opts s :
  disableHere opts = true ->
  includes (defuseHere opts s) (js "@here") = false.
Proof.
  intros H. unfold defuseHere. rewrite H.
  apply (includes_replace_same s (js "here") ([SEPARATOR] ++ js "here"));
    [reflexivity|]. intros x. reflexivity.
Qed.

Lemma defuseHere_keeps opts s w :
  noAt w = true ->
  (forall x, includes ((64 :: [SEPARATOR] ++ js "here") ++ x) (64 :: w)
             = includes x (64 :: w)) ->
  includes s (64 :: w) = false ->
  includes (defuseHere opts s) (64 :: w) = false.
Proof.
  intros Hw Hr Hs. unfold defuseHere. destruct (disableHere opts); [|done].
  by apply (includes_replace_other s (js "here") ([SEPARATOR] ++ js "here") w).
Qed.

Lemma roomToHere_keeps s w :
  noAt w = true ->
  (forall x, includes (js "@here" ++ x) (64 :: w) = includes x (64 :: w)) ->
  includes s (64 :: w) = false ->
  includes (roomToHere s) (64 :: w) = false.
Proof.
  intros Hw Hr Hs.
  by apply (includes_replace_other s (js "room") (js "here") w).
Qed.

(** With [disableEveryone] the output holds no [@everyone]. *)
Lemma escapeDiscord_no_everyone opts s :
  disableEveryone opts = true ->
  includes (escapeDiscord opts s) (js "@everyone") = false.
Proof.
  intros H. rewrite escapeDiscord_passes.
  rewrite includes_escapeMarkdown by reflexivity.
  apply (roomToHere_keeps _ (js "everyone")); [reflexivity|by intros|].
  apply (defuseHere_keeps _ _ (js "everyone")); [reflexivity|by intros|].
  by apply defuseEveryone_none.
Qed.

(** With [disableHere] the output holds [@here] only where the input had
    [@room]. *)
Lemma escapeDiscord_no_here opts s :
  disableHere opts = true ->
  includes s (js "@room") = false ->
  includes (escapeDiscord opts s) (js "@here") = false.
Proof.
  intros H Hroom. rewrite escapeDiscord_passes.
  rewrite includes_escapeMarkdown by reflexivity.
  unfold roomToHere. rewrite replace_g_id.
  - by apply defuseHere_none.
  - apply (defuseHere_keeps _ _ (js "room")); [reflexivity|by intros|].
    by apply (defuseEveryone_keeps _ _ (js "room")); [reflexivity|by intros|].
Qed.

(** Without any of the three tokens, [escapeDiscord] is the escaping of
    the reserved characters and nothing else. *)
Lemma escapeDiscord_plain opts s :
  includes s (js "@everyone") = false ->
  includes s (js "@here") = false ->
  includes s (js "@room") = false ->
  escapeDiscord opts s = escapeMarkdown s.
Proof.
  intros H1 H2 H3. rewrite escapeDiscord_passes.
  unfold roomToHere, defuseHere, defuseEveryone.
  destruct (disableEveryone opts), (disableHere opts);
    rewrite ?(replace_g_id s (js "@everyone")) by done;
    rewrite ?(replace_g_id s (js "@here")) by done;
    by rewrite (replace_g_id s (js "@room")).
Qed.

End EscapeDiscord.

(** ** [FormatMessage] on plain-text messages *)

Section PlainText.

Variable GetEmojiByMxc : jsstring -> option DbEmoji.
Variable parse : jsstring -> Node.
Variable elementText : Node -> jsstring.

Implicit Types (msg : IMatrixMessage) (opts : MatrixMessageProcessorOpts).

Lemma FormatMessage_plain opts msg guild profile :
  isPlain msg ->
  msgtype msg <> js "m.emote" ->
  FormatMessage GetEmojiByMxc parse elementText opts msg guild profile
  = escapeDiscord opts (body msg).
Proof.
  intros Hp He. unfold FormatMessage, isPlain in *. rewrite Hp.
  unfold eqb. by rewrite bool_decide_eq_false_2.
Qed.

Lemma countEscapeChars_escapeMarkdown s :
  countEscapeChars (escapeMarkdown s) = (2 * countEscapeChars s)%nat.
Proof.
  unfold countEscapeChars.
  induction s as [|c s IH]; [reflexivity|].
  rewrite escapeMarkdown_cons, filter_app, length_app, IH, filter_cons.
  unfold escapeChar.
  destruct (decide (isEscapeChar c = true)) as [H|H].
  - rewrite H. rewrite !filter_cons, filter_nil.
    rewrite (decide_True _ _ isEscapeChar_92), (decide_True _ _ H).
    cbn [length]. lia.
  - pose proof H as H'. apply not_true_is_false in H'. rewrite H'.
    rewrite filter_cons, filter_nil, (decide_False _ _ H).
    cbn [length]. lia.
Qed.

(** C1, for bodies without broadcast tokens.  For a plain-text message
    that is not an emote and whose body holds none of the tokens
    [@everyone], [@here], [@room]:
    [FormatMessage] escapes exactly the reserved characters of the
    body; removing the escapes gives the body back; an escaped pair of
    the body comes out with three backslashes; and formatting the
    output once more escapes it again, two more code units for every
    reserved character of the body, so that escaping is not
    idempotent. *)
Theorem FormatMessage_plain_escapes opts msg guild profile :
  isPlain msg ->
  msgtype msg <> js "m.emote" ->
  includes (body msg) (js "@everyone") = false ->
  includes (body msg) (js "@here") = false ->
  includes (body msg) (js "@room") = false ->
  let out := FormatMessage GetEmojiByMxc parse elementText opts msg guild profile in
  out = escapeMarkdown (body msg)
  /\ unescapeMarkdown out = body msg
  /\ (forall a c b,
        body msg = a ++ [92; c] ++ b -> isEscapeChar c = true ->
        out = escapeMarkdown a ++ [92; 92; 92; c] ++ escapeMarkdown b)
  /\ (forall msg' guild' profile',
        isPlain msg' -> msgtype msg' <> js "m.emote" -> body msg' = out ->
        let out' :=
          FormatMessage GetEmojiByMxc parse elementText opts msg' guild' profile' in
        out' = escapeMarkdown out
        /\ length out' = (length out + 2 * countEscapeChars (body msg))%nat
        /\ ((0 < countEscapeChars (body msg))%nat -> out' <> out)).
Proof.
  intros Hp He H1 H2 H3 out.
  assert (out = escapeMarkdown (body msg)) as Hout.
  { unfold out. rewrite FormatMessage_plain by done.
    by apply escapeDiscord_plain. }
  split; [done|]. split; [by rewrite Hout, unescape_escape|]. split.
  - intros a c b Hb Hc. rewrite Hout, Hb, !escapeMarkdown_app.
    cbn [escapeMarkdown flat_map]. unfold escapeChar.
    by rewrite isEscapeChar_92, Hc.
  - intros msg' guild' profile' Hp' He' Hb' out'.
    assert (out' = escapeMarkdown out) as Hout'.
    { unfold out'. rewrite FormatMessage_plain by done. rewrite Hb'.
      apply escapeDiscord_plain; rewrite Hout;
        by rewrite includes_escapeMarkdown. }
    split; [done|].
    assert (length out' = (length out + 2 * countEscapeChars (body msg))%nat) as Hlen.
    { rewrite Hout', length_escapeMarkdown, Hout.
      by rewrite countEscapeChars_escapeMarkdown. }
    split; [done|]. intros Hpos Heq. rewrite Heq in Hlen. lia.
Qed.

End PlainText.

Import Samples.

(** C1 at the body [wow \*this\* is cool]. *)
Lemma FormatMessage_plain_escapes_witness :
  FormatMessage noEmoji noParser noText defaultOpts
    (plainMessage "wow \*this\* is cool") guild1234 None
  = js "wow \\\*this\\\* is cool".
Proof.
  refine (proj1 (FormatMessage_plain_escapes noEmoji noParser noText defaultOpts
                   (plainMessage "wow \*this\* is cool") guild1234 None
                   _ _ _ _ _)).
  - reflexivity.
  - vm_compute. discriminate.
  - reflexivity.
  - reflexivity.
  - reflexivity.
Defined.

(** C1 does not hold for every plain-text message.  The body
    [hey @everyone] is plain text, and the output without its escapes
    holds a separator that the body does not; the body [hey @room] comes
    out as [hey @here]; and an emote comes out between underscores. *)
Lemma plain_text_round_trip_fails :
  let format msg :=
    FormatMessage noEmoji noParser noText defaultOpts msg guild1234 None in
  (isPlain (plainMessage "hey @everyone")
   /\ unescapeMarkdown (format (plainMessage "hey @everyone"))
      = js "hey @" ++ [SEPARATOR] ++ js "everyone"
   /\ unescapeMarkdown (format (plainMessage "hey @everyone"))
      <> body (plainMessage "hey @everyone"))
  /\ (isPlain (plainMessage "hey @room")
      /\ unescapeMarkdown (format (plainMessage "hey @room")) = js "hey @here"
      /\ unescapeMarkdown (format (plainMessage "hey @room"))
         <> body (plainMessage "hey @room"))
  /\ (isPlain (emoteMessage "floofs")
      /\ unescapeMarkdown (format (emoteMessage "floofs")) = js "_floofs_"
      /\ unescapeMarkdown (format (emoteMessage "floofs"))
         <> body (emoteMessage "floofs")).
Proof.
  repeat split; try reflexivity; vm_compute; discriminate.
Qed.

(** ** The broadcast tokens *)

(** Wherever [@room] stands in a plain-text leaf, and whatever the
    options, it comes out as [@here]. *)
Lemma escapeDiscord_room_anywhere opts a b :
  escapeDiscord opts (a ++ js "@room" ++ b)
  = escapeDiscord opts a ++ js "@here" ++ escapeDiscord opts b.
Proof.
  change (js "@room" ++ b) with (64 :: js "room" ++ b).
  rewrite escapeDiscord_cut. f_equal. apply escapeDiscord_room.
Qed.

(** C6, on the body of a sender without power.  The body [hey @room]
    is rendered as [hey @here] whatever third argument [FormatMessage]
    is given: nothing about the sender is consulted, so a sender without
    the power to notify the room has the token converted all the same. *)
Theorem room_converted_for_every_sender :
  forall (guild : Guild) (profile : option Profile),
    FormatMessage noEmoji noParser noText defaultOpts
      (plainMessage "hey @room") guild profile
    = js "hey @here".
Proof. intros guild profile. reflexivity. Qed.

(** C7 does not hold for [@here] in general: with [disableHere] set, a
    leaf that holds [@here] and [@room] comes out with a literal
    [@here]. *)
Lemma here_comes_back_from_room :
  disableHere defaultOpts = true
  /\ includes (js "@here @room") (js "@here") = true
  /\ includes (escapeDiscord defaultOpts (js "@here @room")) (js "@here") = true.
Proof. repeat split. Qed.

(** C7, with the part of [@room] made explicit.  With
    [disableEveryone] set the output of [escapeDiscord] never holds
    [@everyone]; with [disableHere] set it holds [@here] only if the
    input held [@room]; every [@everyone] (respectively [@here]) of the
    input comes out with the separator behind its at sign when the
    option is set, and unchanged when it is not. *)
Theorem broadcast_mentions_defused opts s :
  (disableEveryone opts = true ->
     includes (escapeDiscord opts s) (js "@everyone") = false)
  /\ (disableHere opts = true ->
        includes s (js "@room") = false ->
        includes (escapeDiscord opts s) (js "@here") = false)
  /\ (forall a b,
        s = a ++ js "@everyone" ++ b ->
        escapeDiscord opts s
        = escapeDiscord opts a
          ++ (if disableEveryone opts
              then js "@" ++ [SEPARATOR] ++ js "everyone"
              else js "@everyone")
          ++ escapeDiscord opts b)
  /\ (forall a b,
        s = a ++ js "@here" ++ b ->
        escapeDiscord opts s
        = escapeDiscord opts a
          ++ (if disableHere opts
              then js "@" ++ [SEPARATOR] ++ js "here"
              else js "@here")
          ++ escapeDiscord opts b).
Proof.
  split; [apply escapeDiscord_no_everyone|].
  split; [apply escapeDiscord_no_here|].
  split; intros a b ->.
  - change (js "@everyone" ++ b) with (64 :: js "everyone" ++ b).
    rewrite escapeDiscord_cut. f_equal. apply escapeDiscord_everyone.
  - change (js "@here" ++ b) with (64 :: js "here" ++ b).
    rewrite escapeDiscord_cut. f_equal. apply escapeDiscord_here.
Qed.

(** C7 at the leaf [hey @everyone and @here], under the
    default options. *)
Lemma broadcast_mentions_defused_witness :
  includes (escapeDiscord defaultOpts (js "hey @everyone and @here"))
    (js "@everyone") = false
  /\ includes (escapeDiscord defaultOpts (js "hey @everyone and @here"))
       (js "@here") = false.
Proof.
  pose proof (broadcast_mentions_defused defaultOpts (js "hey @everyone and @here"))
    as (H1 & H2 & _).
  split; [apply H1; reflexivity | apply H2; reflexivity].
Defined.

(** ** Pills *)

Section Pills.

Variable GetEmojiByMxc : jsstring -> option DbEmoji.
Variable elementText : Node -> jsstring.
Variable opts : MatrixMessageProcessorOpts.

Lemma replace_first_prefix p x : replace_first (p ++ x) p [] = x.
Proof.
  destruct (p ++ x) as [|c s] eqn:E; cbn [replace_first].
  - apply app_eq_nil in E as [-> ->]. reflexivity.
  - rewrite <- E, startsWith_app. cbn [app]. by rewrite drop_app_length.
Qed.

(** A user id that is not in the directory makes [parseUser] return the
    empty string. *)
Lemma parseUser_unresolved guild id :
  (forall m1, matchUser id = Some m1 -> members guild !! m1 = None) ->
  parseUser guild id = [].
Proof.
  intros H. unfold parseUser. destruct (matchUser id) as [m1|]; [|done].
  by rewrite (H m1).
Qed.

(** An anchor whose user pill does not resolve is rendered as its
    children, and as nothing else. *)
Lemma unresolved_user_pill_is_its_children guild rest attrs children :
  attr attrs (js "href") = Some (MATRIX_TO_LINK ++ 64 :: rest) ->
  (forall m1, matchUser (64 :: rest) = Some m1 -> members guild !! m1 = None) ->
  walkNode GetEmojiByMxc elementText opts guild (HTMLElement (js "a") attrs children)
  = walkChildNodes GetEmojiByMxc elementText opts guild
      (HTMLElement (js "a") attrs children).
Proof.
  intros Hhref Hm. cbn [walkNode walkChildNodes].
  change (eqb (js "a") (js "em") || eqb (js "a") (js "i")) with false.
  change (eqb (js "a") (js "strong") || eqb (js "a") (js "b")) with false.
  change (eqb (js "a") (js "u")) with false.
  change (eqb (js "a") (js "del")) with false.
  change (eqb (js "a") (js "code")) with false.
  change (eqb (js "a") (js "pre")) with false.
  change (eqb (js "a") (js "a")) with true. cbv iota.
  unfold parsePillContent. rewrite Hhref.
  rewrite startsWith_app, replace_first_prefix.
  rewrite parseUser_unresolved by done.
  change (truthy (Some (MATRIX_TO_LINK ++ 64 :: rest))) with true. cbv iota.
  cbn [andb].
  generalize (@nil N).
  induction children as [|child children IH]; intros acc; [reflexivity|].
  cbn [fold_left]. apply IH.
Qed.

End Pills.

(** C5, on the pill of a user that the guild does not know.  The guild
    knows the member 12345 only; the pill of the user 789 is rendered as
    the text of the link, which is neither a link nor anything that
    holds the id, and that is what [FormatMessage] returns for the
    formatted body that parses to this anchor. *)
Theorem unresolved_user_pill_drops_the_id :
  members guild1234 !! js "789" = None
  /\ walkNode noEmoji noText defaultOpts guild1234 pill789 = js "TestUsername"
  /\ includes (walkNode noEmoji noText defaultOpts guild1234 pill789) (js "789") = false
  /\ includes (walkNode noEmoji noText defaultOpts guild1234 pill789)
       (js "https://matrix.to/#/") = false
  /\ FormatMessage noEmoji pillParser noText defaultOpts pillMessage guild1234 None
     = js "TestUsername".
Proof. repeat split. Qed.

(** ** Running asynchronous programs *)

Section AsyncFacts.

Context {E : Type -> Type} {S W : Type}.
Implicit Types (env : Env E W) (this : S) (w : W).

(** Induction over the tree of one function; the forked children are
    left alone. *)
Lemma prog_ind {A : Type} (P : Prog E S A -> Prop)
    (HRet : forall a, P (Ret a))
    (HThrow : forall e, P (Throw e))
    (HDiverge : P Diverge)
    (HAwait : forall X (call : E X) k, (forall r, P (k r)) -> P (Await call k))
    (HGet : forall k, (forall s, P (k s)) -> P (Get k))
    (HPut : forall s k, P k -> P (Put s k))
    (HFork : forall child k, P k -> P (Fork child k)) :
  forall p, P p.
Proof.
  fix IH 1. intros [a|e| |X call k|k|s k|child k].
  - apply HRet.
  - apply HThrow.
  - apply HDiverge.
  - apply HAwait. intros r. apply IH.
  - apply HGet. intros s. apply IH.
  - apply HPut. apply IH.
  - apply HFork. apply IH.
Qed.

Lemma exec_bind {A B : Type} env (p : Prog E S A) (f : A -> Prog E S B)
    this w calls forked :
  exec env (bind p f) this w calls forked
  = let r := exec env p this w calls forked in
    match run_outcome r with
    | Returned a => exec env (f a) (run_this r) (run_world r) (run_calls r) (run_forked r)
    | Raised e =>
        Build_Run (Raised e) (run_this r) (run_world r) (run_calls r) (run_forked r)
    | NoReturn =>
        Build_Run NoReturn (run_this r) (run_world r) (run_calls r) (run_forked r)
    end.
Proof.
  revert this w calls forked.
  induction p as [a|e| |X call k IH|k IH|s k IH|child k IH] using prog_ind;
    intros this w calls forked; cbn [bind exec]; try reflexivity; try apply IH.
  destruct (env X call w) as [r w']. apply IH.
Qed.

Lemma exec_try_catch {A : Type} env (p : Prog E S A) (h : Error -> Prog E S A)
    this w calls forked :
  exec env (try_catch p h) this w calls forked
  = let r := exec env p this w calls forked in
    match run_outcome r with
    | Raised e => exec env (h e) (run_this r) (run_world r) (run_calls r) (run_forked r)
    | _ => r
    end.
Proof.
  revert this w calls forked.
  induction p as [a|e| |X call k IH|k IH|s k IH|child k IH] using prog_ind;
    intros this w calls forked; cbn [try_catch exec]; try reflexivity; try apply IH.
  destruct (env X call w) as [r w']. apply IH.
Qed.

Lemma exec_await_bind {X B : Type} env (call : E X) (f : X -> Prog E S B)
    this w calls forked :
  exec env (bind (await call) f) this w calls forked
  = match env X call w with
    | (Ok x, w') => exec env (f x) this w' (calls ++ [called call]) forked
    | (Err e, w') => Build_Run (Raised e) this w' (calls ++ [called call]) forked
    end.
Proof. cbn [await bind exec]. by destruct (env X call w) as [[x|e] w']. Qed.

(** *** A function that settles returns or raises *)

Lemma settles_exec {A : Type} env (p : Prog E S A) this w calls forked :
  settles p -> run_outcome (exec env p this w calls forked) <> NoReturn.
Proof.
  revert this w calls forked.
  induction p as [a|e| |X call k IH|k IH|s k IH|child k IH] using prog_ind;
    intros this w calls forked Hp; cbn [exec settles] in *; try done.
  - destruct (env X call w) as [r w']. by apply IH.
  - by apply IH.
  - by apply IH.
  - apply IH. tauto.
Qed.

Lemma settles_bind {A B : Type} (p : Prog E S A) (f : A -> Prog E S B) :
  settles p -> (forall a, settles (f a)) -> settles (bind p f).
Proof.
  intros Hp Hf.
  induction p as [a|e| |X call k IH|k IH|s k IH|child k IH] using prog_ind;
    cbn [bind settles] in *; try done; try (intros x; by apply IH).
  - by apply IH.
  - split; [tauto|]. apply IH. tauto.
Qed.

Lemma settles_try_catch {A : Type} (p : Prog E S A) (h : Error -> Prog E S A) :
  settles p -> (forall e, settles (h e)) -> settles (try_catch p h).
Proof.
  intros Hp Hh.
  induction p as [a|e| |X call k IH|k IH|s k IH|child k IH] using prog_ind;
    cbn [try_catch settles] in *; try done; try (intros x; by apply IH).
  - by apply IH.
  - split; [tauto|]. apply IH. tauto.
Qed.

Lemma settles_await {X : Type} (call : E X) : settles (S := S) (await call).
Proof. intros [x|e]; exact I. Qed.

(** *** Counting calls *)

Section Counting.

Variable P : Called E -> bool.
Variable Q : Called E -> Prop.

Lemma callsAtMost_mono {A : Type} (p : Prog E S A) n m :
  (n <= m)%nat -> callsAtMost P Q n p -> callsAtMost P Q m p.
Proof.
  revert n m.
  induction p as [a|e| |X call k IH|k IH|s k IH|child k IH] using prog_ind;
    intros n m Hnm Hp; cbn [callsAtMost] in *; try done.
  - destruct (P (called call)).
    + destruct Hp as [Hq Hp]. split; [done|].
      destruct n as [|n]; [done|]. destruct m as [|m]; [lia|].
      intros r. apply (IH r n m); [lia|apply Hp].
    + intros r. by apply (IH r n m).
  - intros s. by apply (IH s n m).
  - by apply (IH n m).
  - split; [tauto|]. apply (IH n m); tauto.
Qed.

Lemma callsAtMost_bind {A B : Type} (p : Prog E S A) (f : A -> Prog E S B) n m :
  callsAtMost P Q n p -> (forall a, callsAtMost P Q m (f a)) ->
  callsAtMost P Q (n + m) (bind p f).
Proof.
  intros Hp Hf. revert n Hp.
  induction p as [a|e| |X call k IH|k IH|s k IH|child k IH] using prog_ind;
    intros n Hp; cbn [bind callsAtMost] in *; try done.
  - apply (callsAtMost_mono _ m); [lia|apply Hf].
  - destruct (P (called call)).
    + destruct Hp as [Hq Hp]. split; [done|].
      destruct n as [|n]; [done|]. cbn [Nat.add]. intros r. by apply IH.
    + intros r. by apply IH.
  - intros s. by apply IH.
  - by apply IH.
  - split; [tauto|]. apply IH. tauto.
Qed.

Lemma callsAtMost_try_catch {A : Type} (p : Prog E S A) (h : Error -> Prog E S A) n m :
  callsAtMost P Q n p -> (forall e, callsAtMost P Q m (h e)) ->
  callsAtMost P Q (n + m) (try_catch p h).
Proof.
  intros Hp Hh. revert n Hp.
  induction p as [a|e| |X call k IH|k IH|s k IH|child k IH] using prog_ind;
    intros n Hp; cbn [try_catch callsAtMost] in *; try done.
  - apply (callsAtMost_mono _ m); [lia|apply Hh].
  - destruct (P (called call)).
    + destruct Hp as [Hq Hp]. split; [done|].
      destruct n as [|n]; [done|]. cbn [Nat.add]. intros r. by apply IH.
    + intros r. by apply IH.
  - intros s. by apply IH.
  - by apply IH.
  - split; [tauto|]. apply IH. tauto.
Qed.

Lemma callsAtMost_await {X : Type} (call : E X) n :
  P (called call) = false -> callsAtMost (S := S) P Q n (await call).
Proof. intros H. cbn. rewrite H. intros [x|e]; exact I. Qed.

(** The calls of a run are those made before it and then its own, of
    which at most [n] satisfy [P]. *)
Lemma callsAtMost_exec {A : Type} env (p : Prog E S A) n this w calls forked :
  callsAtMost P Q n p ->
  exists new,
    run_calls (exec env p this w calls forked) = calls ++ new
    /\ (length (filter (fun c => P c = true) new) <= n)%nat
    /\ Forall (fun c => P c = true -> Q c) new.
Proof.
  revert n this w calls forked.
  induction p as [a|e| |X call k IH|k IH|s k IH|child k IH] using prog_ind;
    intros n this w calls forked Hp; cbn [exec callsAtMost run_calls] in *;
    try (exists []; rewrite app_nil_r; repeat split; [cbn; lia|constructor]).
  - destruct (env X call w) as [r w'].
    destruct (P (called call)) eqn:HP.
    + destruct Hp as [Hq Hp]. destruct n as [|n]; [done|].
      destruct (IH r n this w' (calls ++ [called call]) forked (Hp r))
        as (new & -> & Hlen & Hall).
      exists (called call :: new). rewrite <- app_assoc. split; [done|]. split.
      * rewrite filter_cons, decide_True by done. cbn [length]. lia.
      * constructor; [done|apply Hall].
    + destruct (IH r n this w' (calls ++ [called call]) forked (Hp r))
        as (new & -> & Hlen & Hall).
      exists (called call :: new). rewrite <- app_assoc. split; [done|]. split.
      * rewrite filter_cons, decide_False by (rewrite HP; done). done.
      * constructor; [rewrite HP; done|apply Hall].
  - by apply IH.
  - by apply IH.
  - apply IH. tauto.
Qed.

End Counting.

End AsyncFacts.

(** ** The event processor *)

Import MatrixEventProcessor.

(** Goals about the tree of a function are taken apart along its
    binds, handlers and case distinctions. *)
Ltac settle_step :=
  first
    [ exact I
    | apply settles_await
    | apply settles_bind
    | apply settles_try_catch
    | match goal with
      | |- settles (match ?x with _ => _ end) => destruct x
      | |- settles (if ?x then _ else _) => destruct x
      | |- forall _, _ => intros ?
      end
    | progress cbn [settles] ].

Ltac settle := repeat settle_step.

Ltac count_step :=
  first
    [ exact I
    | apply callsAtMost_await; reflexivity
    | apply (callsAtMost_bind _ _ _ _ O O)
    | apply (callsAtMost_try_catch _ _ _ _ O O)
    | match goal with
      | |- callsAtMost _ _ _ (match ?x with _ => _ end) => destruct x
      | |- callsAtMost _ _ _ (if ?x then _ else _) => destruct x
      | |- forall _, _ => intros ?
      end
    | progress cbn [callsAtMost] ].

Ltac count_calls := repeat count_step.

Section EventProcessorFacts.

Variable isRemoteUser : jsstring -> bool.
Variable localpart : jsstring -> jsstring.
Variable mxcUrlToHttp : option jsstring -> jsstring.
Variable mxcUrlToHttpSized : option jsstring -> Z -> Z -> jsstring.
Variable path_extname : jsstring -> jsstring.
Variable path_basename : jsstring -> jsstring.
Variable mime_extension : option jsstring -> jsstring.

Implicit Type Q : Called Call -> Prop.

Lemma GetUserProfileForRoom_settles roomId userId :
  settles (GetUserProfileForRoom roomId userId).
Proof. unfold GetUserProfileForRoom. settle. Qed.


Lemma SetEmbedAuthor_settles embed sender profile :
  settles (SetEmbedAuthor isRemoteUser localpart mxcUrlToHttpSized embed sender profile).
Proof. unfold SetEmbedAuthor. cbv zeta. settle. Qed.


Lemma GetFilenameForMediaEvent_settles content :
  settles (GetFilenameForMediaEvent path_extname path_basename mime_extension content).
Proof. unfold GetFilenameForMediaEvent. cbv zeta. settle. Qed.


(** *** Rendering without reply resolution *)

Lemma EventToEmbed_no_reply_settles d event channel :
  settles
    (EventToEmbed isRemoteUser localpart mxcUrlToHttp mxcUrlToHttpSized path_extname
       path_basename mime_extension (S d) event channel false).
Proof.
  cbn [EventToEmbed]. cbv zeta.
  repeat first [apply GetUserProfileForRoom_settles
               |apply SetEmbedAuthor_settles
               |settle_step].
Qed.




(** *** Resolving a reply *)

Lemma GetEmbedForReply_settles d event channel :
  settles
    (GetEmbedForReply isRemoteUser localpart mxcUrlToHttp mxcUrlToHttpSized path_extname
       path_basename mime_extension (S (S d)) event channel).
Proof.
  cbn [GetEmbedForReply]. cbv zeta.
  repeat first [apply (EventToEmbed_no_reply_settles d)
               |apply GetFilenameForMediaEvent_settles
               |settle_step].
Qed.


Lemma EventToEmbed_settles d event channel getReply :
  settles
    (EventToEmbed isRemoteUser localpart mxcUrlToHttp mxcUrlToHttpSized path_extname
       path_basename mime_extension (S (S (S d))) event channel getReply).
Proof.
  cbn [EventToEmbed]. cbv zeta.
  repeat first [apply GetUserProfileForRoom_settles
               |apply SetEmbedAuthor_settles
               |apply (GetEmbedForReply_settles d)
               |settle_step].
Qed.



(** *** The fallback embed *)

Lemma GetEmbedForReply_unfetched {W : Type} (env : Env Call W) d event channel
    eventId this w calls forked e w' :
  replyTarget event = Some eventId ->
  env _ (intent_getEvent (room_id event) eventId) w = (Err e, w') ->
  exec env
    (GetEmbedForReply isRemoteUser localpart mxcUrlToHttp mxcUrlToHttpSized path_extname
       path_basename mime_extension (S d) event channel) this w calls forked
  = Build_Run (Returned (Some fallbackEmbed)) this w'
      (calls ++ [called (intent_getEvent (room_id event) eventId)]) forked.
Proof.
  intros Htarget Henv. cbn [GetEmbedForReply]. cbv zeta.
  unfold replyTarget in Htarget.
  destruct (m_relates_to (contentOf event)) as [[[[eventId']|]]|]; try done.
  injection Htarget as ->.
  rewrite exec_try_catch, exec_bind. cbn [await exec]. rewrite Henv.
  reflexivity.
Qed.

(** C9.  When the event that a reply names cannot be fetched,
    [GetEmbedForReply] returns the fallback embed, whose description is
    [Reply with unknown content] and whose author is [Unknown]; it does
    not raise.  And where the event cannot be fetched at all,
    [EventToEmbed] returns for the replying message whenever it returns
    without reply resolution, with the same message embed and the
    fallback as its reply embed. *)
Theorem reply_falls_back_when_source_unavailable :
  forall (d : nat) (event : IMatrixEvent) (channel : TextChannel) (eventId : jsstring)
         (W : Type) (env : Env Call W) (w : W),
    replyTarget event = Some eventId ->
    (forall w0, exists e, fst (env _ (intent_getEvent (room_id event) eventId) w0) = Err e) ->
    run_outcome
      (run env
         (GetEmbedForReply isRemoteUser localpart mxcUrlToHttp mxcUrlToHttpSized
            path_extname path_basename mime_extension (S d) event channel) tt w)
    = Returned (Some fallbackEmbed)
    /\ description fallbackEmbed = Some (js "Reply with unknown content")
    /\ name <$> author fallbackEmbed = Some (js "Unknown")
    /\ forall res,
         run_outcome
           (run env
              (EventToEmbed isRemoteUser localpart mxcUrlToHttp mxcUrlToHttpSized
                 path_extname path_basename mime_extension (S (S d)) event channel false)
              tt w)
         = Returned res ->
         run_outcome
           (run env
              (EventToEmbed isRemoteUser localpart mxcUrlToHttp mxcUrlToHttpSized
                 path_extname path_basename mime_extension (S (S d)) event channel true)
              tt w)
         = Returned {| messageEmbed := messageEmbed res;
                       replyEmbed := Some fallbackEmbed |}.
Proof.
  intros d event channel eventId W env w Htarget Hfail. unfold run.
  split.
  { destruct (Hfail w) as [e He].
    destruct (env _ (intent_getEvent (room_id event) eventId) w) as [r w'] eqn:Henv.
    cbn in He. subst r.
    by rewrite (GetEmbedForReply_unfetched env d event channel eventId tt w [] [] e w'). }
  split; [reflexivity|]. split; [reflexivity|].
  intros res. cbn [EventToEmbed]. cbv zeta.
  rewrite !(exec_bind env (GetUserProfileForRoom _ _)). cbv zeta.
  destruct (run_outcome (exec env (GetUserProfileForRoom _ _) tt w [] []))
    as [profile| |]; try done.
  set (r1 := exec env (GetUserProfileForRoom _ _) tt w [] []). clearbody r1.
  match goal with
  | |- context [bind ?body _] =>
      rewrite !(exec_bind env body); cbv zeta;
      destruct (run_outcome (exec env body (run_this r1) (run_world r1)
                               (run_calls r1) (run_forked r1)))
        as [b| |]; try done;
      set (r2 := exec env body (run_this r1) (run_world r1)
                   (run_calls r1) (run_forked r1)); clearbody r2
  end.
  rewrite !(exec_bind env (SetEmbedAuthor _ _ _ _ _ _)). cbv zeta.
  destruct (run_outcome (exec env (SetEmbedAuthor _ _ _ _ _ _) (run_this r2)
                           (run_world r2) (run_calls r2) (run_forked r2)))
    as [embed| |]; try done.
  set (r3 := exec env (SetEmbedAuthor _ _ _ _ _ _) (run_this r2)
               (run_world r2) (run_calls r2) (run_forked r2)). clearbody r3.
  cbn [bind exec run_outcome]. intros [= <-].
  rewrite exec_bind. cbv zeta.
  destruct (Hfail (run_world r3)) as [e He].
  destruct (env _ (intent_getEvent (room_id event) eventId) (run_world r3))
    as [r w'] eqn:Henv.
  cbn in He. subst r.
  rewrite (GetEmbedForReply_unfetched env d event channel eventId _ _ _ _ e w')
    by done.
  reflexivity.
Qed.

(** *** Attachments *)




End EventProcessorFacts.

(** C9 at a reply whose source the homeserver does not have. *)
Lemma reply_falls_back_when_source_unavailable_witness :
  run_outcome
    (run (homeserver false)
       (GetEmbedForReply isRemoteUser localpart mxcUrlToHttp mxcUrlToHttpSized
          path_extname path_basename mime_extension 1 replyEvent channel) tt tt)
  = Returned (Some fallbackEmbed).
Proof.
  refine (proj1 (reply_falls_back_when_source_unavailable isRemoteUser localpart
                   mxcUrlToHttp mxcUrlToHttpSized path_extname path_basename
                   mime_extension 0 replyEvent channel (js "$1") unit
                   (homeserver false) tt _ _)).
  - reflexivity.
  - intros w0. exists (js "M_NOT_FOUND"). reflexivity.
Defined.


(** A reply chain without end, rendered: one event is fetched, the one
    that the rendered message replies to, and the reply embed is the
    quoted message alone. *)
Example endless_reply_chain :
  let r :=
    run (homeserver true)
      (EventToEmbed isRemoteUser localpart mxcUrlToHttp mxcUrlToHttpSized
         path_extname path_basename mime_extension 3 replyEvent channel true) tt tt in
  run_calls r
  = [called (mxUserProfileCache_get (js "!room:hs:@alice:hs"));
     called (mxClient_getStateEvent (js "!room:hs") (js "m.room.member") (js "@alice:hs"));
     called (mxUserProfileCache_get (js "@alice:hs"));
     called (intent_getProfileInfo (js "@alice:hs"));
     called (matrixMsgProcessor_FormatMessage
               (content replyEvent) guild1234
               {| roomId := room; userId := js "@alice:hs";
                  params_displayname := None |});
     called (intent_getEvent (js "!room:hs") (js "$1"));
     called (mxUserProfileCache_get (js "!room:hs:@bob:hs"));
     called (mxClient_getStateEvent (js "!room:hs") (js "m.room.member") (js "@bob:hs"));
     called (mxUserProfileCache_get (js "@bob:hs"));
     called (intent_getProfileInfo (js "@bob:hs"));
     called (matrixMsgProcessor_FormatMessage
               (Some (textContentOf "earlier" (Some (js "$1'")))) guild1234
               {| roomId := room; userId := js "@bob:hs";
                  params_displayname := None |})]
  /\ exists res,
       run_outcome r = Returned res
       /\ description (messageEmbed res) = Some (js "second")
       /\ (description <$> replyEmbed res) = Some (Some (js "earlier")).
Proof. split; [reflexivity|]. eexists. repeat split. Qed.

(** ** The bot *)

Import DiscordBot.

Section BotFacts.

Variable config : DiscordBridgeConfig.
Variable botUserId : jsstring.
Variable HasPendingRequest : jsstring -> bool.

Implicit Types (this : Bot) (a : list (option jsstring)) (x : jsstring).

(** [indexOf] finds the first slot that holds the identifier. *)
Lemma indexOf_Some a x i :
  indexOf a x = Some i ->
  a !! i = Some (Some x)
  /\ forall j, (j < i)%nat -> a !! j <> Some (Some x).
Proof.
  revert i. induction a as [|y a IH]; intros i H; [done|].
  cbn [indexOf] in H. destruct (decide (y = Some x)) as [->|Hy].
  - rewrite bool_decide_eq_true_2 in H by done. injection H as <-.
    split; [reflexivity|]. intros j Hj. lia.
  - rewrite bool_decide_eq_false_2 in H by done.
    destruct (indexOf a x) as [i'|] eqn:Hi; [|done]. injection H as <-.
    destruct (IH i' eq_refl) as [H1 H2]. split; [exact H1|].
    intros [|j] Hj; cbn; [congruence|]. apply H2. lia.
Qed.

Lemma indexOf_elem a x : Some x ∈ a -> exists i, indexOf a x = Some i.
Proof.
  induction a as [|y a IH]; intros H; [by apply elem_of_nil in H|].
  cbn [indexOf]. destruct (decide (y = Some x)) as [->|Hy].
  - rewrite bool_decide_eq_true_2 by done. eauto.
  - rewrite bool_decide_eq_false_2 by done.
    apply elem_of_cons in H as [H|H]; [congruence|].
    destruct (IH H) as [i ->]. eauto.
Qed.

(** C4.  A message whose identifier is in [sentMessages] is dropped at
    once: [OnMessage] returns without a single call and without starting
    anything, and the only change to the bot is that the first slot of
    [sentMessages] that held the identifier is emptied. *)
Theorem echo_is_dropped_before_processing :
  forall (msg : Message) this (W : Type) (env : Env Call W) (w : W),
    Some (msg_id msg) ∈ sentMessages this ->
    exists i,
      sentMessages this !! i = Some (Some (msg_id msg))
      /\ (forall j, (j < i)%nat -> sentMessages this !! j <> Some (Some (msg_id msg)))
      /\ run env (OnMessage botUserId HasPendingRequest msg) this w
         = Build_Run (Returned tt)
             {| sentMessages := <[i := None]> (sentMessages this);
                discordMessageQueue := discordMessageQueue this |}
             w [] []
      /\ <[i := None]> (sentMessages this) !! i = Some None.
Proof.
  intros msg this W env w Hin.
  destruct (indexOf_elem _ _ Hin) as [i Hi].
  destruct (indexOf_Some _ _ _ Hi) as [H1 H2].
  exists i. split; [done|]. split; [done|]. split.
  - unfold run, OnMessage. cbn [exec]. rewrite Hi. reflexivity.
  - apply list_lookup_insert_eq. by apply lookup_lt_Some in H1.
Qed.

(** C10.  With [disableDeletionForwarding] set, [ProcessMatrixRedact]
    is the function that returns at once: run against any environment it
    makes no call (no look-up of the mapping, no deletion), starts
    nothing and leaves the bot and the environment as they were. *)
Theorem redaction_not_forwarded_when_disabled :
  forall (event : RedactEvent) this (W : Type) (env : Env Call W) (w : W),
    disableDeletionForwarding config = true ->
    ProcessMatrixRedact config event = Ret tt
    /\ run env (ProcessMatrixRedact config event) this w
       = Build_Run (Returned tt) this w [] [].
Proof.
  intros event this W env w H. unfold ProcessMatrixRedact. by rewrite H.
Qed.

End BotFacts.

(** C4 at a bot that has sent the messages 100 and 101 and now receives
    101 from Discord. *)
Lemma echo_is_dropped_before_processing_witness :
  exists i,
    run discord (OnMessage Samples.botUserId noPendingRequest (message "101" "one"))
      {| sentMessages := [Some (js "100"); Some (js "101")];
         discordMessageQueue := ∅ |} tt
    = Build_Run (Returned tt)
        {| sentMessages := <[i := None]> [Some (js "100"); Some (js "101")];
           discordMessageQueue := ∅ |} tt [] [].
Proof.
  destruct (echo_is_dropped_before_processing Samples.botUserId noPendingRequest
              (message "101" "one")
              {| sentMessages := [Some (js "100"); Some (js "101")];
                 discordMessageQueue := ∅ |} unit discord tt)
    as (i & _ & _ & H & _).
  - cbn. apply elem_of_cons. right. apply elem_of_cons. by left.
  - exists i. exact H.
Defined.

(** C10 at a redaction, with deletion forwarding disabled. *)
Lemma redaction_not_forwarded_when_disabled_witness :
  run discord (ProcessMatrixRedact (Samples.config true) redaction)
    {| sentMessages := [Some (js "100")]; discordMessageQueue := ∅ |} tt
  = Build_Run (Returned tt)
      {| sentMessages := [Some (js "100")]; discordMessageQueue := ∅ |} tt [] [].
Proof.
  refine (proj2 (redaction_not_forwarded_when_disabled (Samples.config true) redaction
                   {| sentMessages := [Some (js "100")]; discordMessageQueue := ∅ |}
                   unit discord tt _)).
  reflexivity.
Defined.

(** With deletion forwarding enabled the first thing a redaction does is
    to look the mapping up. *)
Example redaction_looks_up_the_mapping :
  run_calls
    (run discord (ProcessMatrixRedact (Samples.config false) redaction)
       {| sentMessages := []; discordMessageQueue := ∅ |} tt)
  = [called (store_Get_DbEvent (js "$2;!room:hs"))].
Proof. reflexivity. Qed.

(** ** The queue of a channel *)

(** C3, on two messages for one channel.  Two messages arrive for one
    channel, [one] before [two].  The task of [one] settles as soon as
    the rooms are known, before any send of it has been made: its
    formatting and its send were started and not awaited.  The task of
    [two] then starts, and when the formatting of [two] completes before
    that of [one], [intent.sendMessage] is called for [two] first. *)
Theorem queue_does_not_order_the_sends :
  let one := message "101" "one" in
  let two := message "102" "two" in
  (exists sys,
      schedule discord Samples.botUserId noPendingRequest
        [Arrive one; Arrive two; Resume 0; Complete 0; Complete 0] (boot tt)
      = Some sys
      /\ isSettled (sys_tasks sys) 0 = true
      /\ sendsOf (sys_issued sys) = [])
  /\ (exists sys,
        schedule discord Samples.botUserId noPendingRequest
          [Arrive one; Arrive two; Resume 0; Complete 0; Complete 0;
           Resume 1; Complete 1; Complete 1; Complete 1; Complete 0] (boot tt)
        = Some sys
        /\ sendsOf (sys_issued sys) = [(room, js "two"); (room, js "one")]).
Proof.
  split; eexists; (split; [vm_compute; reflexivity|]); vm_compute; repeat split.
Qed.

(** *** What the queue does guarantee *)

Section Serialisation.

Context {W : Type}.
Variable env : Env Call W.
Variable botUserId : jsstring.
Variable HasPendingRequest : jsstring -> bool.

Implicit Types (tasks : list Task) (sys : System W) (n m : nat).









End Serialisation.

(* ===================================================================== *)
(** * Further properties of the message processor                        *)
(* ===================================================================== *)

Section MoreStrings.

Implicit Types (s p x a b : jsstring) (c : N).

Lemma startsWith_inv s p : startsWith s p = true -> exists x, s = p ++ x.
Proof.
  revert s. induction p as [|c p IH]; intros s H; [by exists s|].
  destruct s as [|d s]; [done|]. rewrite startsWith_cons in H.
  apply andb_true_iff in H as [->%N.eqb_eq [x ->]%IH]. by exists x.
Qed.

Lemma takeWhile_app_stop (f : N -> bool) a b :
  forallb f a = true -> stopsAt f b = true -> takeWhile f (a ++ b) = a.
Proof.
  intros Ha Hb. induction a as [|c a IH]; cbn [app takeWhile].
  - destruct b as [|d b]; [done|]. cbn in Hb. apply negb_true_iff in Hb.
    cbn [takeWhile]. by rewrite Hb.
  - cbn in Ha. apply andb_true_iff in Ha as [-> Ha]. by rewrite IH.
Qed.

Lemma wellEscaped_escapeMarkdown s : wellEscaped (escapeMarkdown s) = true.
Proof.
  induction s as [|c s IH]; [reflexivity|].
  rewrite escapeMarkdown_cons. unfold escapeChar.
  destruct (isEscapeChar c) eqn:Hc; cbn [app wellEscaped].
  - by rewrite N.eqb_refl, Hc, IH.
  - destruct (N.eqb_spec c 92) as [->|_]; [by rewrite isEscapeChar_92 in Hc|].
    by rewrite Hc, IH.
Qed.

End MoreStrings.

(** X1.  Whatever the options and the text, no reserved character of
    the markup stands unescaped in the output of [escapeDiscord]: text
    cannot switch on formatting at the destination. *)
Theorem escapeDiscord_leaves_nothing_unescaped :
  forall (opts : MatrixMessageProcessorOpts) (s : jsstring),
    wellEscaped (escapeDiscord opts s) = true.
Proof.
  intros opts s. rewrite escapeDiscord_passes. apply wellEscaped_escapeMarkdown.
Qed.

Section MorePills.

Variable GetEmojiByMxc : jsstring -> option DbEmoji.
Variable elementText : Node -> jsstring.
Variable opts : MatrixMessageProcessorOpts.

Implicit Types (guild : Guild) (attrs : list (jsstring * jsstring))
  (children : list Node).

Lemma walkNode_anchor guild attrs children :
  walkNode GetEmojiByMxc elementText opts guild (HTMLElement (js "a") attrs children)
  = parsePillContent guild
      (walkChildNodes GetEmojiByMxc elementText opts guild
         (HTMLElement (js "a") attrs children))
      attrs.
Proof.
  cbn [walkNode walkChildNodes].
  change (eqb (js "a") (js "em") || eqb (js "a") (js "i")) with false.
  change (eqb (js "a") (js "strong") || eqb (js "a") (js "b")) with false.
  change (eqb (js "a") (js "u")) with false.
  change (eqb (js "a") (js "del")) with false.
  change (eqb (js "a") (js "code")) with false.
  change (eqb (js "a") (js "pre")) with false.
  change (eqb (js "a") (js "a")) with true. cbv iota.
  reflexivity.
Qed.

Lemma parsePillContent_matrix_to guild wc attrs id :
  attr attrs (js "href") = Some (MATRIX_TO_LINK ++ id) ->
  parsePillContent guild wc attrs
  = let reply :=
      match id with
      | 64 :: _ => parseUser guild id
      | 35 :: _ => parseChannel guild id
      | _ => []
      end in
    match reply with
    | [] => wc
    | _ => reply
    end.
Proof.
  intros H. unfold parsePillContent. rewrite H.
  rewrite startsWith_app, replace_first_prefix.
  change (truthy (Some (MATRIX_TO_LINK ++ id))) with true. reflexivity.
Qed.

(** X2.  The pill of a user that the guild knows is rendered as the
    mention of that user, whatever the anchor contains: the id is the
    run of digits behind [@_discord_] in the href. *)
Theorem user_pill_resolves guild attrs children digits rest member :
  forallb isDigit digits = true ->
  stopsAt isDigit rest = true ->
  members guild !! digits = Some member ->
  attr attrs (js "href")
  = Some (MATRIX_TO_LINK ++ js "@_discord_" ++ digits ++ rest) ->
  walkNode GetEmojiByMxc elementText opts guild (HTMLElement (js "a") attrs children)
  = js "<@" ++ digits ++ js ">".
Proof.
  intros Hd Hr Hm Hhref. rewrite walkNode_anchor.
  rewrite (parsePillContent_matrix_to _ _ _ (js "@_discord_" ++ digits ++ rest))
    by done.
  change (js "@_discord_" ++ digits ++ rest)
    with (64 :: js "_discord_" ++ digits ++ rest).
  unfold parseUser, matchUser.
  change (64 :: js "_discord_" ++ digits ++ rest)
    with (js "@_discord_" ++ digits ++ rest).
  rewrite startsWith_app.
  change (drop 10 (js "@_discord_" ++ digits ++ rest)) with (digits ++ rest).
  by rewrite takeWhile_app_stop, Hm.
Qed.

(** X3.  A channel pill never falls back to the children of its anchor:
    it is rendered as the token of a channel of the guild, or else as
    its own href. *)
Theorem channel_pill_is_token_or_href guild attrs children rest :
  attr attrs (js "href") = Some (MATRIX_TO_LINK ++ 35 :: rest) ->
  let out :=
    walkNode GetEmojiByMxc elementText opts guild
      (HTMLElement (js "a") attrs children) in
  out = MATRIX_TO_LINK ++ 35 :: rest
  \/ exists id channel,
       channels guild !! id = Some channel /\ out = js "<#" ++ id ++ js ">".
Proof.
  intros Hhref out. unfold out. rewrite walkNode_anchor.
  rewrite (parsePillContent_matrix_to _ _ _ (35 :: rest)) by done.
  unfold parseChannel. destruct (matchChannel (35 :: rest)) as [id|]; [|by left].
  destruct (channels guild !! id) as [channel|] eqn:Hc; [|by left].
  right. by exists id, channel.
Qed.

(** X4.  The pill of a channel that the guild knows is rendered as the
    token of that channel: the id is the second run of digits behind
    [#_discord_] in the href. *)
Theorem channel_pill_resolves guild attrs children guildDigits digits rest channel :
  forallb isDigit guildDigits = true ->
  forallb isDigit digits = true ->
  stopsAt isDigit rest = true ->
  channels guild !! digits = Some channel ->
  attr attrs (js "href")
  = Some (MATRIX_TO_LINK ++ js "#_discord_" ++ guildDigits ++ js "_" ++ digits ++ rest) ->
  walkNode GetEmojiByMxc elementText opts guild (HTMLElement (js "a") attrs children)
  = js "<#" ++ digits ++ js ">".
Proof.
  intros Hg Hd Hr Hc Hhref. rewrite walkNode_anchor.
  rewrite (parsePillContent_matrix_to _ _ _
             (js "#_discord_" ++ guildDigits ++ js "_" ++ digits ++ rest)) by done.
  change (js "#_discord_" ++ guildDigits ++ js "_" ++ digits ++ rest)
    with (35 :: js "_discord_" ++ guildDigits ++ js "_" ++ digits ++ rest).
  unfold parseChannel, matchChannel.
  change (35 :: js "_discord_" ++ guildDigits ++ js "_" ++ digits ++ rest)
    with (js "#_discord_" ++ guildDigits ++ js "_" ++ digits ++ rest).
  rewrite startsWith_app.
  change (drop 10 (js "#_discord_" ++ guildDigits ++ js "_" ++ digits ++ rest))
    with (guildDigits ++ js "_" ++ digits ++ rest).
  rewrite (takeWhile_app_stop isDigit guildDigits) by done.
  rewrite drop_app_length.
  change (js "_" ++ digits ++ rest) with (95 :: digits ++ rest). cbv iota.
  by rewrite takeWhile_app_stop, Hc.
Qed.

(** X5.  An anchor is rendered as its children, and as nothing else,
    unless its href is a [matrix.to] link to a user id or to a channel
    id: no other link leaves a trace of its target. *)
Theorem other_anchor_is_its_children guild attrs children :
  (forall rest, attr attrs (js "href") <> Some (MATRIX_TO_LINK ++ 64 :: rest)) ->
  (forall rest, attr attrs (js "href") <> Some (MATRIX_TO_LINK ++ 35 :: rest)) ->
  walkNode GetEmojiByMxc elementText opts guild (HTMLElement (js "a") attrs children)
  = walkChildNodes GetEmojiByMxc elementText opts guild
      (HTMLElement (js "a") attrs children).
Proof.
  intros Huser Hchan. rewrite walkNode_anchor.
  destruct (attr attrs (js "href")) as [href|] eqn:Hhref;
    [|unfold parsePillContent; by rewrite Hhref].
  destruct (startsWith href MATRIX_TO_LINK) eqn:Hs.
  - apply startsWith_inv in Hs as [id ->].
    rewrite (parsePillContent_matrix_to _ _ _ id) by done.
    destruct id as [|c id]; [done|].
    destruct (N.eqb_spec c 64) as [->|H64]; [by destruct (Huser id)|].
    destruct (N.eqb_spec c 35) as [->|H35]; [by destruct (Hchan id)|].
    destruct c as [|p]; [done|].
    repeat (destruct p as [p|p|]; try done).
  - unfold parsePillContent. rewrite Hhref, Hs. by rewrite andb_false_r.
Qed.

End MorePills.

Section MorePre.

Implicit Types (s t text body lang : jsstring) (c : N).

Lemma forallb_takeWhile (f : N -> bool) s : forallb f (takeWhile f s) = true.
Proof.
  induction s as [|c s IH]; [reflexivity|]. cbn [takeWhile].
  destruct (f c) eqn:Hc; [|reflexivity]. cbn. by rewrite Hc, IH.
Qed.

Lemma matchLanguage_word s lang :
  matchLanguage s = Some lang -> forallb isWord lang = true.
Proof.
  induction s as [|c s IH]; cbn [matchLanguage].
  - intros H. vm_compute in H. discriminate.
  - destruct (startsWith_i (c :: s) (js "language-")); [|exact IH].
    intros [= <-]. apply forallb_takeWhile.
Qed.

Lemma ensureLeadingNewline_head text :
  exists rest, ensureLeadingNewline text = 10 :: rest.
Proof.
  unfold ensureLeadingNewline. destruct text as [|c t]; [by eexists|].
  destruct (N.eqb_spec c 10) as [->|H]; [by eexists|].
  destruct c as [|p]; [by eexists|].
  repeat (destruct p as [p|p|]; try (by eexists)).
Qed.

(** X6.  What [parsePreContent] puts between the fences always begins
    with a line of its own: an optional language, made of word
    characters only, and then a line feed. *)
Theorem parsePreContent_begins_with_a_line :
  forall text,
    exists lang rest,
      parsePreContent text = lang ++ 10 :: rest
      /\ forallb isWord lang = true.
Proof.
  intros text. unfold parsePreContent.
  destruct (matchCodeOpen text) as [[whole group]|].
  - destruct (ensureLeadingNewline_head (stripCodeClose (drop (length whole) text)))
      as [rest ->].
    destruct (matchLanguage group) as [language|] eqn:Hl.
    + exists language, rest. split; [done|]. by apply (matchLanguage_word group).
    + by exists [], rest.
  - destruct (ensureLeadingNewline_head text) as [rest ->]. by exists [], rest.
Qed.

Lemma startsWith_i_app p x : startsWith_i (p ++ x) p = true.
Proof.
  induction p as [|c p IH]; [by destruct x|]. cbn. by rewrite N.eqb_refl.
Qed.

Lemma isWord_not_gt lang :
  forallb isWord lang = true -> forallb (fun c => negb (c =? 62)) lang = true.
Proof.
  induction lang as [|c lang IH]; [done|]. cbn [forallb].
  intros [Hc Hl]%andb_true_iff. rewrite IH by done. rewrite andb_true_r.
  destruct (N.eqb_spec c 62) as [->|]; [done|reflexivity].
Qed.

Lemma stripCodeClose_closed body :
  stripCodeClose (body ++ js "</code>") = body.
Proof.
  unfold stripCodeClose. rewrite rev_app_distr, startsWith_i_app.
  rewrite length_app. change (length (js "</code>")) with 7%nat.
  rewrite Nat.add_sub. by rewrite take_app_length.
Qed.

Lemma matchLanguage_skip c s :
  startsWith_i (c :: s) (js "language-") = false ->
  matchLanguage (c :: s) = matchLanguage s.
Proof. intros H. cbn [matchLanguage]. by rewrite H. Qed.

Lemma matchLanguage_here s :
  matchLanguage (js "language-" ++ s) = Some (takeWhile isWord s).
Proof.
  change (js "language-" ++ s) with (108 :: (js "anguage-" ++ s)) at 1.
  cbn [matchLanguage].
  change (108 :: (js "anguage-" ++ s)) with (js "language-" ++ s).
  by rewrite startsWith_i_app.
Qed.

(** X7.  A code block as the hypertext writes it, a [code] element
    whose class names a language, comes out as the language, a line
    feed if the code does not begin with one, and the code without the
    tags around it. *)
Theorem parsePreContent_language_block :
  forall lang body,
    forallb isWord lang = true ->
    let attrs := js " class=" ++ [34] ++ js "language-" ++ lang ++ [34] in
    parsePreContent (js "<code" ++ attrs ++ js ">" ++ body ++ js "</code>")
    = lang ++ ensureLeadingNewline body.
Proof.
  intros lang body Hlang attrs.
  set (tail := body ++ js "</code>").
  assert (takeWhile (fun c => negb (c =? 62)) (attrs ++ js ">" ++ tail) = attrs)
    as Hgroup.
  { apply takeWhile_app_stop; [|reflexivity]. unfold attrs.
    rewrite !forallb_app. rewrite (isWord_not_gt lang Hlang). reflexivity. }
  assert (matchLanguage attrs = Some lang) as Hl.
  { unfold attrs.
    change (js " class=" ++ [34] ++ js "language-" ++ lang ++ [34])
      with (js " class=" ++ [34] ++ (js "language-" ++ lang ++ [34])).
    change (js " class=" ++ [34] ++ (js "language-" ++ lang ++ [34]))
      with (32 :: 99 :: 108 :: 97 :: 115 :: 115 :: 61 :: 34
              :: (js "language-" ++ lang ++ [34])).
    rewrite !matchLanguage_skip by reflexivity.
    rewrite matchLanguage_here. by rewrite takeWhile_app_stop. }
  unfold parsePreContent, matchCodeOpen.
  change (startsWith_i (js "<code" ++ attrs ++ js ">" ++ tail) (js "<code")) with true.
  cbv iota.
  change (drop 5 (js "<code" ++ attrs ++ js ">" ++ tail))
    with (attrs ++ js ">" ++ tail).
  rewrite Hgroup, drop_app_length.
  change (js ">" ++ tail) with (62 :: tail). cbv iota. rewrite Hl.
  assert (js "<code" ++ attrs ++ 62 :: tail = (js "<code" ++ attrs ++ [62]) ++ tail)
    as -> by (by rewrite <- !app_assoc).
  assert (length (js "<code" ++ attrs ++ [62]) = (5 + length attrs + 1)%nat) as <-.
  { rewrite !length_app. cbn. lia. }
  rewrite take_app_length, drop_app_length.
  unfold tail. by rewrite stripCodeClose_closed.
Qed.

End MorePre.

Lemma user_pill_resolves_witness :
  walkNode Samples.noEmoji Samples.noText defaultOpts Samples.guild1234
    (MoreSamples.anchor "https://matrix.to/#/@_discord_12345:localhost" "TestUsername")
  = js "<@12345>".
Proof.
  apply (user_pill_resolves Samples.noEmoji Samples.noText defaultOpts
           Samples.guild1234 _ _ (js "12345") (js ":localhost")
           {| member_id := js "12345" |});
    vm_compute; reflexivity.
Defined.

Lemma channel_pill_is_token_or_href_witness :
  let out :=
    walkNode Samples.noEmoji Samples.noText defaultOpts Samples.guild1234
      (MoreSamples.anchor "https://matrix.to/#/#_discord_1234_789:localhost"
         "#SomeChannel") in
  out = MATRIX_TO_LINK ++ 35 :: js "_discord_1234_789:localhost"
  \/ exists id channel,
       channels Samples.guild1234 !! id = Some channel
       /\ out = js "<#" ++ id ++ js ">".
Proof.
  apply (channel_pill_is_token_or_href Samples.noEmoji Samples.noText defaultOpts
           Samples.guild1234 _ _ (js "_discord_1234_789:localhost")).
  vm_compute; reflexivity.
Defined.

Lemma channel_pill_resolves_witness :
  walkNode Samples.noEmoji Samples.noText defaultOpts MoreSamples.guildWithChannel
    (MoreSamples.anchor "https://matrix.to/#/#_discord_1234_3333:localhost"
       "#SomeChannel")
  = js "<#3333>".
Proof.
  apply (channel_pill_resolves Samples.noEmoji Samples.noText defaultOpts
           MoreSamples.guildWithChannel _ _ (js "1234") (js "3333") (js ":localhost")
           {| channel_id := js "3333" |});
    vm_compute; reflexivity.
Defined.

Lemma other_anchor_is_its_children_witness :
  walkNode Samples.noEmoji Samples.noText defaultOpts Samples.guild1234
    (MoreSamples.anchor "http://example.com" "*link*")
  = walkChildNodes Samples.noEmoji Samples.noText defaultOpts Samples.guild1234
      (MoreSamples.anchor "http://example.com" "*link*").
Proof.
  apply (other_anchor_is_its_children Samples.noEmoji Samples.noText defaultOpts
           Samples.guild1234);
    intros rest; vm_compute; discriminate.
Defined.

Lemma parsePreContent_language_block_witness :
  parsePreContent
    (js "<code" ++ (js " class=" ++ [34] ++ js "language-" ++ js "js" ++ [34])
       ++ js ">" ++ js "const hacker = 1337;" ++ js "</code>")
  = js "js" ++ ensureLeadingNewline (js "const hacker = 1337;").
Proof.
  apply (parsePreContent_language_block (js "js") (js "const hacker = 1337;")).
  vm_compute; reflexivity.
Defined.

Section MoreImages.

Variable GetEmojiByMxc : jsstring -> option DbEmoji.
Variable elementText : Node -> jsstring.
Variable opts : MatrixMessageProcessorOpts.


(** X9.  The display name of the sender goes into an emote only when it
    is two to thirty-two code units long; with any other name the emote
    is rendered as for a sender without a profile. *)
Theorem emote_name_bounds :
  forall parse msg guild name,
    msgtype msg = js "m.emote" ->
    FormatMessage GetEmojiByMxc parse elementText opts msg guild
      (Some {| displayname := Some name |})
    = if bool_decide (2 <= length name <= 32)%nat
      then js "_" ++ name ++ js " "
             ++ removelast
                  (tail (FormatMessage GetEmojiByMxc parse elementText opts msg guild None))
             ++ js "_"
      else FormatMessage GetEmojiByMxc parse elementText opts msg guild None.
Proof.
  intros parse msg guild name Hm. unfold FormatMessage. rewrite Hm.
  change (eqb (js "m.emote") (js "m.emote")) with true. cbv iota.
  cbn [displayname].
  set (reply := if truthy (formatted_body msg) then _ else _).
  change (js "_" ++ reply ++ js "_") with (95 :: (reply ++ [95])).
  cbn [tail]. rewrite removelast_last.
  unfold MIN_NAME_LENGTH, MAX_NAME_LENGTH.
  destruct name as [|c name]; [done|].
  change (truthy (Some (c :: name))) with true. cbn [andb].
  destruct (decide (2 <= length (c :: name) <= 32)%nat) as [[H1 H2]|H].
  - rewrite (bool_decide_eq_true_2 _ H1), (bool_decide_eq_true_2 _ H2).
    rewrite bool_decide_eq_true_2 by done. reflexivity.
  - rewrite (bool_decide_eq_false_2 _ H).
    destruct (decide (2 <= length (c :: name))%nat) as [H1|H1].
    + rewrite (bool_decide_eq_true_2 _ H1).
      assert (~ (length (c :: name) <= 32)%nat) as H2 by lia.
      rewrite (bool_decide_eq_false_2 _ H2). reflexivity.
    + by rewrite (bool_decide_eq_false_2 _ H1).
Qed.

End MoreImages.

Lemma emote_name_bounds_witness :
  FormatMessage Samples.noEmoji Samples.noParser Samples.noText defaultOpts
    (Samples.emoteMessage "waves") Samples.guild1234
    (Some {| displayname := Some (js "Alice") |})
  = js "_Alice waves_".
Proof.
  exact (emote_name_bounds Samples.noEmoji Samples.noText defaultOpts
           Samples.noParser (Samples.emoteMessage "waves") Samples.guild1234
           (js "Alice") eq_refl).
Defined.

(* ===================================================================== *)
(** * Further properties of the event processor                          *)
(* ===================================================================== *)

Section Returns.

Context {E : Type -> Type} {S W : Type}.

Lemma returnsOnly_bind {A B : Type} (Q : A -> Prop) (P : B -> Prop)
    (p : Prog E S A) (f : A -> Prog E S B) :
  returnsOnly Q p -> (forall a, Q a -> returnsOnly P (f a)) ->
  returnsOnly P (bind p f).
Proof.
  intros Hp Hf.
  induction p as [a|e| |X call k IH|k IH|s k IH|child k IH] using prog_ind;
    cbn [bind returnsOnly] in *; try done; try (intros x; by apply IH);
    by apply IH || by apply Hf.
Qed.


Lemma returnsOnly_weaken {A : Type} (Q P : A -> Prop) (p : Prog E S A) :
  (forall a, Q a -> P a) -> returnsOnly Q p -> returnsOnly P p.
Proof.
  intros HQP.
  induction p as [a|e| |X call k IH|k IH|s k IH|child k IH] using prog_ind;
    cbn [returnsOnly]; try done; auto.
Qed.

Lemma returnsOnly_True {A : Type} (p : Prog E S A) : returnsOnly (fun _ => True) p.
Proof. induction p using prog_ind; cbn [returnsOnly]; auto. Qed.

Lemma returnsOnly_exec {A : Type} (P : A -> Prop) (env : Env E W) (p : Prog E S A)
    this w calls forked a :
  returnsOnly P p ->
  run_outcome (exec env p this w calls forked) = Returned a -> P a.
Proof.
  revert this w calls forked.
  induction p as [b|e| |X call k IH|k IH|s k IH|child k IH] using prog_ind;
    intros this w calls forked Hp; cbn [exec returnsOnly run_outcome] in *;
    try done.
  - by intros [= <-].
  - destruct (env X call w) as [r w']. by apply IH.
  - by apply IH.
  - by apply IH.
  - by apply IH.
Qed.

End Returns.

Section MoreEventProcessor.

Variable isRemoteUser : jsstring -> bool.
Variable localpart : jsstring -> jsstring.
Variable mxcUrlToHttp : option jsstring -> jsstring.
Variable mxcUrlToHttpSized : option jsstring -> Z -> Z -> jsstring.
Variable path_extname : jsstring -> jsstring.
Variable path_basename : jsstring -> jsstring.
Variable mime_extension : option jsstring -> jsstring.

(** X10.  Looking up the profile of a sender never fails the rendering
    of the message: whatever the cache, the room state and the profile
    request answer, errors included, [GetUserProfileForRoom] returns (a
    profile or none), after five calls at most, the first of which asks
    the cache for the profile of the user in the room. *)
Theorem profile_lookup_never_raises :
  forall (roomId userId : jsstring) (W : Type) (env : Env MatrixEventProcessor.Call W) (w : W),
    let r := run env (GetUserProfileForRoom roomId userId) tt w in
    (exists profile, run_outcome r = Returned profile)
    /\ (length (run_calls r) <= 5)%nat
    /\ head (run_calls r)
       = Some (called (mxUserProfileCache_get (roomId ++ js ":" ++ userId))).
Proof.
  intros roomId userId W env w. unfold run, GetUserProfileForRoom.
  cbn [bind await try_catch exec].
  repeat
    match goal with
    | |- context [env ?X ?c ?w0] =>
        destruct (env X c w0) as [[[?|]|?] ?] || destruct (env X c w0) as [[?|?] ?];
        cbn [bind await try_catch exec]
    end;
    cbn; (split; [by eexists|split; [lia|reflexivity]]).
Qed.

(** X11.  A profile that the cache holds for the user in the room is
    the answer, and nothing else is asked: neither the room state nor
    the profile of the user is requested. *)
Theorem cached_profile_needs_no_request :
  forall (roomId userId : jsstring) (W : Type) (env : Env MatrixEventProcessor.Call W) (w w' : W)
         (profile : ProfileInfo),
    env _ (mxUserProfileCache_get (roomId ++ js ":" ++ userId)) w
    = (Ok (Some profile), w') ->
    run env (GetUserProfileForRoom roomId userId) tt w
    = Build_Run (Returned (Some profile)) tt w'
        [called (mxUserProfileCache_get (roomId ++ js ":" ++ userId))] [].
Proof.
  intros roomId userId W env w w' profile Henv.
  unfold run, GetUserProfileForRoom. cbn [bind await try_catch exec].
  by rewrite Henv.
Qed.


Lemma SetEmbedAuthor_keeps_the_rest embed sender profile :
  returnsOnly
    (fun e => fields e = fields embed /\ description e = description embed)
    (SetEmbedAuthor isRemoteUser localpart mxcUrlToHttpSized embed sender profile).
Proof.
  unfold SetEmbedAuthor. cbv zeta.
  destruct (isRemoteUser sender); cbn [bind await returnsOnly]; [|done].
  intros [[| |]|e]; by cbn.
Qed.





End MoreEventProcessor.

Section MoreEventProcessorRuns.

Variable isRemoteUser : jsstring -> bool.
Variable localpart : jsstring -> jsstring.
Variable mxcUrlToHttp : option jsstring -> jsstring.
Variable mxcUrlToHttpSized : option jsstring -> Z -> Z -> jsstring.
Variable path_extname : jsstring -> jsstring.
Variable path_basename : jsstring -> jsstring.
Variable mime_extension : option jsstring -> jsstring.


(** X15.  A reply to a file, an audio or a video message whose content
    has no [info] and whose body has no extension is shown with the
    fallback embed: the file name cannot be built, and that error is
    caught like a failed fetch. *)
Theorem reply_to_file_without_info_falls_back :
  forall (d : nat) (event sourceEvent : IMatrixEvent) (channel : TextChannel)
         (eventId t body : jsstring) (scontent : IMatrixEventContent)
         (W : Type) (env : Env MatrixEventProcessor.Call W) (w w' : W),
    replyTarget event = Some eventId ->
    env _ (intent_getEvent (room_id event) eventId) w = (Ok sourceEvent, w') ->
    content sourceEvent = Some scontent ->
    c_msgtype scontent = Some t ->
    t = js "m.file" \/ t = js "m.audio" \/ t = js "m.video" ->
    eqb (type sourceEvent) (js "m.sticker") = false ->
    c_info scontent = None ->
    c_body scontent = Some body ->
    body <> [] ->
    path_extname body = [] ->
    run_outcome
      (run env
         (GetEmbedForReply isRemoteUser localpart mxcUrlToHttp mxcUrlToHttpSized
            path_extname path_basename mime_extension (2 + d) event channel) tt w)
    = Returned (Some fallbackEmbed).
Proof.
  intros d event sourceEvent channel eventId t body scontent W env w w'
    Htarget Henv Hcontent Htype Ht Hsticker Hinfo Hbody Hne Hext.
  change (2 + d)%nat with (S (S d)). remember (S d) as n eqn:Hn.
  unfold run. cbn [GetEmbedForReply EventToEmbed]. cbv zeta.
  unfold replyTarget in Htarget.
  destruct (m_relates_to (contentOf event)) as [[[[eventId']|]]|]; try done.
  injection Htarget as ->.
  rewrite exec_try_catch, exec_bind. cbn [await exec]. rewrite Henv.
  cbn [exec run_outcome run_this run_world run_calls run_forked]. cbv zeta.
  rewrite Hcontent, exec_bind. cbv zeta.
  match goal with
  | |- context [exec env (?F n ?ev ?ch false) ?this ?w0 ?calls ?forked] =>
      change (F n ev ch false)
        with (EventToEmbed isRemoteUser localpart mxcUrlToHttp mxcUrlToHttpSized
                path_extname path_basename mime_extension n ev ch false);
      pose proof (settles_exec env
                    (EventToEmbed isRemoteUser localpart mxcUrlToHttp
                       mxcUrlToHttpSized path_extname path_basename mime_extension
                       (S d) ev ch false) this w0 calls forked
                    (EventToEmbed_no_reply_settles isRemoteUser localpart
                       mxcUrlToHttp mxcUrlToHttpSized path_extname path_basename
                       mime_extension d ev ch)) as Hsettles;
      rewrite <- Hn in Hsettles;
      destruct (exec env
                  (EventToEmbed isRemoteUser localpart mxcUrlToHttp
                     mxcUrlToHttpSized path_extname path_basename mime_extension
                     n ev ch false)
                  this w0 calls forked) as [[res|e'|] this1 w1 calls1 forked1]
  end; cbn [run_outcome run_this run_world run_calls run_forked] in *; try done.
  unfold HasAttachment, contentOf.
  cbn [content c_msgtype type default from_option id]. rewrite Htype, Hsticker.
  cbv iota.
  assert (eqb t (js "m.image") || eqb t (js "m.sticker") = false
          /\ eqb t (js "m.image") || eqb t (js "m.audio") || eqb t (js "m.video")
             || eqb t (js "m.file") || eqb t (js "m.sticker") = true) as [-> ->]
    by (destruct Ht as [-> | [-> | ->]]; by vm_compute).
  cbn [orb]. unfold GetFilenameForMediaEvent. cbn [c_info c_body].
  rewrite Hinfo, Hbody. destruct body as [|c b]; [done|].
  change (truthy (Some (c :: b))) with true. cbv iota. rewrite Hext.
  reflexivity.
Qed.

Lemma EventToEmbed_sticker_unformatted d event channel (getReply : bool) :
  eqb (type event) (js "m.sticker") = true ->
  callsAtMost isFormatMessage (fun _ => True) (if getReply then 1 else 0)%nat
    (EventToEmbed isRemoteUser localpart mxcUrlToHttp mxcUrlToHttpSized path_extname
       path_basename mime_extension (S (S (S d))) event channel getReply).
Proof.
  intros Hsticker.
  assert (forall roomId userId n,
            callsAtMost isFormatMessage (fun _ => True) n
              (GetUserProfileForRoom roomId userId)) as Hprofile.
  { intros roomId userId n. apply (callsAtMost_mono _ _ _ 0); [lia|].
    unfold GetUserProfileForRoom. count_calls. }
  assert (forall embed sender profile n,
            callsAtMost isFormatMessage (fun _ => True) n
              (SetEmbedAuthor isRemoteUser localpart mxcUrlToHttpSized embed sender
                 profile)) as Hauthor.
  { intros embed sender profile n. apply (callsAtMost_mono _ _ _ 0); [lia|].
    unfold SetEmbedAuthor. cbv zeta. count_calls. }
  assert (forall content n,
            callsAtMost isFormatMessage (fun _ => True) n
              (GetFilenameForMediaEvent path_extname path_basename mime_extension
                 content)) as Hname.
  { intros content n. apply (callsAtMost_mono _ _ _ 0); [lia|].
    unfold GetFilenameForMediaEvent. cbv zeta. count_calls. }
  cbn [EventToEmbed]. cbv zeta. rewrite Hsticker. cbn [negb].
  apply (callsAtMost_bind _ _ _ _ 0 _); [apply Hprofile|intros profile].
  cbn [bind].
  apply (callsAtMost_bind _ _ _ _ 0 _); [apply Hauthor|intros embed].
  replace (if getReply then 1 else 0)%nat with ((if getReply then 1 else 0) + 0)%nat
    by (destruct getReply; reflexivity).
  apply callsAtMost_bind; [|intros re; count_calls].
  destruct getReply; [|exact I].
  cbn [GetEmbedForReply]. cbv zeta.
  destruct (m_relates_to (contentOf event)) as [[[[eventId]|]]|]; try exact I.
  apply (callsAtMost_try_catch _ _ _ _ 1 0); [|intros e; exact I].
  apply (callsAtMost_bind _ _ _ _ 0 1); [count_calls|intros sourceEvent].
  destruct (content sourceEvent) as [scontent|]; [|exact I].
  apply (callsAtMost_bind _ _ _ _ 1 0).
  - cbn [EventToEmbed]. cbv zeta.
    apply (callsAtMost_bind _ _ _ _ 0 1); [apply Hprofile|intros profile'].
    apply (callsAtMost_bind _ _ _ _ 1 0).
    + destruct (negb _); [|exact I]. cbn. split; [done|]. intros [x|e]; exact I.
    + intros body. apply (callsAtMost_bind _ _ _ _ 0 0); [apply Hauthor|].
      intros embed'. count_calls.
  - intros res.
    repeat first [apply Hname | count_step].
Qed.

Lemma EventToEmbed_sticker_description d event channel (getReply : bool) :
  eqb (type event) (js "m.sticker") = true ->
  returnsOnly
    (fun res =>
       description (messageEmbed res) = Some []
       \/ exists ping, getReply = true
                       /\ description (messageEmbed res)
                          = Some ([10] ++ js "(" ++ ping ++ js ")"))
    (EventToEmbed isRemoteUser localpart mxcUrlToHttp mxcUrlToHttpSized path_extname
       path_basename mime_extension (S (S (S d))) event channel getReply).
Proof.
  intros Hsticker. cbn [EventToEmbed]. cbv zeta. rewrite Hsticker. cbn [negb].
  apply (returnsOnly_bind (fun _ => True)); [apply returnsOnly_True|].
  intros profile _. cbn [bind].
  eapply returnsOnly_bind; [apply SetEmbedAuthor_keeps_the_rest|].
  intros embed [_ Hd]. cbn [description setDescription] in Hd.
  apply (returnsOnly_bind (fun o => o <> None -> getReply = true)).
  { destruct getReply; [|by cbn].
    apply (returnsOnly_weaken (fun _ => True)); [done|apply returnsOnly_True]. }
  intros [re|] Hre; [|by left].
  destruct (movePing (fields re)) as [[value rest]|]; cbn; [|by left].
  right. exists value. split; [by apply Hre|].
  unfold appendDescription. by rewrite Hd.
Qed.

(** X16.  A sticker is not handed to the message processor: without
    reply resolution the run makes no call of [FormatMessage], with it
    one at most (the nested rendering of the quoted message), and the
    description of the embed of the sticker is empty or, with reply
    resolution, a ping in parentheses on a line of its own. *)
Theorem sticker_is_not_formatted :
  forall (d : nat) (event : IMatrixEvent) (channel : TextChannel) (getReply : bool)
         (W : Type) (env : Env MatrixEventProcessor.Call W) (w : W),
    type event = js "m.sticker" ->
    let r :=
      run env
        (EventToEmbed isRemoteUser localpart mxcUrlToHttp mxcUrlToHttpSized
           path_extname path_basename mime_extension (3 + d) event channel getReply)
        tt w in
    (length (filter (fun c => isFormatMessage c = true) (run_calls r))
     <= (if getReply then 1 else 0))%nat
    /\ forall res,
         run_outcome r = Returned res ->
         description (messageEmbed res) = Some []
         \/ exists ping, getReply = true
                         /\ description (messageEmbed res)
                            = Some ([10] ++ js "(" ++ ping ++ js ")").
Proof.
  intros d event channel getReply W env w Htype r. unfold r, run.
  change (3 + d)%nat with (S (S (S d))).
  assert (eqb (type event) (js "m.sticker") = true) as Hsticker
    by (rewrite Htype; reflexivity).
  split.
  - destruct (callsAtMost_exec isFormatMessage (fun _ => True) env _ _ tt w [] []
                (EventToEmbed_sticker_unformatted d event channel getReply Hsticker))
      as (new & -> & Hlen & _).
    exact Hlen.
  - intros res.
    apply (returnsOnly_exec _ env _ tt w [] [] res
             (EventToEmbed_sticker_description d event channel getReply Hsticker)).
Qed.

End MoreEventProcessorRuns.

Lemma cached_profile_needs_no_request_witness :
  run (ProcessorSamples.serving ProcessorSamples.remoteEvent
         (Some ProcessorSamples.aliceProfile))
    (GetUserProfileForRoom Samples.room (js "@alice:hs")) tt tt
  = Build_Run (Returned (Some ProcessorSamples.aliceProfile)) tt tt
      [called (mxUserProfileCache_get (Samples.room ++ js ":" ++ js "@alice:hs"))] [].
Proof.
  apply (cached_profile_needs_no_request Samples.room (js "@alice:hs") unit
           (ProcessorSamples.serving ProcessorSamples.remoteEvent
              (Some ProcessorSamples.aliceProfile)) tt tt
           ProcessorSamples.aliceProfile).
  reflexivity.
Defined.



Lemma reply_to_file_without_info_falls_back_witness :
  run_outcome
    (run (ProcessorSamples.serving ProcessorSamples.fileEvent None)
       (GetEmbedForReply Samples.isRemoteUser ProcessorSamples.localpart
          Samples.mxcUrlToHttp Samples.mxcUrlToHttpSized Samples.path_extname
          Samples.path_basename Samples.mime_extension 2 Samples.replyEvent
          Samples.channel) tt tt)
  = Returned (Some fallbackEmbed).
Proof.
  refine (reply_to_file_without_info_falls_back Samples.isRemoteUser
            ProcessorSamples.localpart Samples.mxcUrlToHttp Samples.mxcUrlToHttpSized
            Samples.path_extname Samples.path_basename Samples.mime_extension
            0 Samples.replyEvent ProcessorSamples.fileEvent Samples.channel
            (js "$1") (js "m.file") (js "notes") _ unit
            (ProcessorSamples.serving ProcessorSamples.fileEvent None) tt tt
            _ _ _ _ _ _ _ _ _ _).
  - reflexivity.
  - reflexivity.
  - reflexivity.
  - reflexivity.
  - left. reflexivity.
  - reflexivity.
  - reflexivity.
  - reflexivity.
  - discriminate.
  - reflexivity.
Defined.

Lemma sticker_is_not_formatted_witness :
  let r :=
    run (ProcessorSamples.serving ProcessorSamples.remoteEvent None)
      (EventToEmbed Samples.isRemoteUser ProcessorSamples.localpart
         Samples.mxcUrlToHttp Samples.mxcUrlToHttpSized Samples.path_extname
         Samples.path_basename Samples.mime_extension 3 ProcessorSamples.stickerEvent
         Samples.channel false) tt tt in
  (length (filter (fun c => isFormatMessage c = true) (run_calls r)) <= 0)%nat
  /\ forall res,
       run_outcome r = Returned res ->
       description (messageEmbed res) = Some []
       \/ exists ping, false = true
                       /\ description (messageEmbed res)
                          = Some ([10] ++ js "(" ++ ping ++ js ")").
Proof.
  apply (sticker_is_not_formatted Samples.isRemoteUser ProcessorSamples.localpart
           Samples.mxcUrlToHttp Samples.mxcUrlToHttpSized Samples.path_extname
           Samples.path_basename Samples.mime_extension 0
           ProcessorSamples.stickerEvent Samples.channel false unit
           (ProcessorSamples.serving ProcessorSamples.remoteEvent None) tt).
  reflexivity.
Defined.

(* ===================================================================== *)
(** * Further properties of the bot                                      *)
(* ===================================================================== *)

Section MoreBot.

Variable config : DiscordBridgeConfig.
Variable botUserId : jsstring.
Variable HasPendingRequest : jsstring -> bool.

Context {W : Type}.
Variable env : Env Call W.

Implicit Types (this : Bot) (a : list (option jsstring)) (x : jsstring)
  (rows : list DbEvent).


Lemma deleteEach_runs sender rows :
  (forall g c s w0, exists chan, fst (env _ (LookupRoom g c s) w0) = Ok chan) ->
  (forall chan id w0, exists m, fst (env _ (chan_fetchMessage chan id) w0) = Ok m) ->
  forall this w calls forked,
  exists w' new,
    exec env (deleteEach sender rows) this w calls forked
    = Build_Run (Returned tt) this w' (calls ++ new) forked
    /\ lookupsOf new
       = map (fun row => (GuildId row, ChannelId row, Some sender)) rows
    /\ length (deletesOf new) = length rows.
Proof.
  intros Hlookup Hfetch.
  induction rows as [|row rows IH]; intros this w calls forked.
  - exists w, []. by rewrite app_nil_r.
  - cbn [deleteEach]. rewrite exec_await_bind.
    destruct (Hlookup (GuildId row) (ChannelId row) (Some sender) w) as [chan Hc].
    destruct (env _ (LookupRoom (GuildId row) (ChannelId row) (Some sender)) w)
      as [r1 w1]. cbn [fst] in Hc. subst r1.
    rewrite exec_await_bind.
    destruct (Hfetch chan (DiscordId row) w1) as [m Hm].
    destruct (env _ (chan_fetchMessage chan (DiscordId row)) w1) as [r2 w2].
    cbn [fst] in Hm. subst r2.
    cbn [await try_catch bind exec].
    destruct (env _ (msg_delete m) w2) as [[[]|e] w3]; cbn [try_catch bind];
      (destruct (IH this w3
                   (((calls ++ [called (LookupRoom (GuildId row) (ChannelId row)
                                          (Some sender))])
                       ++ [called (chan_fetchMessage chan (DiscordId row))])
                      ++ [called (msg_delete m)]) forked)
         as (w' & new & -> & Hl & Hd);
       exists w',
         (called (LookupRoom (GuildId row) (ChannelId row) (Some sender))
            :: called (chan_fetchMessage chan (DiscordId row))
            :: called (msg_delete m) :: new);
       split; [by rewrite <- !app_assoc|];
       split; [cbn; by rewrite <- Hl|cbn; by rewrite <- Hd]).
Qed.

(** X18.  When the channels and the messages of the rows can be looked
    up, a redaction goes through every row that the store holds for the
    redacted event, in order, and asks for one deletion per row: a
    deletion that fails is logged and the loop goes on, and the
    redaction returns. *)
Theorem redaction_deletes_every_row :
  forall (event : RedactEvent) this (w w1 : W) rows,
    disableDeletionForwarding config = false ->
    env _ (store_Get_DbEvent (redacts event ++ js ";" ++ redact_room_id event)) w
    = (Ok rows, w1) ->
    (forall g c s w0, exists chan, fst (env _ (LookupRoom g c s) w0) = Ok chan) ->
    (forall chan id w0, exists m, fst (env _ (chan_fetchMessage chan id) w0) = Ok m) ->
    let r := run env (ProcessMatrixRedact config event) this w in
    run_outcome r = Returned tt
    /\ lookupsOf (run_calls r)
       = map (fun row => (GuildId row, ChannelId row, Some (redact_sender event))) rows
    /\ length (deletesOf (run_calls r)) = length rows
    /\ run_this r = this.
Proof.
  intros event this w w1 rows Hcfg Hget Hlookup Hfetch r.
  unfold r, run, ProcessMatrixRedact. rewrite Hcfg, exec_await_bind, Hget.
  destruct (deleteEach_runs (redact_sender event) rows Hlookup Hfetch this w1
              ([] ++ [called (store_Get_DbEvent
                                (redacts event ++ js ";" ++ redact_room_id event))])
              []) as (w' & new & Hrun & Hl & Hd).
  destruct rows as [|row rows]; [by cbn|].
  rewrite Hrun. cbn [run_outcome run_calls run_this app].
  by rewrite <- Hl, <- Hd.
Qed.

(** X19.  A row whose channel cannot be looked up ends the redaction:
    it raises the error of the look-up, and neither this row nor any
    row behind it is fetched or deleted. *)
Theorem redaction_stops_at_a_failed_lookup :
  forall (event : RedactEvent) this (w w1 w2 : W) (row : DbEvent) rows (e : Error),
    disableDeletionForwarding config = false ->
    env _ (store_Get_DbEvent (redacts event ++ js ";" ++ redact_room_id event)) w
    = (Ok (row :: rows), w1) ->
    env _ (LookupRoom (GuildId row) (ChannelId row) (Some (redact_sender event))) w1
    = (Err e, w2) ->
    run env (ProcessMatrixRedact config event) this w
    = Build_Run (Raised e) this w2
        [called (store_Get_DbEvent (redacts event ++ js ";" ++ redact_room_id event));
         called (LookupRoom (GuildId row) (ChannelId row) (Some (redact_sender event)))]
        [].
Proof.
  intros event this w w1 w2 row rows e Hcfg Hget Hlookup.
  unfold run, ProcessMatrixRedact. rewrite Hcfg, exec_await_bind, Hget.
  cbn [deleteEach]. by rewrite exec_await_bind, Hlookup.
Qed.

Lemma indexOf_app_fresh a x :
  Some x ∉ a -> indexOf (a ++ [Some x]) x = Some (length a).
Proof.
  induction a as [|y a IH]; intros Hfresh; cbn [app indexOf length].
  - by rewrite bool_decide_eq_true_2.
  - apply not_elem_of_cons in Hfresh as [Hy Ha].
    rewrite bool_decide_eq_false_2 by congruence. by rewrite IH.
Qed.

Lemma insert_app_last a (y z : option jsstring) :
  <[length a := z]> (a ++ [y]) = a ++ [z].
Proof. induction a as [|y' a IH]; [done|]. cbn. f_equal. exact IH. Qed.

(** X20.  The echo of a message that the bridge has just sent is
    swallowed, once: after [ProcessMatrixMsgEvent] has recorded the
    identifier, [OnMessage] drops the message with this identifier
    without any call, and afterwards the identifier is no longer in
    [sentMessages].  The slot stays behind as a hole, so the array has
    grown by one. *)
Theorem echo_is_swallowed_once :
  forall (event_id room_id guildId channelId : jsstring) (msg : Message) this (w : W),
    Some (msg_id msg) ∉ sentMessages this ->
    let r1 :=
      run env (recordSent event_id room_id guildId channelId [msg_id msg]) this w in
    let r2 :=
      run env (OnMessage botUserId HasPendingRequest msg) (run_this r1) (run_world r1) in
    run_outcome r2 = Returned tt
    /\ run_calls r2 = []
    /\ run_forked r2 = []
    /\ sentMessages (run_this r2) = sentMessages this ++ [None]
    /\ Some (msg_id msg) ∉ sentMessages (run_this r2).
Proof.
  intros event_id room_id guildId channelId msg this w Hfresh r1 r2.
  assert (run_this r1
          = {| sentMessages := sentMessages this ++ [Some (msg_id msg)];
               discordMessageQueue := discordMessageQueue this |}) as H1
    by reflexivity.
  unfold r2, run, OnMessage. rewrite H1. cbn [exec sentMessages].
  rewrite (indexOf_app_fresh _ _ Hfresh). cbn [exec run_outcome run_calls run_forked
    run_this sentMessages].
  rewrite insert_app_last.
  repeat (split; [reflexivity|]).
  intros [Hin|Hin%list_elem_of_singleton]%elem_of_app; [done|discriminate].
Qed.

Lemma settles_forEachFork {X : Type} (l : list X) (f : X -> Async unit)
    (k : Async unit) :
  (forall i, settles (f i)) -> settles k -> settles (forEachFork l f k).
Proof.
  intros Hf Hk. induction l as [|i l IH]; [exact Hk|].
  cbn. split; [apply Hf|apply IH].
Qed.

Lemma sendAndStore_settles msg room c : settles (sendAndStore msg room c).
Proof. unfold sendAndStore. settle. Qed.

Lemma relayToRooms_settles msg rooms : settles (relayToRooms msg rooms).
Proof.
  unfold relayToRooms.
  repeat first [apply settles_forEachFork | apply sendAndStore_settles | settle_step
               | match goal with |- _ /\ _ => split end].
Qed.

Lemma OnMessage_settles msg : settles (OnMessage botUserId HasPendingRequest msg).
Proof.
  unfold OnMessage, approvalReply. cbv zeta.
  repeat first [apply relayToRooms_settles | settle_step
               | match goal with |- _ /\ _ => split end].
Qed.

(** X21.  The task that the [message] handler puts into the queue of a
    channel never rejects: whatever [OnMessage] raises is caught and
    logged, so the promise that the next task of the channel awaits is
    always fulfilled and one failing message cannot block the channel. *)
Theorem queued_task_never_rejects :
  forall (msg : Message) (queued this : Bot) (w : W),
    run_outcome
      (run env (task_body (messageTask botUserId HasPendingRequest queued msg)) this w)
    = Returned tt.
Proof.
  intros msg queued this w. unfold run, messageTask. cbn [task_body].
  rewrite exec_try_catch. cbv zeta.
  pose proof (settles_exec env (OnMessage botUserId HasPendingRequest msg)
                this w [] [] (OnMessage_settles msg)) as Hsettles.
  destruct (run_outcome (exec env (OnMessage botUserId HasPendingRequest msg)
                           this w [] [])) as [[]|e|] eqn:Hout; [|done..].
  exact Hout.
Qed.

End MoreBot.


Lemma redaction_deletes_every_row_witness :
  let r :=
    run (BotSamples.readOnlyDiscord true)
      (ProcessMatrixRedact (Samples.config false) Samples.redaction)
      {| sentMessages := []; discordMessageQueue := ∅ |} tt in
  run_outcome r = Returned tt
  /\ lookupsOf (run_calls r)
     = map (fun row => (GuildId row, ChannelId row,
                        Some (redact_sender Samples.redaction)))
         [BotSamples.row "901"; BotSamples.row "902"]
  /\ length (deletesOf (run_calls r)) = 2%nat
  /\ run_this r = {| sentMessages := []; discordMessageQueue := ∅ |}.
Proof.
  apply (redaction_deletes_every_row (Samples.config false)
           (BotSamples.readOnlyDiscord true) Samples.redaction
           {| sentMessages := []; discordMessageQueue := ∅ |} tt tt
           [BotSamples.row "901"; BotSamples.row "902"]).
  - reflexivity.
  - reflexivity.
  - intros g c s w0. exists c. reflexivity.
  - intros chan id w0. exists id. reflexivity.
Defined.

Lemma redaction_stops_at_a_failed_lookup_witness :
  run (BotSamples.readOnlyDiscord false)
    (ProcessMatrixRedact (Samples.config false) Samples.redaction)
    {| sentMessages := []; discordMessageQueue := ∅ |} tt
  = Build_Run (Raised (js "Channel not found"))
      {| sentMessages := []; discordMessageQueue := ∅ |} tt
      [called (store_Get_DbEvent (js "$2" ++ js ";" ++ Samples.room));
       called (LookupRoom (js "1234") (js "456") (Some (js "@alice:hs")))]
      [].
Proof.
  apply (redaction_stops_at_a_failed_lookup (Samples.config false)
           (BotSamples.readOnlyDiscord false) Samples.redaction
           {| sentMessages := []; discordMessageQueue := ∅ |} tt tt tt
           (BotSamples.row "901") [BotSamples.row "902"] (js "Channel not found"));
    reflexivity.
Defined.

Lemma echo_is_swallowed_once_witness :
  let r1 :=
    run Samples.discord
      (recordSent (js "$2") Samples.room (js "1234") (js "456") [js "101"])
      {| sentMessages := [Some (js "100")]; discordMessageQueue := ∅ |} tt in
  let r2 :=
    run Samples.discord
      (OnMessage Samples.botUserId Samples.noPendingRequest (Samples.message "101" "one"))
      (run_this r1) (run_world r1) in
  run_outcome r2 = Returned tt
  /\ run_calls r2 = []
  /\ run_forked r2 = []
  /\ sentMessages (run_this r2) = [Some (js "100")] ++ [None]
  /\ Some (js "101") ∉ sentMessages (run_this r2).
Proof.
  apply (echo_is_swallowed_once Samples.botUserId Samples.noPendingRequest
           Samples.discord (js "$2") Samples.room (js "1234") (js "456")
           (Samples.message "101" "one")
           {| sentMessages := [Some (js "100")]; discordMessageQueue := ∅ |} tt).
  cbn. intros [H|H]%elem_of_cons; [discriminate|by apply elem_of_nil in H].
Defined.

(* ===================================================================== *)
(** * Further properties: the look-ups of the bot                        *)
(* ===================================================================== *)

Section MoreLookups.

Import BotLookups.

Variable bot : Client.
Variable domain : jsstring.
Variable toLowerCase : jsstring -> jsstring.

Context {W : Type}.
Variable env : Env Call W.

Lemma matchChannel_alias guildDigits digits rest :
  forallb isDigit guildDigits = true ->
  forallb isDigit digits = true ->
  stopsAt isDigit rest = true ->
  matchChannel (js "#_discord_" ++ guildDigits ++ js "_" ++ digits ++ rest)
  = Some digits.
Proof.
  intros Hg Hd Hr. unfold matchChannel. rewrite startsWith_app.
  change (drop 10 (js "#_discord_" ++ guildDigits ++ js "_" ++ digits ++ rest))
    with (guildDigits ++ js "_" ++ digits ++ rest).
  rewrite (takeWhile_app_stop isDigit guildDigits) by done.
  rewrite drop_app_length.
  change (js "_" ++ digits ++ rest) with (95 :: digits ++ rest). cbv iota.
  by rewrite takeWhile_app_stop.
Qed.

(** X22.  The aliases that a third-party search hands out are the ones
    that the message processor understands: for a guild and a channel
    with numeric ids, the channel pattern of [parseChannel] finds in
    the alias the id of the channel that the entry describes.  Every
    entry is for a channel whose name is the searched one up to case,
    a leading [#] of the search aside. *)
Theorem thirdparty_alias_parses_back :
  forall (guildId channelName : jsstring) (r : ThirdpartyResult),
    r ∈ ThirdpartySearchForChannels bot domain toLowerCase guildId channelName ->
    forallb isDigit (fields_guild_id r) = true ->
    forallb isDigit (fields_channel_id r) = true ->
    matchChannel (alias r) = Some (fields_channel_id r)
    /\ protocol r = js "discord"
    /\ toLowerCase (fields_channel_name r)
       = toLowerCase (if startsWith channelName (js "#")
                      then drop 1 channelName else channelName).
Proof.
  intros guildId channelName r Hin Hg Hc.
  unfold ThirdpartySearchForChannels in Hin. cbv zeta in Hin.
  destruct (collection_get (client_guilds bot) guildId) as [guild|];
    [|by apply elem_of_nil in Hin].
  apply list_elem_of_fmap in Hin as [kv [-> Hkv]]. cbn in *.
  apply list_elem_of_In, filter_In in Hkv as [_ Hname].
  split; [|split; [reflexivity|]].
  - by apply matchChannel_alias.
  - by apply bool_decide_eq_true in Hname.
Qed.



(** X24.  An emoji is uploaded once: for a numeric id that the store
    does not know, [GetEmoji] uploads the image from the address of the
    id at the content server of Discord, stores the row and returns the
    URL of the upload; once the store holds the row, [GetEmoji] returns
    the same URL after the look-up alone. *)
Theorem emoji_is_uploaded_once :
  forall (name id mxcUrl : jsstring) (animated : bool) (w w1 w2 w3 w4 : W),
    isNumeric id = true ->
    let url :=
      js "https://cdn.discordapp.com/emojis/" ++ id
        ++ (if animated then js ".gif" else js ".png") in
    let row :=
      {| EmojiId := id; Name := name; Animated := animated; MxcUrl := mxcUrl |} in
    env _ (store_Get_DbEmoji id) w = (Ok None, w1) ->
    env _ (Util_UploadContentFromUrl url name) w1 = (Ok mxcUrl, w2) ->
    env _ (store_Insert_DbEmoji row) w2 = (Ok tt, w3) ->
    env _ (store_Get_DbEmoji id) w3 = (Ok (Some row), w4) ->
    run env (GetEmoji name animated id) tt w
    = Build_Run (Returned mxcUrl) tt w3
        [called (store_Get_DbEmoji id); called (Util_UploadContentFromUrl url name);
         called (store_Insert_DbEmoji row)] []
    /\ run env (GetEmoji name animated id) tt w3
       = Build_Run (Returned mxcUrl) tt w4 [called (store_Get_DbEmoji id)] [].
Proof.
  intros name id mxcUrl animated w w1 w2 w3 w4 Hid url row Hget Hup Hins Hget'.
  unfold run, GetEmoji. rewrite Hid. cbn [negb]. cbv zeta.
  rewrite !exec_await_bind, Hget, Hget'. fold url.
  rewrite exec_await_bind, Hup. fold row. rewrite exec_await_bind, Hins.
  by split.
Qed.

(** X25.  Whatever the store and the upload answer, [GetEmoji] fetches
    nothing but the image of a numeric id from the content server of
    Discord: an id that is not a non-empty run of digits is refused
    before any call is made. *)
Theorem emoji_is_fetched_for_numeric_ids_only :
  forall (name id url name' : jsstring) (animated : bool) (w : W),
    let r := run env (GetEmoji name animated id) tt w in
    (isNumeric id = false ->
     r = Build_Run (Raised (js "Non-numerical ID")) tt w [] [])
    /\ (called (Util_UploadContentFromUrl url name') ∈ run_calls r ->
        isNumeric id = true
        /\ name' = name
        /\ url = js "https://cdn.discordapp.com/emojis/" ++ id
                   ++ (if animated then js ".gif" else js ".png")).
Proof.
  intros name id url name' animated w r. unfold r, run, GetEmoji.
  destruct (isNumeric id); cbn [negb].
  - split; [done|]. cbv zeta. rewrite exec_await_bind.
    assert (forall c : Called Call,
              called (Util_UploadContentFromUrl url name') = c ->
              isUpload c = true) as Hup by (by intros c <-).
    assert (forall (c1 c2 : Called Call) (calls : list (Called Call)),
              called (Util_UploadContentFromUrl url name') ∈ c1 :: calls ->
              isUpload c1 = false ->
              called (Util_UploadContentFromUrl url name') ∈ calls) as Hskip.
    { intros c1 c2 calls [Heq|Hin]%elem_of_cons Hc1; [|done].
      apply Hup in Heq. congruence. }
    destruct (env _ (store_Get_DbEmoji id) w) as [[[row|]|e] w1];
      cbn [exec run_calls app].
    + intros [Heq|Hin%elem_of_nil]%elem_of_cons; [|done]. by apply Hup in Heq.
    + rewrite exec_await_bind.
      destruct (env _ (Util_UploadContentFromUrl _ name) w1) as [[mxcUrl|e] w2];
        [rewrite exec_await_bind;
         destruct (env _ (store_Insert_DbEmoji _) w2) as [[[]|e] w3]|];
        cbn [exec run_calls app];
        intros Hin; apply (Hskip _ (called (store_Get_DbEmoji id))) in Hin;
        try reflexivity;
        apply elem_of_cons in Hin as [Heq|Hin];
        try (injection Heq as -> ->; done);
        try (apply elem_of_cons in Hin as [Heq|Hin]; [by apply Hup in Heq|]);
        by apply elem_of_nil in Hin.
    + intros [Heq|Hin%elem_of_nil]%elem_of_cons; [|done]. by apply Hup in Heq.
  - split; [done|]. cbn. by intros Hin%elem_of_nil.
Qed.

Lemma split_without (s : jsstring) (sep : N) : sep ∉ s -> split s sep = [s].
Proof.
  induction s as [|c s IH]; [done|]. intros [Hc Hs]%not_elem_of_cons.
  cbn [split]. rewrite (proj2 (N.eqb_neq c sep)) by congruence. by rewrite IH.
Qed.

Lemma split_pair (a b : jsstring) (sep : N) :
  sep ∉ a -> sep ∉ b -> split (a ++ sep :: b) sep = [a; b].
Proof.
  intros Ha Hb. induction a as [|c a IH]; cbn [app split].
  - by rewrite N.eqb_refl, split_without.
  - apply not_elem_of_cons in Ha as [Hc Ha].
    rewrite (proj2 (N.eqb_neq c sep)) by congruence. by rewrite IH.
Qed.

Lemma redactEach_runs author (pairs : list (jsstring * jsstring)) (msg : DiscordBot.Message) :
  Forall (fun p => (59 ∉ fst p) /\ (59 ∉ snd p)) pairs ->
  (forall a r e w0, fst (env _ (client_redactEvent a r e) w0) = Ok tt) ->
  forall w calls,
  exists w' new,
    exec env (redactEach author ((fun p => DiscordBot.dbEventFor (fst p) (snd p) msg) <$> pairs))
      tt w calls []
    = Build_Run (Returned tt) tt w' (calls ++ new) []
    /\ redactionsOf new = (fun p => (Some (snd p), Some (fst p))) <$> pairs.
Proof.
  intros Hpairs Hredact. induction Hpairs as [|[res room] pairs [Hres Hroom] _ IH];
    intros w calls.
  - exists w, []. by rewrite app_nil_r.
  - cbn [fmap list_fmap redactEach DiscordBot.dbEventFor DiscordBot.MatrixId fst snd].
    cbn [fst snd] in Hres, Hroom.
    change (res ++ js ";" ++ room) with (res ++ 59 :: room).
    rewrite split_pair by done. cbn [lookup list_lookup].
    rewrite exec_await_bind.
    pose proof (Hredact author (Some room) (Some res) w) as Hok.
    destruct (env _ (client_redactEvent author (Some room) (Some res)) w) as [r1 w1].
    cbn [fst] in Hok. subst r1.
    destruct (IH w1 (calls ++ [called (client_redactEvent author (Some room)
                                         (Some res))]))
      as (w' & new & Hrun & Hnew).
    exists w', (called (client_redactEvent author (Some room) (Some res)) :: new).
    split; [|cbn; f_equal; exact Hnew].
    rewrite <- app_assoc in Hrun. exact Hrun.
Qed.

(** X26.  What the bridge stored when it relayed a Discord message is
    what it redacts when the message is deleted: for rows written as
    [dbEventFor] writes them (the Matrix event id, a semicolon, the
    room id), [DeleteDiscordMessage] asks for the redaction of that
    event in that room, row by row, as long as neither id holds a
    semicolon. *)
Theorem deletion_redacts_what_was_stored :
  forall (msg : DiscordBot.Message) (pairs : list (jsstring * jsstring)) (w w1 : W),
    Forall (fun p => (59 ∉ fst p) /\ (59 ∉ snd p)) pairs ->
    env _ (store_Get_DbEvent_by_discord_id (DiscordBot.msg_id msg)) w
    = (Ok ((fun p => DiscordBot.dbEventFor (fst p) (snd p) msg) <$> pairs), w1) ->
    (forall a r e w0, fst (env _ (client_redactEvent a r e) w0) = Ok tt) ->
    let r := run env (DeleteDiscordMessage msg) tt w in
    run_outcome r = Returned tt
    /\ redactionsOf (run_calls r) = (fun p => (Some (snd p), Some (fst p))) <$> pairs.
Proof.
  intros msg pairs w w1 Hpairs Hget Hredact r.
  unfold r, run, DeleteDiscordMessage. rewrite exec_await_bind, Hget.
  destruct (redactEach_runs (DiscordBot.msg_author_id msg) pairs msg Hpairs Hredact w1
              ([] ++ [called (store_Get_DbEvent_by_discord_id (DiscordBot.msg_id msg))]))
    as (w' & new & Hrun & Hnew).
  destruct pairs as [|p pairs]; [by cbn|].
  cbn [fmap list_fmap] in *. rewrite Hrun. by cbn.
Qed.

End MoreLookups.

Lemma thirdparty_alias_parses_back_witness :
  let r :=
    {| BotLookups.alias := js "#_discord_1234_456:localhost";
       BotLookups.protocol := js "discord";
       BotLookups.fields_guild_id := js "1234";
       BotLookups.fields_channel_name := js "General";
       BotLookups.fields_channel_id := js "456" |} in
  matchChannel (BotLookups.alias r) = Some (js "456")
  /\ BotLookups.protocol r = js "discord"
  /\ LookupSamples.toLowerCase (BotLookups.fields_channel_name r)
     = LookupSamples.toLowerCase
         (if startsWith (js "#general") (js "#")
          then drop 1 (js "#general") else js "#general").
Proof.
  apply (thirdparty_alias_parses_back LookupSamples.botClient (js "localhost")
           LookupSamples.toLowerCase (js "1234") (js "#general")).
  - vm_compute. apply list_elem_of_here.
  - reflexivity.
  - reflexivity.
Defined.

Lemma emoji_is_uploaded_once_witness :
  let url := js "https://cdn.discordapp.com/emojis/" ++ js "3333333" ++ js ".png" in
  let row :=
    {| BotLookups.EmojiId := js "3333333"; BotLookups.Name := js "supercake";
       BotLookups.Animated := false; BotLookups.MxcUrl := js "mxc:" ++ url |} in
  run LookupSamples.services
    (BotLookups.GetEmoji (js "supercake") false (js "3333333")) tt ∅
  = Build_Run (Returned (js "mxc:" ++ url)) tt {[ js "3333333" := row ]}
      [called (BotLookups.store_Get_DbEmoji (js "3333333"));
       called (BotLookups.Util_UploadContentFromUrl url (js "supercake"));
       called (BotLookups.store_Insert_DbEmoji row)] []
  /\ run LookupSamples.services
       (BotLookups.GetEmoji (js "supercake") false (js "3333333")) tt
       {[ js "3333333" := row ]}
     = Build_Run (Returned (js "mxc:" ++ url)) tt {[ js "3333333" := row ]}
         [called (BotLookups.store_Get_DbEmoji (js "3333333"))] [].
Proof.
  intros url row.
  apply (emoji_is_uploaded_once LookupSamples.services (js "supercake")
           (js "3333333") (js "mxc:" ++ url) false ∅ ∅ ∅
           {[ js "3333333" := row ]} {[ js "3333333" := row ]}).
  - reflexivity.
  - reflexivity.
  - reflexivity.
  - reflexivity.
  - unfold LookupSamples.services. by rewrite lookup_singleton_eq.
Defined.

Lemma deletion_redacts_what_was_stored_witness :
  let r :=
    run LookupSamples.services
      (BotLookups.DeleteDiscordMessage (Samples.message "101" "one")) tt ∅ in
  run_outcome r = Returned tt
  /\ BotLookups.redactionsOf (run_calls r)
     = (fun p => (Some (snd p), Some (fst p))) <$> [(js "$sent", js "!room:hs")].
Proof.
  apply (deletion_redacts_what_was_stored LookupSamples.services
           (Samples.message "101" "one") [(js "$sent", js "!room:hs")] ∅ ∅).
  - constructor; [|constructor].
    split; apply (bool_decide_unpack _); vm_compute; exact I.
  - reflexivity.
  - intros a r e w0. reflexivity.
Defined.

(* ===================================================================== *)
(** * Further properties: the events of a room                           *)
(* ===================================================================== *)

Section Forks.

Context {E : Type -> Type} {S W : Type}.

Lemma forksNothing_bind {A B : Type} (p : Prog E S A) (f : A -> Prog E S B) :
  forksNothing p -> (forall a, forksNothing (f a)) -> forksNothing (bind p f).
Proof.
  intros Hp Hf.
  induction p as [a|e| |X call k IH|k IH|s k IH|child k IH] using prog_ind;
    cbn [bind forksNothing] in *; try done; try (intros x; by apply IH);
    by apply IH.
Qed.

Lemma forksNothing_try_catch {A : Type} (p : Prog E S A) (h : Error -> Prog E S A) :
  forksNothing p -> (forall e, forksNothing (h e)) -> forksNothing (try_catch p h).
Proof.
  intros Hp Hh.
  induction p as [a|e| |X call k IH|k IH|s k IH|child k IH] using prog_ind;
    cbn [try_catch forksNothing] in *; try done; try (intros x; by apply IH);
    by apply IH.
Qed.

Lemma forksNothing_await {X : Type} (call : E X) : forksNothing (S := S) (await call).
Proof. intros [x|e]; exact I. Qed.

Lemma forksNothing_exec {A : Type} (env : Env E W) (p : Prog E S A)
    this w calls forked :
  forksNothing p -> run_forked (exec env p this w calls forked) = forked.
Proof.
  revert this w calls forked.
  induction p as [a|e| |X call k IH|k IH|s k IH|child k IH] using prog_ind;
    intros this w calls forked Hp; cbn [exec forksNothing run_forked] in *;
    try done.
  - destruct (env X call w) as [r w']. by apply IH.
  - by apply IH.
  - by apply IH.
Qed.

(** The calls of a run come behind those made before it. *)
Lemma exec_calls {A : Type} (env : Env E W) (p : Prog E S A) this w calls forked :
  exists new, run_calls (exec env p this w calls forked) = calls ++ new.
Proof.
  revert this w calls forked.
  induction p as [a|e| |X call k IH|k IH|s k IH|child k IH] using prog_ind;
    intros this w calls forked; cbn [exec run_calls];
    try (exists []; by rewrite app_nil_r); try apply IH.
  destruct (env X call w) as [r w'].
  destruct (IH r this w' (calls ++ [called call]) forked) as [new ->].
  exists (called call :: new). by rewrite <- app_assoc.
Qed.

End Forks.

Ltac nofork_step :=
  first
    [ exact I
    | apply forksNothing_await
    | apply forksNothing_bind
    | apply forksNothing_try_catch
    | match goal with
      | |- forksNothing (match ?x with _ => _ end) => destruct x
      | |- forksNothing (if ?x then _ else _) => destruct x
      | |- forall _, _ => intros ?
      end
    | progress cbn [forksNothing] ].

Section MoreRouting.

Import EventRouting.

Variable disableReadReceipts : bool.
Variable botUserId : jsstring.
Variable isRemoteUser : jsstring -> bool.
Variable localpart : jsstring -> jsstring.
Variable mxcUrlToHttp : option jsstring -> jsstring.
Variable mxcUrlToHttpSized : option jsstring -> Z -> Z -> jsstring.
Variable path_extname : jsstring -> jsstring.
Variable path_basename : jsstring -> jsstring.
Variable mime_extension : option jsstring -> jsstring.

Context {W : Type}.
Variable env : Env Call W.

Lemma settles_lift :
  forall (A : Type) (p : MatrixEventProcessor.Async A), settles p -> settles (lift p).
Proof.
  fix IH 2. intros A [a|e| |X call k|k|s k|child k]; cbn [lift settles];
    try done.
  - intros H r. apply IH, H.
  - intros H s. apply IH, H.
  - apply IH.
  - intros [H1 H2]. split; apply IH; assumption.
Qed.

Lemma forksNothing_lift {A : Type} (p : MatrixEventProcessor.Async A) :
  forksNothing p -> forksNothing (lift p).
Proof.
  induction p as [a|e| |X call k IH|k IH|s k IH|child k IH] using prog_ind;
    cbn [lift forksNothing]; try done; auto.
Qed.

Lemma rendering_forks_nothing depth :
  (forall event channel getReply,
      forksNothing
        (EventToEmbed isRemoteUser localpart mxcUrlToHttp mxcUrlToHttpSized
           path_extname path_basename mime_extension depth event channel getReply))
  /\ (forall event channel,
        forksNothing
          (GetEmbedForReply isRemoteUser localpart mxcUrlToHttp mxcUrlToHttpSized
             path_extname path_basename mime_extension depth event channel)).
Proof.
  induction depth as [|depth [IH1 IH2]]; [by split|]. split.
  - intros event channel getReply. cbn [EventToEmbed]. cbv zeta.
    unfold GetUserProfileForRoom, SetEmbedAuthor. cbv zeta.
    repeat first [apply IH2 | nofork_step].
  - intros event channel. cbn [GetEmbedForReply]. cbv zeta.
    unfold GetFilenameForMediaEvent. cbv zeta.
    repeat first [apply IH1 | nofork_step].
Qed.

Lemma HandleAttachment_forks_nothing event :
  forksNothing
    (HandleAttachment mxcUrlToHttp path_extname path_basename mime_extension event).
Proof.
  unfold HandleAttachment, GetFilenameForMediaEvent. cbv zeta.
  repeat nofork_step.
Qed.

Lemma HandleAttachment_settles event :
  settles (HandleAttachment mxcUrlToHttp path_extname path_basename mime_extension event).
Proof.
  unfold HandleAttachment, GetFilenameForMediaEvent. cbv zeta. settle.
Qed.

Lemma sendReadReceipt_settles event :
  settles (sendReadReceipt disableReadReceipts event).
Proof. unfold sendReadReceipt. settle. Qed.

Lemma ProcessMsgEvent_settles d event guildId channelId :
  settles
    (ProcessMsgEvent disableReadReceipts isRemoteUser localpart mxcUrlToHttp
       mxcUrlToHttpSized path_extname path_basename mime_extension
       (S (S (S d))) event guildId channelId).
Proof.
  unfold ProcessMsgEvent. cbv zeta.
  apply settles_bind; [apply settles_await|intros roomLookup].
  apply settles_bind; [apply settles_lift, EventToEmbed_settles|intros embedSet].
  apply settles_bind; [apply settles_lift, HandleAttachment_settles|intros file].
  apply settles_bind; [apply settles_await|intros _].
  split; [|exact I].
  apply settles_try_catch; [apply sendReadReceipt_settles|done].
Qed.

Lemma recent_not_dropped event :
  recent event ->
  match unsigned_age event with
  | Some age => (AGE_LIMIT <? age)%Z
  | None => false
  end = false.
Proof.
  intros H. destruct (unsigned_age event) as [age|] eqn:Hage; [|done].
  apply Z.ltb_ge. by apply H.
Qed.

Ltac eval_eqb :=
  repeat match goal with
         | |- context [eqb (js ?a) (js ?b)] =>
             let v := eval vm_compute in (eqb (js a) (js b)) in
             change (eqb (js a) (js b)) with v
         end.

Lemma OnEvent_relays depth event context remoteRoom :
  recent event -> relayed event -> rooms_remote context = Some remoteRoom ->
  OnEvent disableReadReceipts botUserId isRemoteUser localpart mxcUrlToHttp
    mxcUrlToHttpSized path_extname path_basename mime_extension depth event context
  = let srvChanPair :=
      take 2 (BotLookups.split (drop 8 (remote_roomId remoteRoom)) 95) in
    try_catch
      (ProcessMsgEvent disableReadReceipts isRemoteUser localpart mxcUrlToHttp
         mxcUrlToHttpSized path_extname path_basename mime_extension depth
         (base event) (srvChanPair !! 0%nat) (srvChanPair !! 1%nat))
      (fun _ => Ret tt).
Proof.
  intros Hrecent Hrelayed Hremote. unfold OnEvent. cbv zeta.
  rewrite (recent_not_dropped _ Hrecent), Hremote.
  destruct Hrelayed as [Htype|[Htype (c & Hc & Hcmd)]]; rewrite Htype; eval_eqb;
    cbn [bind andb orb].
  - reflexivity.
  - rewrite Hc. cbn [bind]. rewrite Hcmd. reflexivity.
Qed.

(** X27.  A message that cannot be relayed never fails the request:
    for a recent sticker or message (other than a [!discord] command)
    in a bridged room, [OnEvent] returns whatever the look-up of the
    channel, the rendering, the download and the send answer. *)
Theorem relay_failure_is_swallowed :
  forall (d : nat) (event : RoomEvent) (context : BridgeContext)
         (remoteRoom : RemoteRoom) (w : W),
    recent event -> relayed event -> rooms_remote context = Some remoteRoom ->
    run_outcome
      (run env
         (OnEvent disableReadReceipts botUserId isRemoteUser localpart mxcUrlToHttp
            mxcUrlToHttpSized path_extname path_basename mime_extension (3 + d)
            event context) tt w)
    = Returned tt.
Proof.
  intros d event context remoteRoom w Hrecent Hrelayed Hremote.
  rewrite (OnEvent_relays _ _ _ remoteRoom) by done. cbv zeta.
  unfold run. rewrite exec_try_catch. cbv zeta.
  change (3 + d)%nat with (S (S (S d))).
  match goal with
  | |- context [exec env ?p tt w [] []] =>
      pose proof (settles_exec env p tt w [] []
                    (ProcessMsgEvent_settles d _ _ _)) as Hsettles;
      destruct (exec env p tt w [] []) as [[[]|e|] this1 w1 calls1 forked1]
  end; cbn in *; done.
Qed.

(** X28.  The id of the bridged room names the guild and the channel:
    for the remote room [discord_G_C], the first thing that the relay
    of a message does is to look up the channel [C] of the guild [G]
    for the sender of the message. *)
Theorem bridged_room_names_guild_and_channel :
  forall (depth : nat) (event : RoomEvent) (context : BridgeContext)
         (guildId channelId : jsstring) (w : W),
    recent event -> relayed event ->
    rooms_remote context
    = Some {| remote_roomId := js "discord_" ++ guildId ++ js "_" ++ channelId |} ->
    95 ∉ guildId -> 95 ∉ channelId ->
    head
      (run_calls
         (run env
            (OnEvent disableReadReceipts botUserId isRemoteUser localpart mxcUrlToHttp
               mxcUrlToHttpSized path_extname path_basename mime_extension depth
               event context) tt w))
    = Some (called (discord_LookupRoom (Some guildId) (Some channelId)
                      (sender (base event)))).
Proof.
  intros depth event context guildId channelId w Hrecent Hrelayed Hremote Hg Hc.
  rewrite (OnEvent_relays _ _ _ _ Hrecent Hrelayed Hremote). cbv zeta.
  cbn [remote_roomId].
  change (drop 8 (js "discord_" ++ guildId ++ js "_" ++ channelId))
    with (guildId ++ 95 :: channelId).
  rewrite split_pair by done. cbn [take lookup list_lookup].
  unfold run. rewrite exec_try_catch. cbv zeta.
  unfold ProcessMsgEvent. cbv zeta. rewrite exec_await_bind.
  set (lookup := discord_LookupRoom (Some guildId) (Some channelId)
                   (sender (base event))).
  destruct (env _ lookup w) as [[roomLookup|e] w1]; [|reflexivity].
  match goal with
  | |- context [exec env ?p tt w1 ([] ++ [called lookup]) []] =>
      destruct (exec_calls env p tt w1 ([] ++ [called lookup]) []) as [new Hnew];
      destruct (exec env p tt w1 ([] ++ [called lookup]) [])
        as [[[]|e|] this2 w2 calls2 forked2]
  end; cbn [run_calls run_outcome exec] in *; by subst calls2.
Qed.

(** X29.  A read receipt is sent only for a message that went out: the
    chain that sends it is started when [discord.send] has succeeded,
    and otherwise [ProcessMsgEvent] raises and has started nothing.
    The chain itself never raises, so a receipt that fails cannot fail
    anything else. *)
Theorem receipt_only_after_send :
  forall (d : nat) (event : IMatrixEvent) (guildId channelId : option jsstring) (w : W),
    let receipt :=
      try_catch (sendReadReceipt disableReadReceipts event) (fun _ => Ret tt) in
    let r :=
      run env
        (ProcessMsgEvent disableReadReceipts isRemoteUser localpart mxcUrlToHttp
           mxcUrlToHttpSized path_extname path_basename mime_extension (3 + d)
           event guildId channelId) tt w in
    ((run_outcome r = Returned tt
      /\ run_forked r = [receipt]
      /\ exists embedSet opts roomLookup,
           last (run_calls r)
           = Some (called (discord_send embedSet opts roomLookup (handled event))))
     \/ ((exists e, run_outcome r = Raised e) /\ run_forked r = []))
    /\ forall w', run_outcome (run env receipt tt w') = Returned tt.
Proof.
  intros d event guildId channelId w receipt r. split.
  - unfold r, run, ProcessMsgEvent. cbv zeta. change (3 + d)%nat with (S (S (S d))).
    rewrite exec_await_bind.
    destruct (env _ (discord_LookupRoom guildId channelId (sender event)) w)
      as [[roomLookup|e] w1]; [|right; by eauto].
    rewrite exec_bind. cbv zeta.
    match goal with
    | |- context [exec env (lift ?p) tt w1 ?calls []] =>
        pose proof (settles_exec env (lift p) tt w1 calls []
                      (settles_lift _ _ (EventToEmbed_settles _ _ _ _ _ _ _ d _ _ _)))
          as Hsettles;
        pose proof (forksNothing_exec env (lift p) tt w1 calls []
                      (forksNothing_lift _
                         (proj1 (rendering_forks_nothing _) _ _ _))) as Hforks;
        destruct (exec env (lift p) tt w1 calls [])
          as [[embedSet|e|] [] w2 calls2 forked2]
    end; cbn [run_outcome run_forked run_this run_world run_calls] in *;
      [|right; by eauto|done].
    subst forked2. rewrite exec_bind. cbv zeta.
    match goal with
    | |- context [exec env (lift ?p) tt w2 calls2 []] =>
        pose proof (settles_exec env (lift p) tt w2 calls2 []
                      (settles_lift _ _ (HandleAttachment_settles _))) as Hsettles';
        pose proof (forksNothing_exec env (lift p) tt w2 calls2 []
                      (forksNothing_lift _ (HandleAttachment_forks_nothing _)))
          as Hforks';
        destruct (exec env (lift p) tt w2 calls2 [])
          as [[file|e|] [] w3 calls3 forked3]
    end; cbn [run_outcome run_forked run_this run_world run_calls] in *;
      [|right; by eauto|done].
    subst forked3. rewrite exec_await_bind.
    match goal with
    | |- context [env _ (discord_send ?a ?b ?c ?e) w3] =>
        destruct (env _ (discord_send a b c e) w3) as [[[]|e'] w4];
        [left|right; by eauto]
    end.
    cbn [exec run_outcome run_forked run_calls app].
    split; [done|]. split; [done|]. eexists _, _, _. apply last_snoc.
  - intros w'. unfold receipt, run, sendReadReceipt.
    destruct disableReadReceipts; cbn [negb]; [reflexivity|].
    cbn [await try_catch exec].
    by destruct (env _ (intent_sendReadReceipt (room_id event) (event_id event)) w')
      as [[[]|e] w''].
Qed.

(** X30.  When encryption is turned on in a bridged room, the bridge
    leaves the room and forgets it only after both notices, the one in
    the Matrix room and the one in the Discord channel, have been sent;
    the notice in the Matrix room is the first thing it asks for, and
    whatever goes wrong reaches the caller as an error that begins with
    [Failed to handle encrypted room, ]. *)
Theorem encrypted_room_is_left_after_both_notices :
  forall (depth : nat) (event : RoomEvent) (context : BridgeContext) (w : W),
    recent event ->
    type (base event) = js "m.room.encryption" ->
    rooms_remote context <> None ->
    let roomId := room_id (base event) in
    let r :=
      run env
        (OnEvent disableReadReceipts botUserId isRemoteUser localpart mxcUrlToHttp
           mxcUrlToHttpSized path_extname path_basename mime_extension depth
           event context) tt w in
    head (run_calls r) = Some (called (intent_sendMessage roomId encryptionNotice))
    /\ (forall e, run_outcome r = Raised e ->
                  startsWith e (js "Failed to handle encrypted room, ") = true)
    /\ (filter (fun c => isLeave c = true) (run_calls r) <> [] ->
        exists w1 channel w2 text w3,
          env _ (intent_sendMessage roomId encryptionNotice) w = (Ok tt, w1)
          /\ env _ (discord_GetChannelFromRoomId roomId) w1 = (Ok channel, w2)
          /\ env _ (channel_send channel text) w2 = (Ok tt, w3)).
Proof.
  intros depth event context w Hrecent Htype Hremote roomId r.
  assert (forall e : Error,
            startsWith (js "Failed to handle encrypted room, " ++ e)
              (js "Failed to handle encrypted room, ") = true) as Hprefix
    by (intros e; apply startsWith_app).
  unfold r, run, OnEvent. cbv zeta.
  rewrite (recent_not_dropped _ Hrecent), Htype. eval_eqb. cbn [bind andb orb].
  rewrite (bool_decide_eq_true_2 _ Hremote). fold roomId.
  unfold HandleEncryptionWarning. cbn [try_catch exec].
  destruct (env _ (intent_sendMessage roomId encryptionNotice) w)
    as [sendPromise w1] eqn:Hsend.
  cbn [await bind try_catch exec].
  destruct (env _ (discord_GetChannelFromRoomId roomId) w1)
    as [[channel|e] w2] eqn:Hchan; cbn [bind try_catch exec app];
    [|cbn; split; [done|]; split; [by intros ? [= <-]|done]].
  match goal with
  | |- context [env _ (channel_send channel ?text) w2] =>
      destruct (env _ (channel_send channel text) w2) as [[[]|e] w3] eqn:Hnotice
  end; cbn [bind try_catch exec app];
    [|cbn; split; [done|]; split; [by intros ? [= <-]|done]].
  destruct sendPromise as [[]|e]; cbn [bind try_catch exec app];
    [|cbn; split; [done|]; split; [by intros ? [= <-]|done]].
  destruct (env _ (intent_leave roomId) w3) as [[[]|e] w4];
    cbn [await bind try_catch exec app];
    [destruct (env _ (roomStore_removeEntriesByMatrixRoomId roomId) w4)
       as [[[]|e] w5]|];
    cbn [try_catch exec run_calls run_outcome head];
    (split; [reflexivity|]);
    (split; [first [by intros ? [= <-] | by intros ? [=]]|]);
    intros _; eexists w1, channel, w2, _, w3;
    (split; [reflexivity|split; [exact Hchan|exact Hnotice]]).
Qed.

End MoreRouting.

(** X27 at a message for a Discord channel that cannot be written to. *)
Lemma relay_failure_is_swallowed_witness :
  run_outcome
    (run (RoutingSamples.bridge false)
       (EventRouting.OnEvent false Samples.botUserId Samples.isRemoteUser
          ProcessorSamples.localpart Samples.mxcUrlToHttp Samples.mxcUrlToHttpSized
          Samples.path_extname Samples.path_basename Samples.mime_extension 3
          (RoutingSamples.roomEvent Samples.replyEvent) RoutingSamples.bridged) tt tt)
  = Returned tt.
Proof.
  apply (relay_failure_is_swallowed false Samples.botUserId Samples.isRemoteUser
           ProcessorSamples.localpart Samples.mxcUrlToHttp Samples.mxcUrlToHttpSized
           Samples.path_extname Samples.path_basename Samples.mime_extension
           (RoutingSamples.bridge false) 0
           (RoutingSamples.roomEvent Samples.replyEvent) RoutingSamples.bridged
           {| EventRouting.remote_roomId := js "discord_1234_456" |} tt).
  - intros age [= <-]. by vm_compute.
  - right. split; [reflexivity|]. eexists. split; reflexivity.
  - reflexivity.
Defined.

Lemma bridged_room_names_guild_and_channel_witness :
  head
    (run_calls
       (run (RoutingSamples.bridge true)
          (EventRouting.OnEvent false Samples.botUserId Samples.isRemoteUser
             ProcessorSamples.localpart Samples.mxcUrlToHttp Samples.mxcUrlToHttpSized
             Samples.path_extname Samples.path_basename Samples.mime_extension 3
             (RoutingSamples.roomEvent Samples.replyEvent) RoutingSamples.bridged)
          tt tt))
  = Some (called (EventRouting.discord_LookupRoom (Some (js "1234")) (Some (js "456"))
                    (js "@alice:hs"))).
Proof.
  apply (bridged_room_names_guild_and_channel false Samples.botUserId
           Samples.isRemoteUser ProcessorSamples.localpart Samples.mxcUrlToHttp
           Samples.mxcUrlToHttpSized Samples.path_extname Samples.path_basename
           Samples.mime_extension (RoutingSamples.bridge true) 3
           (RoutingSamples.roomEvent Samples.replyEvent) RoutingSamples.bridged
           (js "1234") (js "456") tt).
  - intros age [= <-]. by vm_compute.
  - right. split; [reflexivity|]. eexists. split; reflexivity.
  - reflexivity.
  - apply (bool_decide_unpack _). vm_compute. exact I.
  - apply (bool_decide_unpack _). vm_compute. exact I.
Defined.

(** X30 at a room whose Discord channel cannot be written to: the
    bridge stays in the room. *)
Lemma encrypted_room_is_left_after_both_notices_witness :
  let r :=
    run (RoutingSamples.bridge false)
      (EventRouting.OnEvent false Samples.botUserId Samples.isRemoteUser
         ProcessorSamples.localpart Samples.mxcUrlToHttp Samples.mxcUrlToHttpSized
         Samples.path_extname Samples.path_basename Samples.mime_extension 3
         RoutingSamples.encryptionEvent RoutingSamples.bridged) tt tt in
  run_outcome r
  = Raised (js "Failed to handle encrypted room, " ++ js "Missing Permissions")
  /\ filter (fun c => EventRouting.isLeave c = true) (run_calls r) = []
  /\ head (run_calls r)
     = Some (called (EventRouting.intent_sendMessage Samples.room
                       EventRouting.encryptionNotice)).
Proof.
  split; [reflexivity|]. split; [reflexivity|].
  apply (encrypted_room_is_left_after_both_notices false Samples.botUserId
           Samples.isRemoteUser ProcessorSamples.localpart Samples.mxcUrlToHttp
           Samples.mxcUrlToHttpSized Samples.path_extname Samples.path_basename
           Samples.mime_extension (RoutingSamples.bridge false) 3
           RoutingSamples.encryptionEvent RoutingSamples.bridged tt).
  - intros age [= <-]. by vm_compute.
  - reflexivity.
  - discriminate.
Defined.
